(** * Name resolution, scoped uniqueness and date handling of the Eneca MCP tools

    A shallow embedding of [build/services/database.js] (class
    [DatabaseService]) and of the object and section tool handlers
    ([build/tools/objects.js] and the module of the section tools), with
    the properties the specification states about them.

    - JavaScript strings are sequences of UTF-16 code units ([list N]), so
      that [length], [trim], [split] and [replace] count what the engine
      counts.
    - The managed store (the [supabase] client) is an explicit state: the
      tables, a schedule of store failures and the trace of the calls made.
      Every [await supabase...] is one call.
    - A handler is a computation over that state which either returns early
      with a tool result or goes on.
    - A store failure is an [error] in the answer of a call, as the client
      reports it; nothing throws, so the [catch] arms of the source have no
      counterpart.  The store enforces no constraint of its own on names:
      whatever uniqueness holds is what the code checks.

    The part "Further properties" goes beyond the specification: what
    [parseDate] accepts, the create, update and delete methods of projects
    and stages, deletion with and without cascade, what the writing tools
    keep true of the store, the paging of [listObjects], the cache of
    [getProject], [getStage] and [getUser], and the rate limiter of the SSE
    endpoint ([index.js]).  There a reading of the clock ([Date.now()]) is
    an argument of the function that reads it, and [listObjects] has the
    one [catch] arm with a counterpart, for a [data] that is [null]. *)

From Stdlib Require Import List NArith ZArith PArith Bool Lia String Ascii.
From Stdlib Require Import DecimalString.
Import ListNotations.

Set Implicit Arguments.

(* ================================================================== *)
(** ** JavaScript strings *)
(* ================================================================== *)

Module JS.

Local Open Scope N_scope.

(** A string value: its UTF-16 code units. *)
Definition jsstring := list N.

(** Source literals are written in UTF-8; [utf16_of_utf8] gives the code
    units the engine holds for them (a code point above U+FFFF becomes a
    surrogate pair). *)
Fixpoint utf16_of_utf8 (bs : list N) : jsstring :=
  match bs with
  | [] => []
  | b0 :: r0 =>
    if b0 <? 128 then b0 :: utf16_of_utf8 r0
    else
      match r0 with
      | [] => [65533]
      | b1 :: r1 =>
        if b0 <? 224 then ((b0 mod 32) * 64 + b1 mod 64) :: utf16_of_utf8 r1
        else
          match r1 with
          | [] => [65533]
          | b2 :: r2 =>
            if b0 <? 240
            then ((b0 mod 16) * 4096 + (b1 mod 64) * 64 + b2 mod 64)
                   :: utf16_of_utf8 r2
            else
              match r2 with
              | [] => [65533]
              | b3 :: r3 =>
                let cp := (b0 mod 8) * 262144 + (b1 mod 64) * 4096
                          + (b2 mod 64) * 64 + b3 mod 64 - 65536 in
                (55296 + cp / 1024) :: (56320 + cp mod 1024)
                  :: utf16_of_utf8 r3
              end
          end
      end
  end.

(** A string literal of the source. *)
Definition lit (s : string) : jsstring :=
  utf16_of_utf8 (map N_of_ascii (list_ascii_of_string s)).

(** The double quote, which the handlers put around names in messages. *)
Definition dquote : jsstring := [34].

(** [a === b] on strings. *)
Fixpoint str_eqb (a b : jsstring) : bool :=
  match a, b with
  | [], [] => true
  | x :: a', y :: b' => (x =? y) && str_eqb a' b'
  | _, _ => false
  end.

(** [s.length] *)
Definition strlen (s : jsstring) : nat := List.length s.

(** WhiteSpace and LineTerminator code units: what [trim] strips and what
    [\s] matches. *)
Definition is_whitespace (c : N) : bool :=
  ((9 <=? c) && (c <=? 13)) || (c =? 32) || (c =? 160) || (c =? 5760)
  || ((8192 <=? c) && (c <=? 8202)) || (c =? 8232) || (c =? 8233)
  || (c =? 8239) || (c =? 8287) || (c =? 12288) || (c =? 65279).

Fixpoint trimStart (s : jsstring) : jsstring :=
  match s with
  | [] => []
  | c :: s' => if is_whitespace c then trimStart s' else s
  end.

Definition trimEnd (s : jsstring) : jsstring := rev (trimStart (rev s)).

(** [s.trim()] *)
Definition trim (s : jsstring) : jsstring := trimEnd (trimStart s).

(** [s.includes(c)] for a one-unit needle. *)
Definition includes (s : jsstring) (c : N) : bool := existsb (N.eqb c) s.

(** [s.split(sep)] for a one-unit string separator. *)
Fixpoint split (sep : N) (s : jsstring) : list jsstring :=
  match s with
  | [] => [[]]
  | c :: s' =>
    if c =? sep then [] :: split sep s'
    else
      match split sep s' with
      | [] => [[c]]
      | w :: ws => (c :: w) :: ws
      end
  end.

(** [s.split(/\s+/)]: [gap] holds while the scan is inside a run of
    whitespace that has already closed a word. *)
Fixpoint split_ws_from (gap : bool) (s : jsstring) : list jsstring :=
  match s with
  | [] => [[]]
  | c :: s' =>
    if is_whitespace c then
      if gap then split_ws_from true s' else [] :: split_ws_from true s'
    else
      match split_ws_from false s' with
      | [] => [[c]]
      | w :: ws => (c :: w) :: ws
      end
  end.

Definition split_whitespace (s : jsstring) : list jsstring :=
  split_ws_from false s.

(** The characters of the class [[%_\\]]. *)
Definition is_like_meta (c : N) : bool := (c =? 37) || (c =? 95) || (c =? 92).

(** [s.replace(/[%_\\]/g, '\\$&')]: a backslash before each match. *)
Definition escape_like (s : jsstring) : jsstring :=
  flat_map (fun c => if is_like_meta c then [92; c] else [c]) s.

(** [s.padStart(n, '0')] *)
Definition padStart0 (n : nat) (s : jsstring) : jsstring :=
  repeat 48 (n - List.length s) ++ s.

Definition is_digit (c : N) : bool := (48 <=? c) && (c <=? 57).

(** The digits [parseInt] reads: the longest prefix of decimal digits,
    accumulated from [acc]; [seen] tells whether a digit was read. *)
Fixpoint parse_digits (acc : N) (seen : bool) (s : jsstring) : option N :=
  match s with
  | [] => if seen then Some acc else None
  | c :: s' =>
    if is_digit c then parse_digits (10 * acc + (c - 48)) true s'
    else if seen then Some acc else None
  end.

(** [parseInt(s, 10)]; [None] is NaN. *)
Definition parseInt10 (s : jsstring) : option Z :=
  match trimStart s with
  | 45 :: r => option_map (fun n => (- Z.of_N n)%Z) (parse_digits 0 false r)
  | 43 :: r => option_map Z.of_N (parse_digits 0 false r)
  | r => option_map Z.of_N (parse_digits 0 false r)
  end.

(** [x < k] and [x > k] on numbers: false when [x] is NaN. *)
Definition num_lt (x : option Z) (k : Z) : bool :=
  match x with Some v => (v <? k)%Z | None => false end.
Definition num_gt (x : option Z) (k : Z) : bool :=
  match x with Some v => (v >? k)%Z | None => false end.

(** A number in a template literal, for the naturals the code prints. *)
Definition of_nat (n : nat) : jsstring :=
  map N_of_ascii (list_ascii_of_string (NilZero.string_of_uint (Nat.to_uint n))).

(** A value that may be [undefined] or [null], in a template literal or
    under [String(...)]. *)
Definition String_ (v : option jsstring) : jsstring :=
  match v with Some s => s | None => lit "undefined" end.

(** Truthiness of a value that is a string, [undefined] or [null]. *)
Definition truthy (v : option jsstring) : bool :=
  match v with Some (_ :: _) => true | _ => false end.

(** [a || b] on such values. *)
Definition or_else (a b : option jsstring) : option jsstring :=
  if truthy a then a else b.

(** [parts.join(sep)] *)
Fixpoint join (sep : jsstring) (parts : list jsstring) : jsstring :=
  match parts with
  | [] => []
  | [p] => p
  | p :: rest => p ++ sep ++ join sep rest
  end.

End JS.
Import JS.

(* ================================================================== *)
(** ** Date helpers of [DatabaseService] *)
(* ================================================================== *)

(** [/^\d{2}\.\d{2}\.\d{4}$/.test(s)] *)
Definition dateRegex_test (s : jsstring) : bool :=
  match s with
  | [d1; d2; p1; m1; m2; p2; y1; y2; y3; y4] =>
    is_digit d1 && is_digit d2 && (p1 =? 46)%N
    && is_digit m1 && is_digit m2 && (p2 =? 46)%N
    && is_digit y1 && is_digit y2 && is_digit y3 && is_digit y4
  | _ => false
  end.

(** The [n]-th element of a destructured array, as a template literal
    prints it. *)
Definition part (n : nat) (parts : list jsstring) : jsstring :=
  String_ (nth_error parts n).

(** [parseDate(dateStr)]: [dd.mm.yyyy] to [yyyy-mm-dd]; [None] is [null].
    The argument is [None] when it is not a string. *)
Definition parseDate (dateStr : option jsstring) : option jsstring :=
  if negb (truthy dateStr) then None
  else
    let trimmed := trim (String_ dateStr) in
    if negb (dateRegex_test trimmed) then None
    else
      let parts := split 46 trimmed in
      let day := part 0 parts in
      let month := part 1 parts in
      let year := part 2 parts in
      let dayNum := parseInt10 day in
      let monthNum := parseInt10 month in
      let yearNum := parseInt10 year in
      if num_lt dayNum 1 || num_gt dayNum 31
         || num_lt monthNum 1 || num_gt monthNum 12
         || num_lt yearNum 1900 || num_gt yearNum 2100
      then None
      else Some (year ++ [45%N] ++ padStart0 2 month ++ [45%N] ++ padStart0 2 day).

(** [formatDateForDisplay(dateStr)]: [yyyy-mm-dd] to [dd.mm.yyyy]. *)
Definition formatDateForDisplay (dateStr : option jsstring) : jsstring :=
  if negb (truthy dateStr) then []
  else
    let parts := split 45 (String_ dateStr) in
    let year := part 0 parts in
    let month := part 1 parts in
    let day := part 2 parts in
    day ++ [46%N] ++ month ++ [46%N] ++ year.

(** A date written the way the tools expect it: two digits, a dot, two
    digits, a dot, four digits. *)
Definition two_digits (n : nat) : jsstring :=
  [N.of_nat (48 + n / 10); N.of_nat (48 + n mod 10)].

Definition four_digits (n : nat) : jsstring :=
  [N.of_nat (48 + n / 1000); N.of_nat (48 + (n / 100) mod 10);
   N.of_nat (48 + (n / 10) mod 10); N.of_nat (48 + n mod 10)].

Definition dd_mm_yyyy (d m y : nat) : jsstring :=
  two_digits d ++ [46%N] ++ two_digits m ++ [46%N] ++ four_digits y.

(* ================================================================== *)
(** ** The managed store *)
(* ================================================================== *)

(** Identifiers are opaque and assigned by the store (uuids in the
    deployment): never empty, so always truthy. *)
Definition Id := positive.

Record Project := {
  project_id : Id;
  project_name : jsstring;
  project_description : option jsstring;
  project_manager : option Id;
  project_lead_engineer : option Id;
  project_status : jsstring
}.

Record Stage := {
  stage_id : Id;
  stage_name : jsstring;
  stage_description : option jsstring;
  stage_project_id : Id
}.

Record Object := {
  object_id : Id;
  object_name : jsstring;
  object_description : option jsstring;
  object_stage_id : Id;
  object_project_id : Id;
  object_responsible : option Id;
  object_start_date : option jsstring;
  object_end_date : option jsstring
}.

Record Section_ := {
  section_id : Id;
  section_name : jsstring;
  section_description : option jsstring;
  section_object_id : Id;
  section_project_id : Id;
  section_type : option jsstring;
  section_responsible : option Id;
  section_start_date : option jsstring;
  section_end_date : option jsstring
}.

(** A row of [profiles] and of the view [view_users]. *)
Record User := {
  user_id : Id;
  first_name : jsstring;
  last_name : jsstring;
  full_name : jsstring;
  email : jsstring;
  is_active : bool
}.

Record Tables := {
  projects : list Project;
  stages : list Stage;
  objects : list Object;
  sections : list Section_;
  profiles : list User;
  view_users : list User
}.

Inductive Table :=
  T_projects | T_stages | T_objects | T_sections | T_profiles | T_view_users.

Inductive Verb := V_select | V_insert | V_update | V_delete.

(** One awaited call on the client: the table it names and what it does. *)
Record Call := { call_table : Table; call_verb : Verb }.

(** The state a request runs against.  [faults] is the schedule of store
    failures: each call consumes its head, and [Some msg] makes that call
    answer with the error [msg]; an empty schedule is a store that answers
    every call.  [trace] lists the calls made so far, oldest first. *)
Record World := {
  tables : Tables;
  faults : list (option jsstring);
  trace : list Call
}.

(** What a call resolves to: [{ data, error }]. *)
Record PgResult (A : Type) := { data : option A; error : option jsstring }.

Definition pg_ok {A} (a : A) : PgResult A := {| data := Some a; error := None |}.
Definition pg_error {A} (msg : jsstring) : PgResult A :=
  {| data := None; error := Some msg |}.

(** [.single()]: the one row, or the error the store gives when the rows are
    none or several. *)
Definition single_row_error : jsstring :=
  lit "JSON object requested, multiple (or no) rows returned".

Definition single {A} (rows : list A) : PgResult A :=
  match rows with
  | [r] => pg_ok r
  | _ => pg_error single_row_error
  end.

(** Computations over the world. *)
Definition M (A : Type) : Type := World -> A * World.

Definition ret {A} (a : A) : M A := fun w => (a, w).

Definition bind {A B} (m : M A) (k : A -> M B) : M B :=
  fun w => let (a, w') := m w in k a w'.

Declare Scope store_scope.
Delimit Scope store_scope with store.
Notation "x <- m ;; k" := (bind m (fun x => k))
  (at level 100, m at next level, right associativity) : store_scope.
Notation "m ;;; k" := (bind m (fun _ => k))
  (at level 100, right associativity) : store_scope.
Open Scope store_scope.

(** The world after one call. *)
Definition after_call (c : Call) (w : World) : World :=
  {| tables := tables w; faults := tl (faults w); trace := trace w ++ [c] |}.

Definition with_tables (t : Tables) (w : World) : World :=
  {| tables := t; faults := faults w; trace := trace w |}.

(** One awaited call: it is logged, it consumes the head of the fault
    schedule, and unless that head is a failure it runs [exec] on the
    tables. *)
Definition call {A} (c : Call) (exec : Tables -> PgResult A * Tables)
  : M (PgResult A) :=
  fun w =>
    match faults w with
    | Some msg :: _ => (pg_error msg, after_call c w)
    | _ => let (r, t) := exec (tables w) in (r, with_tables t (after_call c w))
    end.

(** A read: [from(t).select(...)...]. *)
Definition select {A} (t : Table) (q : Tables -> PgResult A) : M (PgResult A) :=
  call {| call_table := t; call_verb := V_select |} (fun tb => (q tb, tb)).

(** A read of table [t], as it stands in the trace. *)
Definition selecting (t : Table) : Call := {| call_table := t; call_verb := V_select |}.

(** [!error && !!data] *)
Definition ok_with_data {A} (r : PgResult A) : bool :=
  match error r, data r with
  | None, Some _ => true
  | _, _ => false
  end.

(** [data?.length || 0] *)
Definition count_rows {A} (r : PgResult (list A)) : nat :=
  match data r with Some rows => List.length rows | None => 0 end.

(** A fresh identifier for an inserted row. *)
Definition fresh_id (used : list Id) : Id :=
  Pos.succ (fold_right Pos.max 1%positive used).

Definition opt_id_eqb (a : option Id) (b : Id) : bool :=
  match a with Some x => Pos.eqb x b | None => false end.

(** A filter that is only added when its argument is given
    ([if (stageId) query = query.eq(...)]). *)
Definition when_given {A} (v : option Id) (f : Id -> A -> bool) : A -> bool :=
  match v with Some x => f x | None => fun _ => true end.

(** Table updates. *)
Definition set_projects (v : list Project) (t : Tables) : Tables :=
  {| projects := v; stages := stages t; objects := objects t;
     sections := sections t; profiles := profiles t; view_users := view_users t |}.
Definition set_stages (v : list Stage) (t : Tables) : Tables :=
  {| projects := projects t; stages := v; objects := objects t;
     sections := sections t; profiles := profiles t; view_users := view_users t |}.
Definition set_objects (v : list Object) (t : Tables) : Tables :=
  {| projects := projects t; stages := stages t; objects := v;
     sections := sections t; profiles := profiles t; view_users := view_users t |}.
Definition set_sections (v : list Section_) (t : Tables) : Tables :=
  {| projects := projects t; stages := stages t; objects := objects t;
     sections := v; profiles := profiles t; view_users := view_users t |}.

(** What the code takes from outside the repository: how the store
    evaluates an [or(...)] filter string on a row of [view_users], and the
    time value the engine gives a date string ([new Date(s)]; [None] is an
    invalid date). *)
Class Platform := {
  or_filter : jsstring -> User -> bool;
  Date_value : jsstring -> option Z
}.

(* ================================================================== *)
(** ** [DatabaseService] *)
(* ================================================================== *)

(** The result object of the CRUD methods:
    [{ success, message, data, error }]. *)
Record DbResult (A : Type) := {
  success : bool;
  message : jsstring;
  result_data : option A;
  result_error : option jsstring
}.

Definition failure {A} (msg : jsstring) : DbResult A :=
  {| success := false; message := msg; result_data := None; result_error := None |}.

Definition store_failure {A} (prefix err : jsstring) : DbResult A :=
  {| success := false; message := prefix ++ err;
     result_data := None; result_error := Some err |}.

(** What the [validateUnique...ByName] methods return: the string
    ['not_found'], the string ['multiple_found'], or the record. *)
Inductive Resolution (A : Type) :=
| not_found
| multiple_found
| found (record : A).
Arguments not_found {A}.
Arguments multiple_found {A}.

(** What the [validateUnique...ByNameForUpdate] methods return. *)
Inductive UniqueCheck := unique | duplicate.

(** The shared tail of the [validateUnique...ByName] methods. *)
Definition one_of {A} (r : PgResult (list A)) : Resolution A :=
  match error r, data r with
  | Some _, _ => not_found
  | None, None => not_found
  | None, Some [] => not_found
  | None, Some [x] => found x
  | None, Some (_ :: _ :: _) => multiple_found
  end.

(** The shared tail of the [...ForUpdate] methods. *)
Definition unique_unless_rows {A} (r : PgResult (list A)) : UniqueCheck :=
  match error r with
  | Some _ => unique
  | None =>
    match data r with
    | Some (_ :: _) => duplicate
    | _ => unique
    end
  end.

(** [error ? null : data] *)
Definition data_unless_error {A} (r : PgResult A) : option A :=
  match error r with Some _ => None | None => data r end.

(** [error ? [] : data || []] *)
Definition rows_unless_error {A} (r : PgResult (list A)) : list A :=
  match error r, data r with
  | None, Some rows => rows
  | _, _ => []
  end.

(** *** Existence checks *)

Definition validateProjectExists (projectId : Id) : M bool :=
  r <- select T_projects (fun t =>
         single (filter (fun p => Pos.eqb (project_id p) projectId) (projects t)));;
  ret (ok_with_data r).

Definition validateStageExists (stageId : Id) : M bool :=
  r <- select T_stages (fun t =>
         single (filter (fun s => Pos.eqb (stage_id s) stageId) (stages t)));;
  ret (ok_with_data r).

Definition validateObjectExists (objectId : Id) : M bool :=
  r <- select T_objects (fun t =>
         single (filter (fun o => Pos.eqb (object_id o) objectId) (objects t)));;
  ret (ok_with_data r).

Definition validateUserExists (userId : Id) : M bool :=
  r <- select T_profiles (fun t =>
         single (filter (fun u => Pos.eqb (user_id u) userId) (profiles t)));;
  ret (ok_with_data r).

Definition validateSectionExists (sectionId : Id) : M bool :=
  r <- select T_sections (fun t =>
         single (filter (fun s => Pos.eqb (section_id s) sectionId) (sections t)));;
  ret (ok_with_data r).

(** [input.x && !(await this.validateUserExists(input.x))] and its
    siblings: the check is awaited only when the reference is given. *)
Definition given_but_missing (v : option Id) (exists_ : Id -> M bool) : M bool :=
  match v with
  | None => ret false
  | Some x => b <- exists_ x;; ret (negb b)
  end.

(** *** Resolution by name *)

Definition validateUniqueProjectByName (name : jsstring) : M (Resolution Project) :=
  r <- select T_projects (fun t =>
         pg_ok (filter (fun p => str_eqb (project_name p) name) (projects t)));;
  ret (one_of r).

Definition validateUniqueStageByName (name : jsstring) (projectId : Id)
  : M (Resolution Stage) :=
  r <- select T_stages (fun t =>
         pg_ok (filter (fun s => str_eqb (stage_name s) name
                                 && Pos.eqb (stage_project_id s) projectId)
                       (stages t)));;
  ret (one_of r).

Definition validateUniqueObjectByName (name : jsstring) (stageId : option Id)
  : M (Resolution Object) :=
  r <- select T_objects (fun t =>
         pg_ok (filter (fun o => str_eqb (object_name o) name
                                 && when_given stageId
                                      (fun s o => Pos.eqb (object_stage_id o) s) o)
                       (objects t)));;
  ret (one_of r).

(** *** Exact lookups for the update tools *)

Definition findProjectByNameExact (name : jsstring) : M (option Project) :=
  let cleanName := trim name in
  r <- select T_projects (fun t =>
         single (filter (fun p => str_eqb (project_name p) cleanName) (projects t)));;
  ret (data_unless_error r).

Definition findStageByNameExact (name : jsstring) (projectId : Id)
  : M (option Stage) :=
  let cleanName := trim name in
  r <- select T_stages (fun t =>
         single (filter (fun s => str_eqb (stage_name s) cleanName
                                  && Pos.eqb (stage_project_id s) projectId)
                        (stages t)));;
  ret (data_unless_error r).

Definition findObjectByNameExact (name : jsstring) (projectId : Id)
  (stageId : option Id) : M (option Object) :=
  let cleanName := trim name in
  r <- select T_objects (fun t =>
         single (filter (fun o => str_eqb (object_name o) cleanName
                                  && Pos.eqb (object_project_id o) projectId
                                  && when_given stageId
                                       (fun s o => Pos.eqb (object_stage_id o) s) o)
                        (objects t)));;
  ret (data_unless_error r).

Definition findSectionByNameExact (name : jsstring) (projectId : Id)
  (objectId : option Id) : M (option Section_) :=
  let cleanName := trim name in
  r <- select T_sections (fun t =>
         single (filter (fun s => str_eqb (section_name s) cleanName
                                  && Pos.eqb (section_project_id s) projectId
                                  && when_given objectId
                                       (fun o s => Pos.eqb (section_object_id s) o) s)
                        (sections t)));;
  ret (data_unless_error r).

(** *** Uniqueness of a new name, the renamed record apart *)

Definition validateUniqueProjectByNameForUpdate (name : jsstring) (excludeId : Id)
  : M UniqueCheck :=
  let cleanName := trim name in
  r <- select T_projects (fun t =>
         pg_ok (filter (fun p => str_eqb (project_name p) cleanName
                                 && negb (Pos.eqb (project_id p) excludeId))
                       (projects t)));;
  ret (unique_unless_rows r).

Definition validateUniqueStageByNameForUpdate (name : jsstring)
  (projectId excludeId : Id) : M UniqueCheck :=
  let cleanName := trim name in
  r <- select T_stages (fun t =>
         pg_ok (filter (fun s => str_eqb (stage_name s) cleanName
                                 && Pos.eqb (stage_project_id s) projectId
                                 && negb (Pos.eqb (stage_id s) excludeId))
                       (stages t)));;
  ret (unique_unless_rows r).

Definition validateUniqueObjectByNameForUpdate (name : jsstring)
  (stageId excludeId : Id) : M UniqueCheck :=
  let cleanName := trim name in
  r <- select T_objects (fun t =>
         pg_ok (filter (fun o => str_eqb (object_name o) cleanName
                                 && Pos.eqb (object_stage_id o) stageId
                                 && negb (Pos.eqb (object_id o) excludeId))
                       (objects t)));;
  ret (unique_unless_rows r).

Definition validateUniqueSectionByNameForUpdate (name : jsstring)
  (objectId excludeId : Id) : M UniqueCheck :=
  let cleanName := trim name in
  r <- select T_sections (fun t =>
         pg_ok (filter (fun s => str_eqb (section_name s) cleanName
                                 && Pos.eqb (section_object_id s) objectId
                                 && negb (Pos.eqb (section_id s) excludeId))
                       (sections t)));;
  ret (unique_unless_rows r).

(** *** Person search *)

(** The four clauses on one field each. *)
Definition single_field_clauses (cleanQuery : jsstring) : list jsstring :=
  [ lit "first_name.ilike.%" ++ cleanQuery ++ lit "%";
    lit "last_name.ilike.%" ++ cleanQuery ++ lit "%";
    lit "full_name.ilike.%" ++ cleanQuery ++ lit "%";
    lit "email.ilike.%" ++ cleanQuery ++ lit "%" ].

(** The two clauses on a first name and a last name, in both orders. *)
Definition name_pair_clauses (firstName lastName : jsstring) : list jsstring :=
  [ lit "and(first_name.ilike.%" ++ firstName
      ++ lit "%,last_name.ilike.%" ++ lastName ++ lit "%)";
    lit "and(first_name.ilike.%" ++ lastName
      ++ lit "%,last_name.ilike.%" ++ firstName ++ lit "%)" ].

(** The clauses [searchUsersByQuery] pushes to [searchTerms] for the
    cleaned query. *)
Definition searchTerms (cleanQuery : jsstring) : list jsstring :=
  single_field_clauses cleanQuery ++
  (if includes cleanQuery 32 then
     let words := split_whitespace cleanQuery in
     if 2 <=? List.length words then
       let firstName := escape_like (nth 0 words []) in
       let lastName := escape_like (nth 1 words []) in
       name_pair_clauses firstName lastName
     else []
   else []).

Definition searchUsersByQuery {P : Platform} (query : jsstring) : M (list User) :=
  let cleanQuery := escape_like (trim query) in
  match cleanQuery with
  | [] =>
    r <- select T_view_users (fun t =>
           pg_ok (firstn 50 (filter is_active (view_users t))));;
    ret (rows_unless_error r)
  | _ :: _ =>
    if 50 <? strlen cleanQuery then ret []
    else
      r <- select T_view_users (fun t =>
             pg_ok (firstn 50
                      (filter (fun u => is_active u
                                        && or_filter (join (lit ",") (searchTerms cleanQuery)) u)
                              (view_users t))));;
      ret (rows_unless_error r)
  end.

(** *** Date range *)

Definition validateDateRange {P : Platform} (startDate endDate : option jsstring) : bool :=
  if negb (truthy startDate) || negb (truthy endDate) then true
  else
    match Date_value (String_ startDate), Date_value (String_ endDate) with
    | Some a, Some b => (a <=? b)%Z
    | _, _ => false
    end.

(** *** Deleting a project *)

Record CascadeInfo := {
  info_sections : nat;
  info_objects : nat;
  info_stages : nat;
  info_total : nat
}.

Definition getCascadeDeleteInfo (projectId : Id) : M CascadeInfo :=
  sectionsResult <- select T_sections (fun t =>
      pg_ok (filter (fun s => Pos.eqb (section_project_id s) projectId) (sections t)));;
  objectsResult <- select T_objects (fun t =>
      pg_ok (filter (fun o => Pos.eqb (object_project_id o) projectId) (objects t)));;
  stagesResult <- select T_stages (fun t =>
      pg_ok (filter (fun s => Pos.eqb (stage_project_id s) projectId) (stages t)));;
  let n_sections := count_rows sectionsResult in
  let n_objects := count_rows objectsResult in
  let n_stages := count_rows stagesResult in
  ret {| info_sections := n_sections; info_objects := n_objects;
         info_stages := n_stages;
         info_total := n_sections + n_objects + n_stages |}.

(** [from(t).delete().eq(...)] *)
Definition delete_where (tb : Table) (remove : Tables -> Tables) : M (PgResult unit) :=
  call {| call_table := tb; call_verb := V_delete |} (fun t => (pg_ok tt, remove t)).

Definition dependents_message (total : nat) : jsstring :=
  lit "Нельзя удалить проект: найдены связанные данные (" ++ of_nat total
  ++ lit " записей). Используйте каскадное удаление.".

Definition deleteProject (projectId : Id) (cascade : bool) : M (DbResult CascadeInfo) :=
  exists_ <- validateProjectExists projectId;;
  if negb exists_ then ret (failure (lit "Проект не найден"))
  else
    cascadeInfo <- getCascadeDeleteInfo projectId;;
    if (0 <? info_total cascadeInfo) && negb cascade then
      ret {| success := false;
             message := dependents_message (info_total cascadeInfo);
             result_data := Some cascadeInfo; result_error := None |}
    else
      (if cascade then
         delete_where T_sections (fun t => set_sections
           (filter (fun s => negb (Pos.eqb (section_project_id s) projectId)) (sections t)) t);;;
         delete_where T_objects (fun t => set_objects
           (filter (fun o => negb (Pos.eqb (object_project_id o) projectId)) (objects t)) t);;;
         delete_where T_stages (fun t => set_stages
           (filter (fun s => negb (Pos.eqb (stage_project_id s) projectId)) (stages t)) t);;;
         ret tt
       else ret tt);;;
      r <- delete_where T_projects (fun t => set_projects
             (filter (fun p => negb (Pos.eqb (project_id p) projectId)) (projects t)) t);;
      match error r with
      | Some e => ret (store_failure (lit "Ошибка удаления проекта: ") e)
      | None =>
        ret {| success := true;
               message :=
                 if cascade
                 then lit "Проект и все связанные данные ("
                      ++ of_nat (info_total cascadeInfo) ++ lit " записей) успешно удалены"
                 else lit "Проект успешно удален";
               result_data := Some cascadeInfo; result_error := None |}
      end.

(** *** Objects and sections: create and update *)

(** The [input] object of [createObject]. *)
Module ObjectInput.
Record t := {
  object_name : jsstring;
  object_description : option jsstring;
  object_stage_id : Id;
  object_project_id : Id;
  object_start_date : option jsstring;
  object_end_date : option jsstring;
  object_responsible : option Id
}.
End ObjectInput.

(** The [input] object of [updateObject]: the identifier and the fields
    to change (an absent field is left as it is). *)
Module ObjectUpdate.
Record t := {
  object_id : Id;
  object_name : option jsstring;
  object_description : option jsstring;
  object_stage_id : option Id;
  object_project_id : option Id;
  object_responsible : option Id;
  object_start_date : option jsstring;
  object_end_date : option jsstring
}.
End ObjectUpdate.

Module SectionInput.
Record t := {
  section_name : jsstring;
  section_description : option jsstring;
  section_object_id : Id;
  section_project_id : Id;
  section_type : option jsstring;
  section_start_date : option jsstring;
  section_end_date : option jsstring;
  section_responsible : option Id
}.
End SectionInput.

Module SectionUpdate.
Record t := {
  section_id : Id;
  section_name : option jsstring;
  section_description : option jsstring;
  section_object_id : option Id;
  section_project_id : option Id;
  section_type : option jsstring;
  section_responsible : option Id;
  section_start_date : option jsstring;
  section_end_date : option jsstring
}.
End SectionUpdate.

(** A field of an update: the new value when given, the stored one
    otherwise. *)
Definition updated {A} (new : option A) (old : A) : A :=
  match new with Some v => v | None => old end.

Definition updated_opt {A} (new : option A) (old : option A) : option A :=
  match new with Some v => Some v | None => old end.

Definition insert_object (input : ObjectInput.t) (t : Tables) : Object :=
  {| object_id := fresh_id (map object_id (objects t));
     object_name := ObjectInput.object_name input;
     object_description := ObjectInput.object_description input;
     object_stage_id := ObjectInput.object_stage_id input;
     object_project_id := ObjectInput.object_project_id input;
     object_responsible := ObjectInput.object_responsible input;
     object_start_date := ObjectInput.object_start_date input;
     object_end_date := ObjectInput.object_end_date input |}.

Definition insert_section (input : SectionInput.t) (t : Tables) : Section_ :=
  {| section_id := fresh_id (map section_id (sections t));
     section_name := SectionInput.section_name input;
     section_description := SectionInput.section_description input;
     section_object_id := SectionInput.section_object_id input;
     section_project_id := SectionInput.section_project_id input;
     section_type := SectionInput.section_type input;
     section_responsible := SectionInput.section_responsible input;
     section_start_date := SectionInput.section_start_date input;
     section_end_date := SectionInput.section_end_date input |}.

Definition apply_object_update (u : ObjectUpdate.t) (o : Object) : Object :=
  if Pos.eqb (object_id o) (ObjectUpdate.object_id u) then
    {| object_id := object_id o;
       object_name := updated (ObjectUpdate.object_name u) (object_name o);
       object_description :=
         updated_opt (ObjectUpdate.object_description u) (object_description o);
       object_stage_id := updated (ObjectUpdate.object_stage_id u) (object_stage_id o);
       object_project_id :=
         updated (ObjectUpdate.object_project_id u) (object_project_id o);
       object_responsible :=
         updated_opt (ObjectUpdate.object_responsible u) (object_responsible o);
       object_start_date :=
         updated_opt (ObjectUpdate.object_start_date u) (object_start_date o);
       object_end_date :=
         updated_opt (ObjectUpdate.object_end_date u) (object_end_date o) |}
  else o.

Definition apply_section_update (u : SectionUpdate.t) (s : Section_) : Section_ :=
  if Pos.eqb (section_id s) (SectionUpdate.section_id u) then
    {| section_id := section_id s;
       section_name := updated (SectionUpdate.section_name u) (section_name s);
       section_description :=
         updated_opt (SectionUpdate.section_description u) (section_description s);
       section_object_id :=
         updated (SectionUpdate.section_object_id u) (section_object_id s);
       section_project_id :=
         updated (SectionUpdate.section_project_id u) (section_project_id s);
       section_type := updated_opt (SectionUpdate.section_type u) (section_type s);
       section_responsible :=
         updated_opt (SectionUpdate.section_responsible u) (section_responsible s);
       section_start_date :=
         updated_opt (SectionUpdate.section_start_date u) (section_start_date s);
       section_end_date :=
         updated_opt (SectionUpdate.section_end_date u) (section_end_date s) |}
  else s.

(** The tail of the create and update methods: the store error, or the
    row that came back. *)
Definition written {A} (error_prefix ok_message : jsstring) (r : PgResult A)
  : DbResult A :=
  match error r with
  | Some e => store_failure error_prefix e
  | None => {| success := true; message := ok_message;
               result_data := data r; result_error := None |}
  end.

Definition createObject (input : ObjectInput.t) : M (DbResult Object) :=
  p <- validateProjectExists (ObjectInput.object_project_id input);;
  if negb p then ret (failure (lit "Указанный проект не найден"))
  else
    s <- validateStageExists (ObjectInput.object_stage_id input);;
    if negb s then ret (failure (lit "Указанная стадия не найдена"))
    else
      u <- given_but_missing (ObjectInput.object_responsible input) validateUserExists;;
      if u then ret (failure (lit "Указанный ответственный пользователь не найден"))
      else
        r <- call {| call_table := T_objects; call_verb := V_insert |}
               (fun t => let row := insert_object input t in
                         (pg_ok row, set_objects (objects t ++ [row]) t));;
        ret (written (lit "Ошибка создания объекта: ") (lit "Объект успешно создан") r).

Definition updateObject (input : ObjectUpdate.t) : M (DbResult Object) :=
  e <- validateObjectExists (ObjectUpdate.object_id input);;
  if negb e then ret (failure (lit "Объект не найден"))
  else
    p <- given_but_missing (ObjectUpdate.object_project_id input) validateProjectExists;;
    if p then ret (failure (lit "Указанный проект не найден"))
    else
      s <- given_but_missing (ObjectUpdate.object_stage_id input) validateStageExists;;
      if s then ret (failure (lit "Указанная стадия не найдена"))
      else
        u <- given_but_missing (ObjectUpdate.object_responsible input) validateUserExists;;
        if u then ret (failure (lit "Указанный ответственный пользователь не найден"))
        else
          r <- call {| call_table := T_objects; call_verb := V_update |}
                 (fun t =>
                    let rows := map (apply_object_update input) (objects t) in
                    (single (filter (fun o => Pos.eqb (object_id o)
                                                (ObjectUpdate.object_id input)) rows),
                     set_objects rows t));;
          ret (written (lit "Ошибка обновления объекта: ")
                       (lit "Объект успешно обновлен") r).

Definition createSection (input : SectionInput.t) : M (DbResult Section_) :=
  p <- validateProjectExists (SectionInput.section_project_id input);;
  if negb p then ret (failure (lit "Указанный проект не найден"))
  else
    o <- validateObjectExists (SectionInput.section_object_id input);;
    if negb o then ret (failure (lit "Указанный объект не найден"))
    else
      u <- given_but_missing (SectionInput.section_responsible input) validateUserExists;;
      if u then ret (failure (lit "Указанный ответственный пользователь не найден"))
      else
        r <- call {| call_table := T_sections; call_verb := V_insert |}
               (fun t => let row := insert_section input t in
                         (pg_ok row, set_sections (sections t ++ [row]) t));;
        ret (written (lit "Ошибка создания раздела: ") (lit "Раздел успешно создан") r).

Definition updateSection (input : SectionUpdate.t) : M (DbResult Section_) :=
  e <- validateSectionExists (SectionUpdate.section_id input);;
  if negb e then ret (failure (lit "Раздел не найден"))
  else
    p <- given_but_missing (SectionUpdate.section_project_id input) validateProjectExists;;
    if p then ret (failure (lit "Указанный проект не найден"))
    else
      o <- given_but_missing (SectionUpdate.section_object_id input) validateObjectExists;;
      if o then ret (failure (lit "Указанный объект не найден"))
      else
        u <- given_but_missing (SectionUpdate.section_responsible input) validateUserExists;;
        if u then ret (failure (lit "Указанный ответственный пользователь не найден"))
        else
          r <- call {| call_table := T_sections; call_verb := V_update |}
                 (fun t =>
                    let rows := map (apply_section_update input) (sections t) in
                    (single (filter (fun s => Pos.eqb (section_id s)
                                                (SectionUpdate.section_id input)) rows),
                     set_sections rows t));;
          ret (written (lit "Ошибка обновления раздела: ")
                       (lit "Раздел успешно обновлен") r).

(* ================================================================== *)
(** ** [DatabaseService]: projects, stages and deletion *)
(* ================================================================== *)

(** *** Projects *)

(** [!error && (!data || data.length === 0)] *)
Definition no_error_no_rows {A} (r : PgResult (list A)) : bool :=
  match error r with
  | Some _ => false
  | None =>
    match data r with
    | Some (_ :: _) => false
    | _ => true
    end
  end.

Definition validateProjectNameUnique (name : jsstring) (excludeId : option Id) : M bool :=
  r <- select T_projects (fun t =>
         pg_ok (filter (fun p => str_eqb (project_name p) name
                                 && when_given excludeId
                                      (fun x p => negb (Pos.eqb (project_id p) x)) p)
                       (projects t)));;
  ret (no_error_no_rows r).

(** The [input] object of [createProject]; [project_status] is the status
    the row gets. *)
Module ProjectInput.
Record t := {
  project_name : jsstring;
  project_description : option jsstring;
  project_manager : option Id;
  project_lead_engineer : option Id;
  project_status : jsstring
}.
End ProjectInput.

(** The [input] object of [updateProject]: the identifier and the fields
    to change. *)
Module ProjectUpdate.
Record t := {
  project_id : Id;
  project_name : option jsstring;
  project_description : option jsstring;
  project_manager : option Id;
  project_lead_engineer : option Id;
  project_status : option jsstring
}.
End ProjectUpdate.

Definition insert_project (input : ProjectInput.t) (t : Tables) : Project :=
  {| project_id := fresh_id (map project_id (projects t));
     project_name := ProjectInput.project_name input;
     project_description := ProjectInput.project_description input;
     project_manager := ProjectInput.project_manager input;
     project_lead_engineer := ProjectInput.project_lead_engineer input;
     project_status := ProjectInput.project_status input |}.

Definition apply_project_update (u : ProjectUpdate.t) (p : Project) : Project :=
  if Pos.eqb (project_id p) (ProjectUpdate.project_id u) then
    {| project_id := project_id p;
       project_name := updated (ProjectUpdate.project_name u) (project_name p);
       project_description :=
         updated_opt (ProjectUpdate.project_description u) (project_description p);
       project_manager := updated_opt (ProjectUpdate.project_manager u) (project_manager p);
       project_lead_engineer :=
         updated_opt (ProjectUpdate.project_lead_engineer u) (project_lead_engineer p);
       project_status := updated (ProjectUpdate.project_status u) (project_status p) |}
  else p.

Definition createProject (input : ProjectInput.t) : M (DbResult Project) :=
  u <- validateProjectNameUnique (ProjectInput.project_name input) None;;
  if negb u then ret (failure (lit "Проект с таким названием уже существует"))
  else
    m <- given_but_missing (ProjectInput.project_manager input) validateUserExists;;
    if m then ret (failure (lit "Указанный менеджер проекта не найден"))
    else
      l <- given_but_missing (ProjectInput.project_lead_engineer input) validateUserExists;;
      if l then ret (failure (lit "Указанный главный инженер не найден"))
      else
        r <- call {| call_table := T_projects; call_verb := V_insert |}
               (fun t => let row := insert_project input t in
                         (pg_ok row, set_projects (projects t ++ [row]) t));;
        ret (written (lit "Ошибка создания проекта: ") (lit "Проект успешно создан") r).

(** [input.project_name && !(await this.validateProjectNameUnique(...))]:
    an absent or empty name is not checked. *)
Definition name_given_but_taken (name : option jsstring) (excludeId : Id) : M bool :=
  if truthy name then
    b <- validateProjectNameUnique (String_ name) (Some excludeId);;
    ret (negb b)
  else ret false.

Definition updateProject (input : ProjectUpdate.t) : M (DbResult Project) :=
  e <- validateProjectExists (ProjectUpdate.project_id input);;
  if negb e then ret (failure (lit "Проект не найден"))
  else
    n <- name_given_but_taken (ProjectUpdate.project_name input)
           (ProjectUpdate.project_id input);;
    if n then ret (failure (lit "Проект с таким названием уже существует"))
    else
      m <- given_but_missing (ProjectUpdate.project_manager input) validateUserExists;;
      if m then ret (failure (lit "Указанный менеджер проекта не найден"))
      else
        l <- given_but_missing (ProjectUpdate.project_lead_engineer input)
               validateUserExists;;
        if l then ret (failure (lit "Указанный главный инженер не найден"))
        else
          r <- call {| call_table := T_projects; call_verb := V_update |}
                 (fun t =>
                    let rows := map (apply_project_update input) (projects t) in
                    (single (filter (fun p => Pos.eqb (project_id p)
                                                (ProjectUpdate.project_id input)) rows),
                     set_projects rows t));;
          ret (written (lit "Ошибка обновления проекта: ")
                       (lit "Проект успешно обновлен") r).

(** *** Stages *)

Module StageInput.
Record t := {
  stage_name : jsstring;
  stage_description : option jsstring;
  stage_project_id : Id
}.
End StageInput.

Module StageUpdate.
Record t := {
  stage_id : Id;
  stage_name : option jsstring;
  stage_description : option jsstring;
  stage_project_id : option Id
}.
End StageUpdate.

Definition insert_stage (input : StageInput.t) (t : Tables) : Stage :=
  {| stage_id := fresh_id (map stage_id (stages t));
     stage_name := StageInput.stage_name input;
     stage_description := StageInput.stage_description input;
     stage_project_id := StageInput.stage_project_id input |}.

Definition apply_stage_update (u : StageUpdate.t) (s : Stage) : Stage :=
  if Pos.eqb (stage_id s) (StageUpdate.stage_id u) then
    {| stage_id := stage_id s;
       stage_name := updated (StageUpdate.stage_name u) (stage_name s);
       stage_description :=
         updated_opt (StageUpdate.stage_description u) (stage_description s);
       stage_project_id := updated (StageUpdate.stage_project_id u) (stage_project_id s) |}
  else s.

Definition createStage (input : StageInput.t) : M (DbResult Stage) :=
  p <- validateProjectExists (StageInput.stage_project_id input);;
  if negb p then ret (failure (lit "Указанный проект не найден"))
  else
    r <- call {| call_table := T_stages; call_verb := V_insert |}
           (fun t => let row := insert_stage input t in
                     (pg_ok row, set_stages (stages t ++ [row]) t));;
    ret (written (lit "Ошибка создания этапа: ") (lit "Этап успешно создан") r).

Definition updateStage (input : StageUpdate.t) : M (DbResult Stage) :=
  e <- validateStageExists (StageUpdate.stage_id input);;
  if negb e then ret (failure (lit "Этап не найден"))
  else
    p <- given_but_missing (StageUpdate.stage_project_id input) validateProjectExists;;
    if p then ret (failure (lit "Указанный проект не найден"))
    else
      r <- call {| call_table := T_stages; call_verb := V_update |}
             (fun t =>
                let rows := map (apply_stage_update input) (stages t) in
                (single (filter (fun s => Pos.eqb (stage_id s)
                                            (StageUpdate.stage_id input)) rows),
                 set_stages rows t));;
      ret (written (lit "Ошибка обновления этапа: ") (lit "Этап успешно обновлен") r).

(** *** Deleting a stage, an object, a section *)

Definition hasStageChildren (stageId : Id) : M nat :=
  r <- select T_objects (fun t =>
         pg_ok (filter (fun o => Pos.eqb (object_stage_id o) stageId) (objects t)));;
  ret (count_rows r).

Definition hasObjectChildren (objectId : Id) : M nat :=
  r <- select T_sections (fun t =>
         pg_ok (filter (fun s => Pos.eqb (section_object_id s) objectId) (sections t)));;
  ret (count_rows r).

(** The tail of the delete methods: the store error, or the message of
    success. *)
Definition deleted (error_prefix ok_message : jsstring) (r : PgResult unit)
  : DbResult unit :=
  match error r with
  | Some e => store_failure error_prefix e
  | None => {| success := true; message := ok_message;
               result_data := None; result_error := None |}
  end.

(** [deleteStage], the cascade: the sections of the objects of the stage,
    then these objects; what the deletions answer is not looked at. *)
Definition delete_stage_children (stageId : Id) : M unit :=
  found_objects <- select T_objects (fun t =>
      pg_ok (filter (fun o => Pos.eqb (object_stage_id o) stageId) (objects t)));;
  (match data found_objects with
   | Some ((_ :: _) as rows) =>
     let objectIds := map object_id rows in
     delete_where T_sections (fun t => set_sections
       (filter (fun s => negb (existsb (Pos.eqb (section_object_id s)) objectIds))
               (sections t)) t);;;
     ret tt
   | _ => ret tt
   end);;;
  delete_where T_objects (fun t => set_objects
    (filter (fun o => negb (Pos.eqb (object_stage_id o) stageId)) (objects t)) t);;;
  ret tt.

Definition deleteStage (stageId : Id) (cascade : bool) : M (DbResult unit) :=
  exists_ <- validateStageExists stageId;;
  if negb exists_ then ret (failure (lit "Этап не найден"))
  else
    childrenCount <- hasStageChildren stageId;;
    if (0 <? childrenCount) && negb cascade then
      ret (failure (lit "Нельзя удалить этап: найдены связанные объекты ("
                    ++ of_nat childrenCount
                    ++ lit "). Используйте каскадное удаление."))
    else
      (if cascade then delete_stage_children stageId else ret tt);;;
      r <- delete_where T_stages (fun t => set_stages
             (filter (fun s => negb (Pos.eqb (stage_id s) stageId)) (stages t)) t);;
      ret (deleted (lit "Ошибка удаления этапа: ")
             (if cascade
              then lit "Этап и все связанные объекты (" ++ of_nat childrenCount
                   ++ lit ") успешно удалены"
              else lit "Этап успешно удален") r).

Definition deleteObject (objectId : Id) (cascade : bool) : M (DbResult unit) :=
  exists_ <- validateObjectExists objectId;;
  if negb exists_ then ret (failure (lit "Объект не найден"))
  else
    childrenCount <- hasObjectChildren objectId;;
    if (0 <? childrenCount) && negb cascade then
      ret (failure (lit "Нельзя удалить объект: найдены связанные разделы ("
                    ++ of_nat childrenCount
                    ++ lit "). Используйте каскадное удаление."))
    else
      (if cascade then
         delete_where T_sections (fun t => set_sections
           (filter (fun s => negb (Pos.eqb (section_object_id s) objectId)) (sections t)) t);;;
         ret tt
       else ret tt);;;
      r <- delete_where T_objects (fun t => set_objects
             (filter (fun o => negb (Pos.eqb (object_id o) objectId)) (objects t)) t);;
      ret (deleted (lit "Ошибка удаления объекта: ") (lit "Объект успешно удален") r).

Definition deleteSection (sectionId : Id) : M (DbResult unit) :=
  exists_ <- validateSectionExists sectionId;;
  if negb exists_ then ret (failure (lit "Раздел не найден"))
  else
    r <- delete_where T_sections (fun t => set_sections
           (filter (fun s => negb (Pos.eqb (section_id s) sectionId)) (sections t)) t);;
    ret (deleted (lit "Ошибка удаления раздела: ") (lit "Раздел успешно удален") r).

(** *** Listing objects *)

(** The [filters] object of [listObjects]; [limit] and [offset] are
    non-negative integers or absent. *)
Module ObjectFilters.
Record t := {
  project_id : option Id;
  stage_id : option Id;
  responsible : option Id;
  limit : option nat;
  offset : option nat
}.
End ObjectFilters.

(** Truthiness of a number that may be absent: [0] is falsy. *)
Definition truthy_number (n : option nat) : bool :=
  match n with Some (S _) => true | _ => false end.

(** [n || d] on such numbers. *)
Definition number_or (n : option nat) (d : nat) : nat :=
  match n with Some (S k) => S k | _ => d end.

(** What [.limit(limit)] and [.range(offset, offset + (limit || 10) - 1)]
    leave of the rows, each applied when its number is truthy: the client
    keeps one limit and one offset per query, so a range set after a limit
    replaces it. *)
Definition page {A} (limit offset : option nat) (rows : list A) : list A :=
  if truthy_number offset then
    firstn (number_or limit 10) (skipn (number_or offset 0) rows)
  else if truthy_number limit then firstn (number_or limit 0) rows
  else rows.

(** What the engine says when [data.length] is read on [null]. *)
Definition null_has_no_length : jsstring :=
  lit "TypeError: Cannot read properties of null (reading 'length')".

(** The [eq] filters of [listObjects], each added when its value is
    given. *)
Definition objects_matching (filters : ObjectFilters.t) (t : Tables) : list Object :=
  filter (fun o =>
            when_given (ObjectFilters.project_id filters)
              (fun x o => Pos.eqb (object_project_id o) x) o
            && when_given (ObjectFilters.stage_id filters)
                 (fun x o => Pos.eqb (object_stage_id o) x) o
            && when_given (ObjectFilters.responsible filters)
                 (fun x o => opt_id_eqb (object_responsible o) x) o)
         (objects t).

Definition listObjects (filters : ObjectFilters.t) : M (DbResult (list Object)) :=
  r <- select T_objects (fun t =>
         pg_ok (page (ObjectFilters.limit filters) (ObjectFilters.offset filters)
                     (objects_matching filters t)));;
  ret match error r, data r with
      | Some e, _ => store_failure (lit "Ошибка получения объектов: ") e
      | None, Some rows =>
        {| success := true;
           message := lit "Найдено объектов: " ++ of_nat (List.length rows);
           result_data := Some rows; result_error := None |}
      | None, None =>
        {| success := false;
           message := lit "Неожиданная ошибка: " ++ null_has_no_length;
           result_data := None; result_error := Some null_has_no_length |}
      end.

(* ================================================================== *)
(** ** [DatabaseService]: the cache of [getProject], [getStage], [getUser] *)
(* ================================================================== *)

(** A [Map] from identifiers to cached values, the entries in insertion
    order, each key once. *)
Fixpoint cache_get {A} (m : list (Id * A)) (key : Id) : option A :=
  match m with
  | [] => None
  | (k, v) :: rest => if Pos.eqb k key then Some v else cache_get rest key
  end.

Fixpoint cache_set {A} (m : list (Id * A)) (key : Id) (value : A) : list (Id * A) :=
  match m with
  | [] => [(key, value)]
  | (k, v) :: rest =>
    if Pos.eqb k key then (k, value) :: rest else (k, v) :: cache_set rest key value
  end.

(** [this.cache] and [this.cacheTimestamps], for the three kinds that are
    read and written ([objects] is never used).  A cached project or
    stage is the [data] of the read, which may be [null]. *)
Record Cache := {
  cache_users : list (Id * User);
  cache_projects : list (Id * option Project);
  cache_stages : list (Id * option Stage);
  stamp_users : Z;
  stamp_projects : Z;
  stamp_stages : Z
}.

(** The service as constructed: empty maps, timestamps 0. *)
Definition empty_cache : Cache :=
  {| cache_users := []; cache_projects := []; cache_stages := [];
     stamp_users := 0; stamp_projects := 0; stamp_stages := 0 |}.

(** [this.cacheTimeout]: one hour, in milliseconds. *)
Definition cacheTimeout : Z := 60 * 60 * 1000.

(** [isCacheValid(cacheType)], for the timestamp of that type; [now] is
    what [Date.now()] answers. *)
Definition isCacheValid (now stamp : Z) : bool := (now - stamp <? cacheTimeout)%Z.

(** The service and the store it talks to. *)
Record Service := { world : World; cache : Cache }.

Definition set_cached_project (projectId : Id) (row : option Project) (stamp : Z)
  (c : Cache) : Cache :=
  {| cache_users := cache_users c;
     cache_projects := cache_set (cache_projects c) projectId row;
     cache_stages := cache_stages c;
     stamp_users := stamp_users c; stamp_projects := stamp; stamp_stages := stamp_stages c |}.

Definition set_cached_stage (stageId : Id) (row : option Stage) (stamp : Z)
  (c : Cache) : Cache :=
  {| cache_users := cache_users c;
     cache_projects := cache_projects c;
     cache_stages := cache_set (cache_stages c) stageId row;
     stamp_users := stamp_users c; stamp_projects := stamp_projects c; stamp_stages := stamp |}.

Definition set_cached_user (userId : Id) (row : User) (stamp : Z) (c : Cache) : Cache :=
  {| cache_users := cache_set (cache_users c) userId row;
     cache_projects := cache_projects c;
     cache_stages := cache_stages c;
     stamp_users := stamp; stamp_projects := stamp_projects c;
     stamp_stages := stamp_stages c |}.

(** [getProject(projectId)].  [checked] is what [Date.now()] answers in
    [isCacheValid], [stored] what it answers when the row is cached. *)
Definition getProject (checked stored : Z) (projectId : Id) (s : Service)
  : DbResult Project * Service :=
  let fetch :=
    let (r, w') := select T_projects (fun t =>
                     single (filter (fun p => Pos.eqb (project_id p) projectId)
                                    (projects t))) (world s) in
    match error r with
    | Some e =>
      (store_failure (lit "Проект не найден: ") e, {| world := w'; cache := cache s |})
    | None =>
      ({| success := true; message := lit "Проект найден";
          result_data := data r; result_error := None |},
       {| world := w'; cache := set_cached_project projectId (data r) stored (cache s) |})
    end in
  match cache_get (cache_projects (cache s)) projectId with
  | Some cachedData =>
    if isCacheValid checked (stamp_projects (cache s)) then
      ({| success := true; message := lit "Проект найден (из кэша)";
          result_data := cachedData; result_error := None |}, s)
    else fetch
  | None => fetch
  end.

(** [getStage(stageId)] *)
Definition getStage (checked stored : Z) (stageId : Id) (s : Service)
  : DbResult Stage * Service :=
  let fetch :=
    let (r, w') := select T_stages (fun t =>
                     single (filter (fun x => Pos.eqb (stage_id x) stageId) (stages t)))
                     (world s) in
    match error r with
    | Some e =>
      (store_failure (lit "Стадия не найдена: ") e, {| world := w'; cache := cache s |})
    | None =>
      ({| success := true; message := lit "Стадия найдена";
          result_data := data r; result_error := None |},
       {| world := w'; cache := set_cached_stage stageId (data r) stored (cache s) |})
    end in
  match cache_get (cache_stages (cache s)) stageId with
  | Some cachedData =>
    if isCacheValid checked (stamp_stages (cache s)) then
      ({| success := true; message := lit "Стадия найдена (из кэша)";
          result_data := cachedData; result_error := None |}, s)
    else fetch
  | None => fetch
  end.

(** [getUser(userId)]: the active user, or [null]. *)
Definition getUser (checked stored : Z) (userId : Id) (s : Service)
  : option User * Service :=
  let fetch :=
    let (r, w') := select T_view_users (fun t =>
                     single (filter (fun u => Pos.eqb (user_id u) userId && is_active u)
                                    (view_users t))) (world s) in
    match data_unless_error r with
    | Some result =>
      (Some result,
       {| world := w'; cache := set_cached_user userId result stored (cache s) |})
    | None => (None, {| world := w'; cache := cache s |})
    end in
  match cache_get (cache_users (cache s)) userId with
  | Some cachedData =>
    if isCacheValid checked (stamp_users (cache s)) then (Some cachedData, s)
    else fetch
  | None => fetch
  end.

(* ================================================================== *)
(** ** Tool handlers *)
(* ================================================================== *)

(** What a handler returns: [{ content: [{ type: "text", text }] }]. *)
Inductive ContentBlock := text_block (text : jsstring).

Record ToolResult := { content : list ContentBlock }.

Definition text_result (t : jsstring) : ToolResult := {| content := [text_block t] |}.

(** The argument object of a call: string-valued keys, as the input
    schemas declare them, each at most once.  A key that is absent is
    [undefined]. *)
Definition Args := list (string * jsstring).

Fixpoint arg (args : Args) (key : string) : option jsstring :=
  match args with
  | [] => None
  | (k, v) :: rest => if String.eqb k key then Some v else arg rest key
  end.

(** A handler body: a computation that has either returned (left) or holds
    a value to go on with (right). *)
Definition H (A : Type) : Type := M (ToolResult + A).

Definition proceed {A} (a : A) : H A := ret (inr a).

Definition return_ {A} (r : ToolResult) : H A := ret (inl r).

Definition await {A} (m : M A) : H A := a <- m;; ret (inr a).

Definition and_then {A B} (h : H A) (k : A -> H B) : H B :=
  r <- h;;
  match r with
  | inl t => ret (inl t)
  | inr a => k a
  end.

Definition run (h : H ToolResult) : M ToolResult :=
  r <- h;;
  ret (match r with inl t => t | inr t => t end).

Notation "x <~ h ;; k" := (and_then h (fun x => k))
  (at level 100, h at next level, right associativity) : store_scope.

Definition quoted (s : jsstring) : jsstring := dquote ++ s ++ dquote.

Definition newline : jsstring := [10%N].

(** [if (args.d) { parsed = parseDate(prepare(String(args.d))); if (!parsed)
    return ...; input.d = parsed }] with the message of the date [which]. *)
Definition date_argument (raw : option jsstring) (prepare : jsstring -> jsstring)
  (which : jsstring) : H (option jsstring) :=
  if truthy raw then
    let parsedDate := parseDate (Some (prepare (String_ raw))) in
    if negb (truthy parsedDate) then
      return_ (text_result (lit "Неверный формат даты " ++ which ++ lit ": "
                            ++ quoted (String_ raw)
                            ++ lit ". Используйте формат дд.мм.гггг"))
    else proceed parsedDate
  else proceed None.

Definition inverted_range : ToolResult :=
  text_result (lit "Дата начала не может быть больше даты окончания").

(** How a candidate is shown in the list of several matching users. *)
Definition full_name_only (u : User) : jsstring := full_name u.

Definition full_name_or_names (u : User) : jsstring :=
  match trim (full_name u) with
  | [] => trim (first_name u ++ lit " " ++ last_name u)
  | n => n
  end.

(** [if (args.responsible_name) { users = await searchUsersByQuery(...); ... }]:
    the user's identifier, or an early return when none or several match. *)
Definition resolve_responsible {P : Platform} (raw : option jsstring)
  (display : User -> jsstring) (hint : jsstring) : H (option Id) :=
  if truthy raw then
    users <~ await (searchUsersByQuery (trim (String_ raw)));;
    match users with
    | [] =>
      return_ (text_result (lit "Пользователь с именем " ++ quoted (String_ raw)
                            ++ lit " не найден"))
    | [u] => proceed (Some (user_id u))
    | _ :: _ :: _ =>
      let usersList :=
        join newline
          (map (fun u => lit "• " ++ display u ++ lit " (" ++ email u ++ lit ")") users) in
      return_ (text_result (lit "Найдено несколько пользователей с именем "
                            ++ quoted (String_ raw) ++ lit ":" ++ newline
                            ++ usersList ++ newline ++ hint))
    end
  else proceed None.

(** [args.x ? f(String(args.x)) : undefined] *)
Definition optional_text (raw : option jsstring) (f : jsstring -> jsstring)
  : option jsstring :=
  if truthy raw then Some (f (String_ raw)) else None.

(** *** [create_object] *)

Definition project_not_found (projectName : jsstring) : ToolResult :=
  text_result (lit "Проект с названием " ++ quoted projectName ++ lit " не найден").

Definition handleCreateObject {P : Platform} (args : Args) : M ToolResult :=
  run (
    let objectName := trim (String_ (arg args "object_name")) in
    let stageName := trim (String_ (arg args "stage_name")) in
    let projectName := trim (String_ (arg args "project_name")) in
    projectResult <~ await (validateUniqueProjectByName projectName);;
    project <~
      match projectResult with
      | not_found => return_ (project_not_found projectName)
      | multiple_found =>
        return_ (text_result
          (lit "Найдено несколько проектов с названием " ++ quoted projectName
           ++ lit ". Уточните название или используйте поиск проектов."))
      | found p => proceed p
      end;;
    stageResult <~ await (validateUniqueStageByName stageName (project_id project));;
    stage <~
      match stageResult with
      | not_found =>
        return_ (text_result
          (lit "Стадия с названием " ++ quoted stageName
           ++ lit " не найдена в проекте " ++ quoted (project_name project)))
      | multiple_found =>
        return_ (text_result
          (lit "В проекте " ++ quoted (project_name project)
           ++ lit " найдено несколько стадий с названием " ++ quoted stageName
           ++ lit ". Уточните название."))
      | found s => proceed s
      end;;
    existingObjectCheck <~
      await (validateUniqueObjectByName objectName (Some (stage_id stage)));;
    _ <~
      match existingObjectCheck with
      | not_found => proceed tt
      | multiple_found =>
        return_ (text_result
          (lit "В стадии " ++ quoted (stage_name stage)
           ++ lit " существует несколько объектов с названием " ++ quoted objectName
           ++ lit ". Выберите другое название."))
      | found _ =>
        return_ (text_result
          (lit "В стадии " ++ quoted (stage_name stage)
           ++ lit " уже существует объект с названием " ++ quoted objectName
           ++ lit ". Выберите другое название."))
      end;;
    startDate <~ date_argument (arg args "start_date") (fun s => s) (lit "начала");;
    endDate <~ date_argument (arg args "end_date") (fun s => s) (lit "окончания");;
    _ <~ (if negb (validateDateRange (or_else startDate None) (or_else endDate None))
          then return_ inverted_range else proceed tt);;
    responsible <~
      resolve_responsible (arg args "responsible_name") full_name_or_names
        (lit "Уточните имя или используйте email.");;
    let input :=
      {| ObjectInput.object_name := objectName;
         ObjectInput.object_description :=
           optional_text (arg args "object_description") (fun s => s);
         ObjectInput.object_stage_id := stage_id stage;
         ObjectInput.object_project_id := project_id project;
         ObjectInput.object_start_date := startDate;
         ObjectInput.object_end_date := endDate;
         ObjectInput.object_responsible := responsible |} in
    result <~ await (createObject input);;
    proceed (text_result
      (if success result then
         message result ++ newline ++ lit "Объект " ++ quoted objectName
         ++ lit " успешно создан в стадии " ++ quoted (stage_name stage)
         ++ lit " проекта " ++ quoted (project_name project)
       else message result))).

(** *** [search_objects]: the resolution of the project and stage filters
    (the head of the handler; the listing that follows reads the resolved
    identifiers). *)
Definition handleSearchObjects_scope (args : Args) : H (option Id * option Id) :=
  projectId <~
    (if truthy (arg args "project_name") then
       projectResult <~
         await (validateUniqueProjectByName (trim (String_ (arg args "project_name"))));;
       match projectResult with
       | not_found => return_ (project_not_found (String_ (arg args "project_name")))
       | multiple_found =>
         return_ (text_result
           (lit "Найдено несколько проектов с названием "
            ++ quoted (String_ (arg args "project_name")) ++ lit ". Уточните название."))
       | found p => proceed (Some (project_id p))
       end
     else proceed None);;
  stageId <~
    (if truthy (arg args "stage_name") then
       match projectId with
       | None =>
         return_ (text_result (lit "Для поиска по стадии укажите также название проекта"))
       | Some pid =>
         stageResult <~
           await (validateUniqueStageByName (trim (String_ (arg args "stage_name"))) pid);;
         match stageResult with
         | not_found =>
           return_ (text_result
             (lit "Стадия с названием " ++ quoted (String_ (arg args "stage_name"))
              ++ lit " не найдена в указанном проекте"))
         | multiple_found =>
           return_ (text_result
             (lit "В проекте найдено несколько стадий с названием "
              ++ quoted (String_ (arg args "stage_name")) ++ lit ". Уточните название."))
         | found s => proceed (Some (stage_id s))
         end
       end
     else proceed None);;
  proceed (projectId, stageId).

(** *** [update_object] *)

(** [objects.js], lines 532-547: the new name, checked for uniqueness in
    the stage only when it differs from the current one. *)
Definition object_new_name (args : Args) (currentName : jsstring) (object : Object)
  : H (option jsstring) :=
  if truthy (arg args "new_name") then
    let newName := trim (String_ (arg args "new_name")) in
    if negb (str_eqb newName currentName) then
      uniqueCheck <~
        await (validateUniqueObjectByNameForUpdate newName
                 (object_stage_id object) (object_id object));;
      match uniqueCheck with
      | duplicate =>
        return_ (text_result (lit "Объект с названием " ++ quoted newName
                              ++ lit " уже существует в данной стадии"))
      | unique => proceed (Some newName)
      end
    else proceed None
  else proceed None.

(** [args.description !== undefined] and
    [String(args.description).trim() || undefined]. *)
Definition new_description (raw : option jsstring) : option jsstring :=
  match raw with
  | None => None
  | Some s => or_else (Some (trim s)) None
  end.

(** [objects.js], lines 528-611: the fields to change, or an early
    return. *)
Definition object_update_data {P : Platform} (args : Args) (currentName projectName : jsstring)
  (project : Project) (object : Object) : H ObjectUpdate.t :=
  newName <~ object_new_name args currentName object;;
  newStageId <~
    (if truthy (arg args "new_stage_name") then
       newStage <~ await (findStageByNameExact
                            (trim (String_ (arg args "new_stage_name")))
                            (project_id project));;
       match newStage with
       | None =>
         return_ (text_result
           (lit "Стадия с названием " ++ quoted (String_ (arg args "new_stage_name"))
            ++ lit " не найдена в проекте " ++ quoted projectName))
       | Some s => proceed (Some (stage_id s))
       end
     else proceed None);;
  responsible <~
    resolve_responsible (arg args "responsible_name") full_name_or_names
      (lit "Уточните имя.");;
  startDate <~ date_argument (arg args "start_date") (fun s => s) (lit "начала");;
  endDate <~ date_argument (arg args "end_date") (fun s => s) (lit "окончания");;
  proceed
    {| ObjectUpdate.object_id := object_id object;
       ObjectUpdate.object_name := newName;
       ObjectUpdate.object_description := new_description (arg args "description");
       ObjectUpdate.object_stage_id := newStageId;
       ObjectUpdate.object_project_id := None;
       ObjectUpdate.object_responsible := responsible;
       ObjectUpdate.object_start_date := startDate;
       ObjectUpdate.object_end_date := endDate |}.

(** [if (cond) changes.push(line)] *)
Definition change (cond : bool) (line : jsstring) : list jsstring :=
  if cond then [line] else [].

Definition is_some {A} (v : option A) : bool :=
  match v with Some _ => true | None => false end.

(** [objects.js], lines 612-652: the range check on the effective dates,
    the write and the report of what changed. *)
Definition object_commit {P : Platform} (currentName projectName : jsstring)
  (object : Object) (updateData : ObjectUpdate.t) : H ToolResult :=
  let finalStartDate :=
    or_else (ObjectUpdate.object_start_date updateData) (object_start_date object) in
  let finalEndDate :=
    or_else (ObjectUpdate.object_end_date updateData) (object_end_date object) in
  _ <~ (if negb (validateDateRange (or_else finalStartDate None)
                                    (or_else finalEndDate None))
        then return_ inverted_range else proceed tt);;
  result <~ await (updateObject updateData);;
  if negb (success result) then
    return_ (text_result (lit "Ошибка обновления объекта: " ++ message result))
  else
    let changes :=
      change (truthy (ObjectUpdate.object_name updateData))
        (lit "Название: " ++ quoted currentName ++ lit " → "
         ++ quoted (String_ (ObjectUpdate.object_name updateData)))
      ++ change (is_some (ObjectUpdate.object_description updateData))
           (lit "Описание: обновлено")
      ++ change (is_some (ObjectUpdate.object_stage_id updateData))
           (lit "Стадия: изменена")
      ++ change (is_some (ObjectUpdate.object_responsible updateData))
           (lit "Ответственный: обновлен")
      ++ change (truthy (ObjectUpdate.object_start_date updateData))
           (lit "Дата начала: "
            ++ formatDateForDisplay (ObjectUpdate.object_start_date updateData))
      ++ change (truthy (ObjectUpdate.object_end_date updateData))
           (lit "Дата окончания: "
            ++ formatDateForDisplay (ObjectUpdate.object_end_date updateData)) in
    proceed (text_result
      (lit "Объект " ++ quoted currentName ++ lit " в проекте " ++ quoted projectName
       ++ lit " успешно обновлен" ++ newline ++ newline ++ lit "Изменения:"
       ++ newline ++ join newline changes)).

Definition handleUpdateObject {P : Platform} (args : Args) : M ToolResult :=
  run (
    let currentName := trim (String_ (arg args "current_name")) in
    let projectName := trim (String_ (arg args "project_name")) in
    found_project <~ await (findProjectByNameExact projectName);;
    project <~
      match found_project with
      | None => return_ (project_not_found projectName)
      | Some p => proceed p
      end;;
    stageId <~
      (if truthy (arg args "stage_name") then
         stage <~ await (findStageByNameExact (trim (String_ (arg args "stage_name")))
                           (project_id project));;
         match stage with
         | None =>
           return_ (text_result
             (lit "Стадия с названием " ++ quoted (String_ (arg args "stage_name"))
              ++ lit " не найдена в проекте " ++ quoted projectName))
         | Some s => proceed (Some (stage_id s))
         end
       else proceed None);;
    found_object <~ await (findObjectByNameExact currentName (project_id project) stageId);;
    object <~
      match found_object with
      | None =>
        return_ (text_result
          (lit "Объект с названием " ++ quoted currentName
           ++ lit " не найден в проекте " ++ quoted projectName))
      | Some o => proceed o
      end;;
    updateData <~ object_update_data args currentName projectName project object;;
    object_commit currentName projectName object updateData).

(** *** [create_section] *)

Definition handleCreateSection {P : Platform} (args : Args) : M ToolResult :=
  run (
    let sectionName := trim (String_ (arg args "section_name")) in
    let objectName := trim (String_ (arg args "object_name")) in
    objectResult <~ await (validateUniqueObjectByName objectName None);;
    objectEntity <~
      match objectResult with
      | not_found =>
        return_ (text_result
          (lit "Объект с названием " ++ quoted objectName ++ lit " не найден"))
      | multiple_found =>
        return_ (text_result
          (lit "Найдено несколько объектов с названием " ++ quoted objectName
           ++ lit ". Уточните название или используйте поиск объектов."))
      | found o => proceed o
      end;;
    startDate <~ date_argument (arg args "start_date") trim (lit "начала");;
    endDate <~ date_argument (arg args "end_date") trim (lit "окончания");;
    _ <~ (if negb (validateDateRange (or_else startDate None) (or_else endDate None))
          then return_ inverted_range else proceed tt);;
    responsible <~
      resolve_responsible (arg args "responsible_name") full_name_only
        (lit "Уточните имя или используйте email.");;
    let input :=
      {| SectionInput.section_name := sectionName;
         SectionInput.section_description :=
           optional_text (arg args "section_description") trim;
         SectionInput.section_object_id := object_id objectEntity;
         SectionInput.section_project_id := object_project_id objectEntity;
         SectionInput.section_type := optional_text (arg args "section_type") trim;
         SectionInput.section_start_date := startDate;
         SectionInput.section_end_date := endDate;
         SectionInput.section_responsible := responsible |} in
    result <~ await (createSection input);;
    proceed (text_result
      (if success result then
         message result ++ newline ++ lit "Раздел " ++ quoted sectionName
         ++ lit " успешно создан в объекте " ++ quoted (object_name objectEntity)
       else message result))).

(** *** [update_section] *)

(** Section tools, lines 1236-1251: the new name, checked for uniqueness
    in the object only when it differs from the current one. *)
Definition section_new_name (args : Args) (currentName : jsstring) (section : Section_)
  : H (option jsstring) :=
  if truthy (arg args "new_name") then
    let newName := trim (String_ (arg args "new_name")) in
    if negb (str_eqb newName currentName) then
      uniqueCheck <~
        await (validateUniqueSectionByNameForUpdate newName
                 (section_object_id section) (section_id section));;
      match uniqueCheck with
      | duplicate =>
        return_ (text_result (lit "Раздел с названием " ++ quoted newName
                              ++ lit " уже существует в данном объекте"))
      | unique => proceed (Some newName)
      end
    else proceed None
  else proceed None.

(** Section tools, lines 1232-1306: the fields to change, or an early
    return. *)
Definition section_update_data {P : Platform} (args : Args) (currentName : jsstring)
  (section : Section_) : H SectionUpdate.t :=
  newName <~ section_new_name args currentName section;;
  responsible <~
    resolve_responsible (arg args "responsible_name") full_name_or_names
      (lit "Уточните имя.");;
  startDate <~ date_argument (arg args "start_date") (fun s => s) (lit "начала");;
  endDate <~ date_argument (arg args "end_date") (fun s => s) (lit "окончания");;
  proceed
    {| SectionUpdate.section_id := section_id section;
       SectionUpdate.section_name := newName;
       SectionUpdate.section_description := new_description (arg args "description");
       SectionUpdate.section_object_id := None;
       SectionUpdate.section_project_id := None;
       SectionUpdate.section_type := new_description (arg args "type");
       SectionUpdate.section_responsible := responsible;
       SectionUpdate.section_start_date := startDate;
       SectionUpdate.section_end_date := endDate |}.

(** Section tools, lines 1307-1347: the range check on the effective
    dates, the write and the report of what changed. *)
Definition section_commit {P : Platform} (currentName projectName : jsstring)
  (section : Section_) (updateData : SectionUpdate.t) : H ToolResult :=
  let finalStartDate :=
    or_else (SectionUpdate.section_start_date updateData) (section_start_date section) in
  let finalEndDate :=
    or_else (SectionUpdate.section_end_date updateData) (section_end_date section) in
  _ <~ (if negb (validateDateRange (or_else finalStartDate None)
                                    (or_else finalEndDate None))
        then return_ inverted_range else proceed tt);;
  result <~ await (updateSection updateData);;
  if negb (success result) then
    return_ (text_result (lit "Ошибка обновления раздела: " ++ message result))
  else
    let changes :=
      change (truthy (SectionUpdate.section_name updateData))
        (lit "Название: " ++ quoted currentName ++ lit " → "
         ++ quoted (String_ (SectionUpdate.section_name updateData)))
      ++ change (is_some (SectionUpdate.section_description updateData))
           (lit "Описание: обновлено")
      ++ change (is_some (SectionUpdate.section_responsible updateData))
           (lit "Ответственный: обновлен")
      ++ change (is_some (SectionUpdate.section_type updateData))
           (lit "Тип: " ++ match or_else (SectionUpdate.section_type updateData) None with
                           | Some t => t
                           | None => lit "не указан"
                           end)
      ++ change (truthy (SectionUpdate.section_start_date updateData))
           (lit "Дата начала: "
            ++ formatDateForDisplay (SectionUpdate.section_start_date updateData))
      ++ change (truthy (SectionUpdate.section_end_date updateData))
           (lit "Дата окончания: "
            ++ formatDateForDisplay (SectionUpdate.section_end_date updateData)) in
    proceed (text_result
      (lit "Раздел " ++ quoted currentName ++ lit " в проекте " ++ quoted projectName
       ++ lit " успешно обновлен" ++ newline ++ newline ++ lit "Изменения:"
       ++ newline ++ join newline changes)).

Definition handleUpdateSection {P : Platform} (args : Args) : M ToolResult :=
  run (
    let currentName := trim (String_ (arg args "current_name")) in
    let projectName := trim (String_ (arg args "project_name")) in
    found_project <~ await (findProjectByNameExact projectName);;
    project <~
      match found_project with
      | None => return_ (project_not_found projectName)
      | Some p => proceed p
      end;;
    objectId <~
      (if truthy (arg args "object_name") then
         object <~ await (findObjectByNameExact (trim (String_ (arg args "object_name")))
                            (project_id project) None);;
         match object with
         | None =>
           return_ (text_result
             (lit "Объект с названием " ++ quoted (String_ (arg args "object_name"))
              ++ lit " не найден в проекте " ++ quoted projectName))
         | Some o => proceed (Some (object_id o))
         end
       else proceed None);;
    found_section <~
      await (findSectionByNameExact currentName (project_id project) objectId);;
    section <~
      match found_section with
      | None =>
        return_ (text_result
          (lit "Раздел с названием " ++ quoted currentName
           ++ lit " не найден в проекте " ++ quoted projectName))
      | Some s => proceed s
      end;;
    updateData <~ section_update_data args currentName section;;
    section_commit currentName projectName section updateData).

(* ================================================================== *)
(** ** Rate limiting of the SSE endpoint ([index.js]) *)
(* ================================================================== *)

(** The module-level [Map] from session identifier to the times of its
    recent requests: the entries in insertion order, each key once. *)
Definition RateLimiter := list (jsstring * list Z).

(** [rateLimiter.get(sessionId)] *)
Fixpoint limiter_get (m : RateLimiter) (sessionId : jsstring) : option (list Z) :=
  match m with
  | [] => None
  | (k, v) :: rest => if str_eqb k sessionId then Some v else limiter_get rest sessionId
  end.

(** [rateLimiter.set(sessionId, times)] *)
Fixpoint limiter_set (m : RateLimiter) (sessionId : jsstring) (times : list Z)
  : RateLimiter :=
  match m with
  | [] => [(sessionId, times)]
  | (k, v) :: rest =>
    if str_eqb k sessionId then (k, times) :: rest
    else (k, v) :: limiter_set rest sessionId times
  end.

(** [checkRateLimit(sessionId)], where [now] is what [Date.now()] answers
    when the function runs. *)
Definition checkRateLimit (now : Z) (sessionId : jsstring) (rateLimiter : RateLimiter)
  : bool * RateLimiter :=
  let requests :=
    match limiter_get rateLimiter sessionId with
    | Some times => times
    | None => []
    end in
  let recent := filter (fun time => (now - time <? 60000)%Z) requests in
  if 1000 <=? List.length recent then (false, rateLimiter)
  else (true, limiter_set rateLimiter sessionId (recent ++ [now])).

(** A request as the limiter sees it: the time it arrives at and its
    session. *)
Definition Arrival := (Z * jsstring)%type.

(** The limiter and the requests it has let through, after one more
    request. *)
Definition serve (st : RateLimiter * list Arrival) (c : Arrival)
  : RateLimiter * list Arrival :=
  let (ok, rl) := checkRateLimit (fst c) (snd c) (fst st) in
  (rl, if ok then snd st ++ [c] else snd st).

(** The requests let through, out of [calls] served in order by a new
    limiter. *)
Definition let_through (calls : list Arrival) : list Arrival :=
  snd (fold_left serve calls ([], [])).

(* ================================================================== *)
(** ** Notions the properties are stated with *)
(* ================================================================== *)

(** The digits of [n], decided: [s] is made of decimal digits and
    [parseInt] reads [n] from it. *)
Definition reads_as (s : jsstring) (n : nat) : bool :=
  forallb is_digit s
  && match parseInt10 s with
     | Some v => (v =? Z.of_nat n)%Z
     | None => false
     end.

(** A string with no whitespace at its start. *)
Definition clean_start (s : jsstring) : Prop :=
  match s with
  | [] => True
  | c :: _ => is_whitespace c = false
  end.

(** A LIKE pattern in which every wildcard or escape character stands
    behind an escaping backslash. *)
Fixpoint well_escaped (s : jsstring) : bool :=
  match s with
  | [] => true
  | c :: s' =>
    if (c =? 92)%N then
      match s' with
      | d :: s'' => is_like_meta d && well_escaped s''
      | [] => false
      end
    else negb (is_like_meta c) && well_escaped s'
  end.

(** The text an escaped pattern stands for. *)
Fixpoint unescape (s : jsstring) : jsstring :=
  match s with
  | [] => []
  | c :: s' =>
    if (c =? 92)%N then
      match s' with
      | d :: s'' => d :: unescape s''
      | [] => [c]
      end
    else c :: unescape s'
  end.

(** The descendants of a project, following the parent references: its
    stages, the objects of those stages, the sections of those objects. *)
Definition stages_of (t : Tables) (projectId : Id) : list Stage :=
  filter (fun s => Pos.eqb (stage_project_id s) projectId) (stages t).

Definition objects_of (t : Tables) (projectId : Id) : list Object :=
  filter (fun o => existsb (fun s => Pos.eqb (stage_id s) (object_stage_id o))
                           (stages_of t projectId))
         (objects t).

Definition sections_of (t : Tables) (projectId : Id) : list Section_ :=
  filter (fun x => existsb (fun o => Pos.eqb (object_id o) (section_object_id x))
                           (objects_of t projectId))
         (sections t).

Definition descendant_count (t : Tables) (projectId : Id) : nat :=
  List.length (sections_of t projectId) + List.length (objects_of t projectId)
  + List.length (stages_of t projectId).

(** The data model's denormalised project reference: every object has a
    stage and names the project of its stage, every section has an object
    and names the project of its object. *)
Definition project_references_agree (t : Tables) : bool :=
  forallb (fun o =>
             existsb (fun s => Pos.eqb (stage_id s) (object_stage_id o)) (stages t)
             && forallb (fun s => implb (Pos.eqb (stage_id s) (object_stage_id o))
                                        (Pos.eqb (stage_project_id s) (object_project_id o)))
                        (stages t))
          (objects t)
  && forallb (fun x =>
                existsb (fun o => Pos.eqb (object_id o) (section_object_id x)) (objects t)
                && forallb (fun o => implb (Pos.eqb (object_id o) (section_object_id x))
                                           (Pos.eqb (object_project_id o)
                                                    (section_project_id x)))
                           (objects t))
             (sections t).

(** The rows of [projects] with a given identifier. *)
Definition projects_with_id (t : Tables) (projectId : Id) : list Project :=
  filter (fun p => Pos.eqb (project_id p) projectId) (projects t).

(** The request [args] without the key [key]. *)
Definition without (key : string) (args : Args) : Args :=
  filter (fun kv => negb (String.eqb (fst kv) key)) args.

(** A computation that leaves the tables as they are, whatever it
    answers. *)
Definition reads_only {A} (m : M A) : Prop :=
  forall w, tables (snd (m w)) = tables w.

(** The date a request gives, once parsed: absent when the argument is
    absent or is not a date. *)
Definition date_given (raw : option jsstring) : option jsstring :=
  if truthy raw then parseDate (Some (String_ raw)) else None.

(** A date argument is fine when it is absent or parses. *)
Definition date_fine (raw : option jsstring) : bool :=
  negb (truthy raw) || truthy (date_given raw).

(** The message for a project name that several projects carry. *)
Definition several_projects (projectName : jsstring) : ToolResult :=
  text_result (lit "Найдено несколько проектов с названием " ++ quoted projectName
               ++ lit ". Уточните название или используйте поиск проектов.").

(** The message for a stage name that no stage of the project carries. *)
Definition stage_not_found (stageName : jsstring) (project : Project) : ToolResult :=
  text_result (lit "Стадия с названием " ++ quoted stageName
               ++ lit " не найдена в проекте " ++ quoted (project_name project)).

(** The message for an object name that is taken in the stage; [several]
    tells whether more than one object carries it. *)
Definition object_name_taken (objectName : jsstring) (stage : Stage) (several : bool)
  : ToolResult :=
  text_result (lit "В стадии " ++ quoted (stage_name stage)
               ++ (if several
                   then lit " существует несколько объектов с названием "
                   else lit " уже существует объект с названием ")
               ++ quoted objectName ++ lit ". Выберите другое название.").

(** The message for a responsible person that no user matches. *)
Definition user_not_found (raw : option jsstring) : ToolResult :=
  text_result (lit "Пользователь с именем " ++ quoted (String_ raw) ++ lit " не найден").

(** The rows a name refers to. *)
Definition projects_named (t : Tables) (name : jsstring) : list Project :=
  filter (fun p => str_eqb (project_name p) name) (projects t).

Definition stages_named (t : Tables) (name : jsstring) (projectId : Id) : list Stage :=
  filter (fun s => str_eqb (stage_name s) name && Pos.eqb (stage_project_id s) projectId)
         (stages t).

Definition objects_named (t : Tables) (name : jsstring) : list Object :=
  filter (fun o => str_eqb (object_name o) name) (objects t).

Definition objects_named_in (t : Tables) (name : jsstring) (stageId : Id) : list Object :=
  filter (fun o => str_eqb (object_name o) name && Pos.eqb (object_stage_id o) stageId)
         (objects t).

(** Times that never go back, from [last] on. *)
Fixpoint ascending (last : Z) (times : list Z) : Prop :=
  match times with
  | [] => True
  | t :: rest => (last <= t)%Z /\ ascending t rest
  end.

(** The requests of session [s] among [calls] that fall in the minute
    ending at [T]. *)
Definition in_minute (s : jsstring) (T : Z) (calls : list Arrival) : list Arrival :=
  filter (fun c => str_eqb (snd c) s && (T - fst c <? 60000)%Z && (fst c <=? T)%Z) calls.

(** What the limiter holds for a session. *)
Definition remembered (rl : RateLimiter) (s : jsstring) : list Z :=
  match limiter_get rl s with Some times => times | None => [] end.

(** The times at which the requests of session [s] among [calls] came. *)
Definition times_of (s : jsstring) (calls : list Arrival) : list Z :=
  map fst (filter (fun c => str_eqb (snd c) s) calls).

(** A time that still counts at [now]. *)
Definition still_counts (now : Z) (time : Z) : bool := (now - time <? 60000)%Z.

(** What holds between the limiter, the requests let through so far and
    the time of the latest request. *)
Record limiter_inv (st : RateLimiter * list Arrival) (last : Z) : Prop := {
  inv_remembered : forall s now, (last <= now)%Z ->
    filter (still_counts now) (remembered (fst st) s)
    = filter (still_counts now) (times_of s (snd st));
  inv_past : forall c, In c (snd st) -> (fst c <= last)%Z;
  inv_bound : forall s T, List.length (in_minute s T (snd st)) <= 1000
}.

(** Requests of one session [s] that all come within the minute that
    starts at [first]. *)
Definition burst_of (s : jsstring) (first : Z) (calls : list Arrival) : Prop :=
  forall c, In c calls -> snd c = s /\ (first <= fst c < first + 60000)%Z.

(** The decimal digits. *)
Definition digits : list N := [48; 49; 50; 51; 52; 53; 54; 55; 56; 57]%N.

(** Two digits that [parseInt] reads as a number from [lo] to [hi] are
    that number written with two digits; and the same for four. *)
Definition written_back_2 (lo hi : Z) (d1 d2 : N) : bool :=
  match parseInt10 [d1; d2] with
  | Some v =>
    if ((lo <=? v) && (v <=? hi))%Z then str_eqb (two_digits (Z.to_nat v)) [d1; d2]
    else true
  | None => false
  end.

Definition written_back_4 (lo hi : Z) (d1 d2 d3 d4 : N) : bool :=
  match parseInt10 [d1; d2; d3; d4] with
  | Some v =>
    if ((lo <=? v) && (v <=? hi))%Z then str_eqb (four_digits (Z.to_nat v)) [d1; d2; d3; d4]
    else true
  | None => false
  end.

(** No two projects carry the same name. *)
Definition project_names_distinct (t : Tables) : Prop :=
  NoDup (map project_name (projects t)).

(** The hierarchy holds together: the project references agree, and every
    stage has its project. *)
Definition hierarchy_intact (t : Tables) : bool :=
  project_references_agree t
  && forallb (fun s => existsb (fun p => Pos.eqb (project_id p) (stage_project_id s))
                               (projects t))
             (stages t).

(** The store without a project and the rows that name it. *)
Definition without_project (projectId : Id) (t : Tables) : Tables :=
  {| projects := filter (fun p => negb (Pos.eqb (project_id p) projectId)) (projects t);
     stages := filter (fun s => negb (Pos.eqb (stage_project_id s) projectId)) (stages t);
     objects := filter (fun o => negb (Pos.eqb (object_project_id o) projectId)) (objects t);
     sections :=
       filter (fun s => negb (Pos.eqb (section_project_id s) projectId)) (sections t);
     profiles := profiles t;
     view_users := view_users t |}.

(** The objects of a stage, by their reference to it. *)
Definition objects_in_stage (t : Tables) (stageId : Id) : list Object :=
  filter (fun o => Pos.eqb (object_stage_id o) stageId) (objects t).

(** The sections of an object, by their reference to it. *)
Definition sections_in_object (t : Tables) (objectId : Id) : list Section_ :=
  filter (fun s => Pos.eqb (section_object_id s) objectId) (sections t).

(** The store without a stage, its objects and their sections. *)
Definition without_stage (stageId : Id) (t : Tables) : Tables :=
  {| projects := projects t;
     stages := filter (fun s => negb (Pos.eqb (stage_id s) stageId)) (stages t);
     objects := filter (fun o => negb (Pos.eqb (object_stage_id o) stageId)) (objects t);
     sections :=
       filter (fun s => negb (existsb (Pos.eqb (section_object_id s))
                                      (map object_id (objects_in_stage t stageId))))
              (sections t);
     profiles := profiles t;
     view_users := view_users t |}.

(** The store without an object and its sections. *)
Definition without_object (objectId : Id) (t : Tables) : Tables :=
  {| projects := projects t;
     stages := stages t;
     objects := filter (fun o => negb (Pos.eqb (object_id o) objectId)) (objects t);
     sections :=
       filter (fun s => negb (Pos.eqb (section_object_id s) objectId)) (sections t);
     profiles := profiles t;
     view_users := view_users t |}.

(** The number of rows that name a project. *)
Definition rows_naming (t : Tables) (projectId : Id) : nat :=
  List.length (filter (fun s => Pos.eqb (section_project_id s) projectId) (sections t))
  + List.length (filter (fun o => Pos.eqb (object_project_id o) projectId) (objects t))
  + List.length (stages_of t projectId).

(** A store the tools can work on: stage and object identifiers are
    unique and the hierarchy is intact. *)
Definition store_consistent (t : Tables) : Prop :=
  NoDup (map stage_id (stages t))
  /\ NoDup (map object_id (objects t))
  /\ hierarchy_intact t = true.

(** No two objects of one stage carry the same name. *)
Definition object_names_distinct_in_stages (t : Tables) : Prop :=
  NoDup (map (fun o => (object_stage_id o, object_name o)) (objects t)).

(** The object [create_object] inserts for a request, in the stage and
    the project it resolved, when the request gives no dates and no
    responsible person. *)
Definition requested_object (args : Args) (project : Project) (stage : Stage)
  : ObjectInput.t :=
  {| ObjectInput.object_name := trim (String_ (arg args "object_name"));
     ObjectInput.object_description :=
       optional_text (arg args "object_description") (fun s => s);
     ObjectInput.object_stage_id := stage_id stage;
     ObjectInput.object_project_id := project_id project;
     ObjectInput.object_start_date := None;
     ObjectInput.object_end_date := None;
     ObjectInput.object_responsible := None |}.

(** What [create_object] answers when the object is created. *)
Definition object_created (objectName : jsstring) (project : Project) (stage : Stage)
  : ToolResult :=
  text_result (lit "Объект успешно создан" ++ newline ++ lit "Объект " ++ quoted objectName
               ++ lit " успешно создан в стадии " ++ quoted (stage_name stage)
               ++ lit " проекта " ++ quoted (project_name project)).

(** The update [update_object] writes for a request that only moves the
    object to another stage (and may change its description). *)
Definition move_to_stage (args : Args) (object : Object) (target : Stage)
  : ObjectUpdate.t :=
  {| ObjectUpdate.object_id := object_id object;
     ObjectUpdate.object_name := None;
     ObjectUpdate.object_description := new_description (arg args "description");
     ObjectUpdate.object_stage_id := Some (stage_id target);
     ObjectUpdate.object_project_id := None;
     ObjectUpdate.object_responsible := None;
     ObjectUpdate.object_start_date := None;
     ObjectUpdate.object_end_date := None |}.

(** What [update_object] answers when the update went through. *)
Definition object_updated (currentName projectName : jsstring) (changes : list jsstring)
  : ToolResult :=
  text_result (lit "Объект " ++ quoted currentName ++ lit " в проекте " ++ quoted projectName
               ++ lit " успешно обновлен" ++ newline ++ newline ++ lit "Изменения:"
               ++ newline ++ join newline changes).

(** The service on a store, with another store or another cache. *)
Definition on_store (w : World) (s : Service) : Service :=
  {| world := w; cache := cache s |}.

(** What a lookup answers from the cache. *)
Definition project_from_cache (row : option Project) : DbResult Project :=
  {| success := true; message := lit "Проект найден (из кэша)";
     result_data := row; result_error := None |}.

Definition stage_from_cache (row : option Stage) : DbResult Stage :=
  {| success := true; message := lit "Стадия найдена (из кэша)";
     result_data := row; result_error := None |}.

(** The filters of the [k]-th page of [size] objects: limit [size],
    offset [k * size]. *)
Definition nth_page (filters : ObjectFilters.t) (size k : nat) : ObjectFilters.t :=
  {| ObjectFilters.project_id := ObjectFilters.project_id filters;
     ObjectFilters.stage_id := ObjectFilters.stage_id filters;
     ObjectFilters.responsible := ObjectFilters.responsible filters;
     ObjectFilters.limit := Some size;
     ObjectFilters.offset := Some (k * size) |}.

(** The rows of the first [n] pages, one after the other. *)
Definition pages_read (filters : ObjectFilters.t) (size n : nat) (w : World)
  : list Object :=
  flat_map (fun k => match result_data (fst (listObjects (nth_page filters size k) w)) with
                     | Some rows => rows
                     | None => []
                     end)
           (seq 0 n).

(** A computation that, on a store that answers every call, leaves a
    store that answers every call. *)
Definition quiet {A} (m : M A) : Prop :=
  forall w, faults w = [] -> faults (snd (m w)) = [].

(** No two sections of one object carry the same name. *)
Definition section_names_distinct_in_objects (t : Tables) : Prop :=
  NoDup (map (fun s => (section_object_id s, section_name s)) (sections t)).

(* ================================================================== *)
(** ** Example stores and requests *)
(* ================================================================== *)

(** A platform for the examples: every row satisfies an [or] filter, and a
    [yyyy-mm-dd] string has a time value that grows with the date. *)
Definition example_date_value (s : jsstring) : option Z :=
  match split 45 s with
  | [y; m; d] =>
    match parseInt10 y, parseInt10 m, parseInt10 d with
    | Some y', Some m', Some d' => Some (372 * y' + 31 * m' + d')%Z
    | _, _, _ => None
    end
  | _ => None
  end.

Definition example_platform : Platform :=
  {| or_filter := fun _ _ => true; Date_value := example_date_value |}.

Definition tower_a : Project :=
  {| project_id := 1%positive; project_name := lit "Tower A"; project_description := None;
     project_manager := None; project_lead_engineer := None;
     project_status := lit "active" |}.

Definition foundation : Stage :=
  {| stage_id := 1%positive; stage_name := lit "Foundation"; stage_description := None;
     stage_project_id := 1%positive |}.

Definition framing : Stage :=
  {| stage_id := 2%positive; stage_name := lit "Framing"; stage_description := None;
     stage_project_id := 1%positive |}.

Definition block_1 : Object :=
  {| object_id := 1%positive; object_name := lit "Block 1"; object_description := None;
     object_stage_id := 1%positive; object_project_id := 1%positive; object_responsible := None;
     object_start_date := Some (lit "2024-03-01");
     object_end_date := Some (lit "2024-06-30") |}.

(** A second object of the same name, in the other stage. *)
Definition block_1_framing : Object :=
  {| object_id := 2%positive; object_name := lit "Block 1"; object_description := None;
     object_stage_id := 2%positive; object_project_id := 1%positive; object_responsible := None;
     object_start_date := None; object_end_date := None |}.

Definition rebar_plan : Section_ :=
  {| section_id := 1%positive; section_name := lit "Rebar Plan"; section_description := None;
     section_object_id := 1%positive; section_project_id := 1%positive; section_type := None;
     section_responsible := None;
     section_start_date := Some (lit "2024-03-01");
     section_end_date := Some (lit "2024-06-30") |}.

Definition world_of (t : Tables) : World :=
  {| tables := t; faults := []; trace := [] |}.

(** Tower A / Foundation / Block 1, with no section yet. *)
Definition site_tables : Tables :=
  {| projects := [tower_a]; stages := [foundation; framing]; objects := [block_1];
     sections := []; profiles := []; view_users := [] |}.

(** The same with the section Rebar Plan in Block 1. *)
Definition planned_tables : Tables := set_sections [rebar_plan] site_tables.

(** The same with a Block 1 in each of the two stages. *)
Definition twin_tables : Tables := set_objects [block_1; block_1_framing] planned_tables.

(** Stores in which two, and three, projects carry the name Tower A. *)
Definition tower_a_again : Project :=
  {| project_id := 2%positive; project_name := lit "Tower A";
     project_description := Some (lit "North site");
     project_manager := Some 7%positive; project_lead_engineer := None;
     project_status := lit "paused" |}.

Definition tower_a_third : Project :=
  {| project_id := 3%positive; project_name := lit "Tower A";
     project_description := Some (lit "South site");
     project_manager := None; project_lead_engineer := Some 9%positive;
     project_status := lit "archive" |}.

Definition two_towers : Tables := set_projects [tower_a; tower_a_again] site_tables.

Definition three_towers : Tables :=
  set_projects [tower_a; tower_a_again; tower_a_third] site_tables.

Definition create_block_2 : Args :=
  [("object_name"%string, lit "Block 2"); ("stage_name"%string, lit "Foundation");
   ("project_name"%string, lit "Tower A")].

Definition create_rebar_plan : Args :=
  [("section_name"%string, lit "Rebar Plan"); ("object_name"%string, lit "Block 1")].

(** A request that names a project and a stage which do not exist. *)
Definition create_in_nowhere : Args :=
  [("object_name"%string, lit "Block 9"); ("stage_name"%string, lit "Nowhere");
   ("project_name"%string, lit "Tower Z")].

(** A store whose next call fails. *)
Definition outage (t : Tables) : World :=
  {| tables := t; faults := [Some (lit "connection lost")]; trace := [] |}.

(** Renaming Block 1 to its own name, with blanks around it. *)
Definition rename_block_1 : Args :=
  [("current_name"%string, lit "Block 1"); ("project_name"%string, lit "Tower A");
   ("new_name"%string, lit " Block 1 ")].

(** Moving the start of Block 1 behind its stored end, 30.06.2024. *)
Definition postpone_block_1 : Args :=
  [("current_name"%string, lit "Block 1"); ("project_name"%string, lit "Tower A");
   ("start_date"%string, lit "01.07.2024")].

Definition postponed_start : ObjectUpdate.t :=
  {| ObjectUpdate.object_id := 1%positive;
     ObjectUpdate.object_name := None;
     ObjectUpdate.object_description := None;
     ObjectUpdate.object_stage_id := None;
     ObjectUpdate.object_project_id := None;
     ObjectUpdate.object_responsible := None;
     ObjectUpdate.object_start_date := Some (lit "2024-07-01");
     ObjectUpdate.object_end_date := None |}.

(** A query with a tab between two words, and one of 51 letters. *)
Definition tab_query : jsstring := [97; 9; 98]%N.

Definition long_query : jsstring := repeat 97%N 51.

(** A thousand and one requests of one session in one second. *)
Definition busy_second : list Arrival :=
  map (fun i => (Z.of_nat i, [115; 49]%N)) (seq 0 1001).

(** Three requests of two sessions. *)
Definition three_arrivals : list Arrival :=
  [(0%Z, [115; 49]%N); (10%Z, [115; 49]%N); (20%Z, [115; 50]%N)].

(** A query of two words, the first with an underscore: [a_b c]. *)
Definition underscore_query : jsstring := [97; 95; 98; 32; 99]%N.

(** A new project, and a new name for Tower A. *)
Definition tower_b_input : ProjectInput.t :=
  {| ProjectInput.project_name := lit "Tower B";
     ProjectInput.project_description := None;
     ProjectInput.project_manager := None;
     ProjectInput.project_lead_engineer := None;
     ProjectInput.project_status := lit "active" |}.

Definition rename_tower_a : ProjectUpdate.t :=
  {| ProjectUpdate.project_id := 1%positive;
     ProjectUpdate.project_name := Some (lit "Tower C");
     ProjectUpdate.project_description := None;
     ProjectUpdate.project_manager := None;
     ProjectUpdate.project_lead_engineer := None;
     ProjectUpdate.project_status := None |}.

(** A store in which the three counting reads of a project deletion fail
    and every other call answers. *)
Definition blind_count (t : Tables) : World :=
  {| tables := t;
     faults := [None; Some (lit "timeout"); Some (lit "timeout"); Some (lit "timeout")];
     trace := [] |}.

(** A store in which the deletion of the sections fails, in a cascade that
    otherwise goes through. *)
Definition sections_locked (t : Tables) : World :=
  {| tables := t;
     faults := [None; None; None; None; Some (lit "locked")];
     trace := [] |}.

(** A store in which the second call fails and every other call answers. *)
Definition second_call_fails (t : Tables) : World :=
  {| tables := t; faults := [None; Some (lit "timeout")]; trace := [] |}.

(** A second Block 1 for the stage Foundation. *)
Definition create_block_1_again : Args :=
  [("object_name"%string, lit "Block 1"); ("stage_name"%string, lit "Foundation");
   ("project_name"%string, lit "Tower A")].

(** A store in which the third call fails and every other call answers. *)
Definition third_call_fails (t : Tables) : World :=
  {| tables := t; faults := [None; None; Some (lit "timeout")]; trace := [] |}.

(** Moving the Block 1 of Foundation to Framing, which has a Block 1. *)
Definition move_block_1 : Args :=
  [("current_name"%string, lit "Block 1"); ("project_name"%string, lit "Tower A");
   ("stage_name"%string, lit "Foundation"); ("new_stage_name"%string, lit "Framing")].

(** Block 1 of Foundation, once moved to Framing. *)
Definition block_1_moved : Object :=
  {| object_id := 1%positive; object_name := lit "Block 1"; object_description := None;
     object_stage_id := 2%positive; object_project_id := 1%positive;
     object_responsible := None;
     object_start_date := Some (lit "2024-03-01");
     object_end_date := Some (lit "2024-06-30") |}.

(** A new service on a store. *)
Definition fresh_service (t : Tables) : Service :=
  {| world := world_of t; cache := empty_cache |}.

(** A second project, for the stores of the examples. *)
Definition tower_b : Project :=
  {| project_id := 2%positive; project_name := lit "Tower B"; project_description := None;
     project_manager := None; project_lead_engineer := None;
     project_status := lit "active" |}.

Definition two_projects : Tables := set_projects [tower_a; tower_b] site_tables.

(** The objects of the stage Foundation, all of them. *)
Definition in_foundation : ObjectFilters.t :=
  {| ObjectFilters.project_id := None; ObjectFilters.stage_id := Some 1%positive;
     ObjectFilters.responsible := None;
     ObjectFilters.limit := None; ObjectFilters.offset := None |}.

(** Renaming Rebar Plan. *)
Definition rename_rebar_plan : Args :=
  [("current_name"%string, lit "Rebar Plan"); ("project_name"%string, lit "Tower A");
   ("new_name"%string, lit "Rebar Plan B")].

(** Renaming Block 1 to Block 2. *)
Definition rename_block_1_to_block_2 : Args :=
  [("current_name"%string, lit "Block 1"); ("project_name"%string, lit "Tower A");
   ("new_name"%string, lit "Block 2")].

(** A service that has looked up Tower A, at some time on the clock. *)
Definition opening_hour : Z := 1700000000000.

Definition service_with_tower_a : Service :=
  snd (getProject opening_hour opening_hour 1%positive (fresh_service two_projects)).

(** A new stage for Tower A, and a new name for Foundation. *)
Definition finishing_input : StageInput.t :=
  {| StageInput.stage_name := lit "Finishing"; StageInput.stage_description := None;
     StageInput.stage_project_id := 1%positive |}.

Definition rename_foundation : StageUpdate.t :=
  {| StageUpdate.stage_id := 1%positive;
     StageUpdate.stage_name := Some (lit "Groundwork");
     StageUpdate.stage_description := None;
     StageUpdate.stage_project_id := None |}.

(** A second stage named Foundation in Tower A, and a search in it. *)
Definition foundation_again : Stage :=
  {| stage_id := 3%positive; stage_name := lit "Foundation";
     stage_description := Some (lit "East wing"); stage_project_id := 1%positive |}.

Definition twin_stages : Tables :=
  set_stages [foundation; framing; foundation_again] site_tables.

Definition search_in_foundation : Args :=
  [("project_name"%string, lit "Tower A"); ("stage_name"%string, lit "Foundation")].

(** Two users called Ivan, the second without a full name, and a Block 2
    for Ivan. *)
Definition ivan_petrov : User :=
  {| user_id := 11%positive; first_name := lit "Ivan"; last_name := lit "Petrov";
     full_name := lit "Ivan Petrov"; email := lit "petrov@example.com";
     is_active := true |}.

Definition ivan_sidorov : User :=
  {| user_id := 12%positive; first_name := lit "Ivan"; last_name := lit "Sidorov";
     full_name := lit " "; email := lit "sidorov@example.com"; is_active := true |}.

Definition staffed_tables : Tables :=
  {| projects := [tower_a]; stages := [foundation; framing]; objects := [block_1];
     sections := []; profiles := []; view_users := [ivan_petrov; ivan_sidorov] |}.

Definition create_block_2_for_ivan : Args :=
  create_block_2 ++ [("responsible_name"%string, lit "Ivan")].

(** Tower A with its stages, Block 1 and Rebar Plan, beside a Tower B
    without stages; and the request that moves Foundation to Tower B. *)
Definition two_planned_projects : Tables := set_projects [tower_a; tower_b] planned_tables.

Definition move_foundation : StageUpdate.t :=
  {| StageUpdate.stage_id := 1%positive;
     StageUpdate.stage_name := None;
     StageUpdate.stage_description := None;
     StageUpdate.stage_project_id := Some 2%positive |}.

(* ================================================================== *)
(** ** Proof automation *)
(* ================================================================== *)

Create HintDb reads.

(** Closes goals [reads_only m] from the hints of the [reads] database. *)
Ltac reads := auto 20 with reads.

Create HintDb quiet.

(** Closes goals [quiet m] from the hints of the [quiet] database. *)
Ltac quiet := auto 20 with quiet.

(** Closes the goal that the store still answers after some calls, from
    the fact [Hf] that it answers every call. *)
Ltac calm Hf := cbn [faults after_call with_tables]; rewrite Hf; reflexivity.

(* ================================================================== *)
(** * Properties *)
(* ================================================================== *)

Unset Implicit Arguments.

(* ================================================================== *)
(** ** Strings *)
(* ================================================================== *)

Arguments lit : simpl never.

Lemma str_eqb_eq (a b : jsstring) : str_eqb a b = true <-> a = b.
Proof.
  revert b; induction a as [|x a IH]; intros [|y b]; simpl; split;
    try congruence; try reflexivity.
  - intros E. apply andb_true_iff in E as [E1 E2].
    apply N.eqb_eq in E1. apply IH in E2. congruence.
  - intros E. injection E as -> ->. rewrite N.eqb_refl. simpl. now apply IH.
Qed.

Lemma str_eqb_refl (a : jsstring) : str_eqb a a = true.
Proof. now apply str_eqb_eq. Qed.

Lemma trimStart_clean s : clean_start (trimStart s).
Proof.
  induction s as [|c s IH]; simpl; auto.
  destruct (is_whitespace c) eqn:E; simpl; auto.
Qed.

Lemma trimStart_of_clean s : clean_start s -> trimStart s = s.
Proof. destruct s as [|c s]; simpl; auto. intros ->. reflexivity. Qed.

Lemma trimStart_snoc s c :
  is_whitespace c = false -> trimStart (s ++ [c]) = trimStart s ++ [c].
Proof.
  intros Hc. induction s as [|x s IH]; simpl.
  - now rewrite Hc.
  - destruct (is_whitespace x); auto.
Qed.

Lemma trimEnd_clean_start s : clean_start s -> clean_start (trimEnd s).
Proof.
  unfold trimEnd. destruct s as [|c s]; simpl; auto.
  intros Hc. rewrite trimStart_snoc by assumption.
  rewrite rev_app_distr. simpl. assumption.
Qed.

(** Trimming twice is trimming once: the exact lookups trim a name the
    handler has already trimmed. *)
Lemma trim_idempotent s : trim (trim s) = trim s.
Proof.
  unfold trim.
  rewrite (trimStart_of_clean (trimEnd (trimStart s))).
  - unfold trimEnd. rewrite rev_involutive.
    rewrite (trimStart_of_clean (trimStart _)); auto using trimStart_clean.
  - apply trimEnd_clean_start, trimStart_clean.
Qed.

(* ================================================================== *)
(** ** Calls on the store *)
(* ================================================================== *)

Section Calls.
Context {A : Type}.

Lemma call_answers (c : Call) (exec : Tables -> PgResult A * Tables) w :
  faults w = [] ->
  call c exec w
  = (fst (exec (tables w)), with_tables (snd (exec (tables w))) (after_call c w)).
Proof. unfold call. intros ->. destruct (exec (tables w)); reflexivity. Qed.

Lemma call_fails (c : Call) (exec : Tables -> PgResult A * Tables) w msg rest :
  faults w = Some msg :: rest ->
  call c exec w = (pg_error msg, after_call c w).
Proof. unfold call. intros ->. reflexivity. Qed.

(** Whatever the schedule, a call fails and leaves the tables alone, or
    runs. *)
Lemma call_cases (c : Call) (exec : Tables -> PgResult A * Tables) w :
  (exists msg, call c exec w = (pg_error msg, after_call c w))
  \/ call c exec w
     = (fst (exec (tables w)), with_tables (snd (exec (tables w))) (after_call c w)).
Proof.
  unfold call. destruct (faults w) as [|[msg|] rest]; eauto;
    right; destruct (exec (tables w)); reflexivity.
Qed.

Lemma select_answers (t : Table) (q : Tables -> PgResult A) w :
  faults w = [] ->
  select t q w = (q (tables w), after_call (selecting t) w).
Proof. intros Hf. unfold select. rewrite call_answers by assumption. reflexivity. Qed.

Lemma select_fails (t : Table) (q : Tables -> PgResult A) w msg rest :
  faults w = Some msg :: rest ->
  select t q w = (pg_error msg, after_call (selecting t) w).
Proof. intros Hf. unfold select. erewrite call_fails by eassumption. reflexivity. Qed.

(** Whatever the schedule, a read answers with an error or with the rows,
    and leaves the tables alone. *)
Lemma select_cases (t : Table) (q : Tables -> PgResult A) w :
  (exists msg, select t q w = (pg_error msg, after_call (selecting t) w))
  \/ select t q w = (q (tables w), after_call (selecting t) w).
Proof.
  unfold select, call. destruct (faults w) as [|[msg|] rest]; eauto.
Qed.

End Calls.

Lemma bind_run {A B} (m : M A) (k : A -> M B) w a w' :
  m w = (a, w') -> bind m k w = k a w'.
Proof. unfold bind. intros ->. reflexivity. Qed.

Lemma faults_after_call c w : faults w = [] -> faults (after_call c w) = [].
Proof. simpl. intros ->. reflexivity. Qed.

Lemma and_then_await {A B} (m : M A) (k : A -> H B) w a w' :
  m w = (a, w') -> and_then (await m) k w = k a w'.
Proof.
  intros E. unfold and_then, await.
  erewrite bind_run by (erewrite bind_run by exact E; reflexivity).
  reflexivity.
Qed.

Lemma and_then_return {A B} (r : ToolResult) (k : A -> H B) w :
  and_then (return_ r) k w = (inl r, w).
Proof. reflexivity. Qed.

Lemma and_then_proceed {A B} (a : A) (k : A -> H B) w :
  and_then (proceed a) k w = k a w.
Proof. reflexivity. Qed.

Lemma and_then_run {A B} (h : H A) (k : A -> H B) w a w' :
  h w = (inr a, w') -> and_then h k w = k a w'.
Proof. intros E. unfold and_then. erewrite bind_run by exact E. reflexivity. Qed.

Lemma and_then_stop {A B} (h : H A) (k : A -> H B) w r w' :
  h w = (inl r, w') -> and_then h k w = (inl r, w').
Proof. intros E. unfold and_then. erewrite bind_run by exact E. reflexivity. Qed.

Lemma run_returned (h : H ToolResult) w r w' :
  h w = (inl r, w') -> run h w = (r, w').
Proof. intros E. unfold run. erewrite bind_run by exact E. reflexivity. Qed.

Lemma run_finished (h : H ToolResult) w r w' :
  h w = (inr r, w') -> run h w = (r, w').
Proof. intros E. unfold run. erewrite bind_run by exact E. reflexivity. Qed.

(* ================================================================== *)
(** ** Dates *)
(* ================================================================== *)

Lemma digit_is_no_separator c :
  is_digit c = true -> (c =? 46)%N = false /\ (c =? 45)%N = false.
Proof.
  unfold is_digit. intros Hd. apply andb_true_iff in Hd as [Hlo Hhi].
  apply N.leb_le in Hlo. split; apply N.eqb_neq; lia.
Qed.

(** Whatever [parseDate] accepts, [formatDateForDisplay] gives back, up to
    the surrounding whitespace that [parseDate] strips. *)
Lemma formatDateForDisplay_parseDate s iso :
  parseDate (Some s) = Some iso -> formatDateForDisplay (Some iso) = trim s.
Proof.
  unfold parseDate. destruct (truthy (Some s)); cbn [negb]; try discriminate.
  cbn [String_].
  destruct (dateRegex_test (trim s)) eqn:R; cbn [negb]; try discriminate.
  destruct (trim s) as [|d1 [|d2 [|p1 [|m1 [|m2 [|p2 [|y1 [|y2 [|y3 [|y4 [|z t]]]]]]]]]]];
    try discriminate R.
  cbn [dateRegex_test] in R.
  do 9 (apply andb_true_iff in R; destruct R as [R ?]).
  repeat match goal with
         | Hd : is_digit _ = true |- _ => apply digit_is_no_separator in Hd as [? ?]
         | He : (_ =? 46)%N = true |- _ => apply N.eqb_eq in He; subst
         end.
  cbn [split]. repeat match goal with Hd : (_ =? 46)%N = false |- _ => rewrite Hd; clear Hd end.
  cbn [N.eqb Pos.eqb part nth_error String_].
  match goal with |- (if ?c then _ else _) = _ -> _ => destruct c end;
    try discriminate.
  intros Eq. injection Eq as <-.
  unfold formatDateForDisplay, padStart0.
  cbn [List.length Nat.sub repeat app truthy negb String_ split].
  repeat match goal with Hd : (_ =? 45)%N = false |- _ => rewrite Hd; clear Hd end.
  reflexivity.
Qed.

Lemma digit_is_no_whitespace c : is_digit c = true -> is_whitespace c = false.
Proof.
  unfold is_digit, is_whitespace. intros Hd.
  apply andb_true_iff in Hd as [Hlo Hhi].
  apply N.leb_le in Hlo, Hhi.
  repeat (apply orb_false_iff; split);
    try (apply N.eqb_neq; lia);
    apply andb_false_iff; (left; apply N.leb_gt; lia) || (right; apply N.leb_gt; lia).
Qed.

(** [parseDate] accepts every string of the shape [dd.mm.yyyy] whose
    numbers are in range, and answers [yyyy-mm-dd]. *)
Lemma parseDate_accepts d1 d2 m1 m2 y1 y2 y3 y4 (dn mn yn : Z) :
  forallb is_digit [d1; d2; m1; m2; y1; y2; y3; y4] = true ->
  parseInt10 [d1; d2] = Some dn ->
  parseInt10 [m1; m2] = Some mn ->
  parseInt10 [y1; y2; y3; y4] = Some yn ->
  (1 <= dn <= 31)%Z -> (1 <= mn <= 12)%Z -> (1900 <= yn <= 2100)%Z ->
  parseDate (Some [d1; d2; 46; m1; m2; 46; y1; y2; y3; y4]%N)
  = Some [y1; y2; y3; y4; 45; m1; m2; 45; d1; d2]%N.
Proof.
  intros Hdig Pd Pm Py Hd Hm Hy.
  cbn [forallb] in Hdig.
  repeat (apply andb_true_iff in Hdig; destruct Hdig as [? Hdig]). clear Hdig.
  assert (Wd1 := digit_is_no_whitespace d1 ltac:(assumption)).
  assert (Wy4 := digit_is_no_whitespace y4 ltac:(assumption)).
  unfold parseDate. cbn [truthy negb String_].
  unfold trim, trimEnd. cbn [trimStart]. rewrite Wd1.
  cbn [rev app trimStart]. rewrite Wy4. cbn [rev app].
  cbn [dateRegex_test].
  repeat match goal with Hx : is_digit ?c = true |- _ =>
           rewrite Hx; destruct (digit_is_no_separator c Hx) as [? _]; clear Hx end.
  cbn [N.eqb Pos.eqb andb negb split].
  repeat match goal with Hx : (_ =? 46)%N = false |- _ => rewrite Hx; clear Hx end.
  cbn [part nth_error String_]. rewrite Pd, Pm, Py.
  unfold num_lt, num_gt, padStart0.
  cbn [List.length Nat.sub repeat app].
  replace (dn <? 1)%Z with false by (symmetry; apply Z.ltb_ge; lia).
  replace (dn >? 31)%Z with false by (symmetry; rewrite Z.gtb_ltb; apply Z.ltb_ge; lia).
  replace (mn <? 1)%Z with false by (symmetry; apply Z.ltb_ge; lia).
  replace (mn >? 12)%Z with false by (symmetry; rewrite Z.gtb_ltb; apply Z.ltb_ge; lia).
  replace (yn <? 1900)%Z with false by (symmetry; apply Z.ltb_ge; lia).
  replace (yn >? 2100)%Z with false by (symmetry; rewrite Z.gtb_ltb; apply Z.ltb_ge; lia).
  reflexivity.
Qed.

Lemma reads_as_days : forallb (fun d => reads_as (two_digits d) d) (seq 1 31) = true.
Proof. vm_compute. reflexivity. Qed.

Lemma reads_as_months : forallb (fun m => reads_as (two_digits m) m) (seq 1 12) = true.
Proof. vm_compute. reflexivity. Qed.

Lemma reads_as_years :
  forallb (fun y => reads_as (four_digits y) y) (seq 1900 201) = true.
Proof. vm_compute. reflexivity. Qed.

Lemma reads_as_inv s n :
  reads_as s n = true ->
  forallb is_digit s = true /\ parseInt10 s = Some (Z.of_nat n).
Proof.
  unfold reads_as. intros Hr. apply andb_true_iff in Hr as [Hd Hp].
  split; [assumption|].
  destruct (parseInt10 s) as [v|]; try discriminate.
  apply Z.eqb_eq in Hp. congruence.
Qed.

(** C7. For every day 1-31, month 1-12 and year 1900-2100, [parseDate]
    accepts the string [dd.mm.yyyy], turns it into [yyyy-mm-dd], and
    [formatDateForDisplay] turns that back into the original string. *)
Theorem parseDate_formatDateForDisplay_round_trip :
  forall d m y : nat,
    1 <= d <= 31 -> 1 <= m <= 12 -> 1900 <= y <= 2100 ->
    parseDate (Some (dd_mm_yyyy d m y))
    = Some (four_digits y ++ [45%N] ++ two_digits m ++ [45%N] ++ two_digits d)
    /\ formatDateForDisplay (parseDate (Some (dd_mm_yyyy d m y))) = dd_mm_yyyy d m y.
Proof.
  intros d m y Hd Hm Hy.
  pose proof reads_as_days as Rd. rewrite forallb_forall in Rd.
  specialize (Rd d ltac:(apply in_seq; lia)). apply reads_as_inv in Rd as [Dd Pd].
  pose proof reads_as_months as Rm. rewrite forallb_forall in Rm.
  specialize (Rm m ltac:(apply in_seq; lia)). apply reads_as_inv in Rm as [Dm Pm].
  pose proof reads_as_years as Ry. rewrite forallb_forall in Ry.
  specialize (Ry y ltac:(apply in_seq; lia)). apply reads_as_inv in Ry as [Dy Py].
  assert (Hparse :
    parseDate (Some (dd_mm_yyyy d m y))
    = Some (four_digits y ++ [45%N] ++ two_digits m ++ [45%N] ++ two_digits d)).
  { unfold dd_mm_yyyy, two_digits, four_digits in *. cbn [app].
    apply parseDate_accepts with (dn := Z.of_nat d) (mn := Z.of_nat m) (yn := Z.of_nat y);
      try assumption; try lia.
    cbn [forallb] in *.
    repeat match goal with
           | Hx : (_ && _) = true |- _ => apply andb_true_iff in Hx; destruct Hx
           end.
    repeat match goal with Hx : is_digit _ = true |- _ => rewrite Hx; clear Hx end.
    reflexivity. }
  split; [exact Hparse|].
  rewrite Hparse. rewrite <- Hparse.
  destruct (parseDate (Some (dd_mm_yyyy d m y))) as [iso|] eqn:E; try discriminate.
  rewrite (formatDateForDisplay_parseDate _ _ E).
  unfold dd_mm_yyyy, two_digits, four_digits in *. cbn [app forallb] in *.
  apply andb_true_iff in Dd as [Dd _].
  repeat (apply andb_true_iff in Dy; destruct Dy as [? Dy]).
  unfold trim, trimEnd. cbn [trimStart].
  rewrite (digit_is_no_whitespace _ Dd). cbn [rev app trimStart].
  match goal with Hx : is_digit (N.of_nat (48 + y mod 10)) = true |- _ =>
    rewrite (digit_is_no_whitespace _ Hx) end.
  reflexivity.
Qed.

(* ================================================================== *)
(** ** Rename checks on a failing store *)
(* ================================================================== *)

Lemma validateUniqueProjectByNameForUpdate_fails_open name excludeId w msg rest :
  faults w = Some msg :: rest ->
  validateUniqueProjectByNameForUpdate name excludeId w
  = (unique, after_call (selecting T_projects) w).
Proof.
  intros Hf. unfold validateUniqueProjectByNameForUpdate.
  erewrite bind_run by (eapply select_fails; eassumption). reflexivity.
Qed.

Lemma validateUniqueStageByNameForUpdate_fails_open name projectId excludeId w msg rest :
  faults w = Some msg :: rest ->
  validateUniqueStageByNameForUpdate name projectId excludeId w
  = (unique, after_call (selecting T_stages) w).
Proof.
  intros Hf. unfold validateUniqueStageByNameForUpdate.
  erewrite bind_run by (eapply select_fails; eassumption). reflexivity.
Qed.

Lemma validateUniqueObjectByNameForUpdate_fails_open name stageId excludeId w msg rest :
  faults w = Some msg :: rest ->
  validateUniqueObjectByNameForUpdate name stageId excludeId w
  = (unique, after_call (selecting T_objects) w).
Proof.
  intros Hf. unfold validateUniqueObjectByNameForUpdate.
  erewrite bind_run by (eapply select_fails; eassumption). reflexivity.
Qed.

Lemma validateUniqueSectionByNameForUpdate_fails_open name objectId excludeId w msg rest :
  faults w = Some msg :: rest ->
  validateUniqueSectionByNameForUpdate name objectId excludeId w
  = (unique, after_call (selecting T_sections) w).
Proof.
  intros Hf. unfold validateUniqueSectionByNameForUpdate.
  erewrite bind_run by (eapply select_fails; eassumption). reflexivity.
Qed.

Lemma object_new_name_on_store_error args currentName object w msg rest :
  faults w = Some msg :: rest ->
  truthy (arg args "new_name") = true ->
  trim (String_ (arg args "new_name")) <> currentName ->
  object_new_name args currentName object w
  = (inr (Some (trim (String_ (arg args "new_name")))),
     after_call (selecting T_objects) w).
Proof.
  intros Hf Ht Hne. unfold object_new_name. rewrite Ht.
  destruct (str_eqb _ currentName) eqn:E.
  - apply str_eqb_eq in E. contradiction.
  - cbn [negb].
    erewrite and_then_await
      by (eapply validateUniqueObjectByNameForUpdate_fails_open; eassumption).
    reflexivity.
Qed.

Lemma section_new_name_on_store_error args currentName section w msg rest :
  faults w = Some msg :: rest ->
  truthy (arg args "new_name") = true ->
  trim (String_ (arg args "new_name")) <> currentName ->
  section_new_name args currentName section w
  = (inr (Some (trim (String_ (arg args "new_name")))),
     after_call (selecting T_sections) w).
Proof.
  intros Hf Ht Hne. unfold section_new_name. rewrite Ht.
  destruct (str_eqb _ currentName) eqn:E.
  - apply str_eqb_eq in E. contradiction.
  - cbn [negb].
    erewrite and_then_await
      by (eapply validateUniqueSectionByNameForUpdate_fails_open; eassumption).
    reflexivity.
Qed.

(** C10. When the store answers the query of a rename check with an error,
    each of the four checks ([validateUniqueProjectByNameForUpdate],
    [...Stage...], [...Object...], [...Section...]) reports [unique], and
    the rename step of the object and section update handlers goes on
    with the new name: the failure is reported neither as a conflict nor as
    a store failure. *)
Theorem rename_checks_fail_open :
  forall (name : jsstring) (scope excludeId : Id) (w : World)
         (msg : jsstring) (rest : list (option jsstring)),
    faults w = Some msg :: rest ->
    validateUniqueProjectByNameForUpdate name excludeId w
      = (unique, after_call (selecting T_projects) w)
    /\ validateUniqueStageByNameForUpdate name scope excludeId w
      = (unique, after_call (selecting T_stages) w)
    /\ validateUniqueObjectByNameForUpdate name scope excludeId w
      = (unique, after_call (selecting T_objects) w)
    /\ validateUniqueSectionByNameForUpdate name scope excludeId w
      = (unique, after_call (selecting T_sections) w)
    /\ (forall args currentName object,
          arg args "new_name" = Some name ->
          truthy (Some name) = true ->
          trim name <> currentName ->
          object_new_name args currentName object w
          = (inr (Some (trim name)), after_call (selecting T_objects) w))
    /\ (forall args currentName section,
          arg args "new_name" = Some name ->
          truthy (Some name) = true ->
          trim name <> currentName ->
          section_new_name args currentName section w
          = (inr (Some (trim name)), after_call (selecting T_sections) w)).
Proof.
  intros name scope excludeId w msg rest Hf.
  repeat split.
  - eapply validateUniqueProjectByNameForUpdate_fails_open; eassumption.
  - eapply validateUniqueStageByNameForUpdate_fails_open; eassumption.
  - eapply validateUniqueObjectByNameForUpdate_fails_open; eassumption.
  - eapply validateUniqueSectionByNameForUpdate_fails_open; eassumption.
  - intros args currentName object Ha Ht Hne.
    erewrite object_new_name_on_store_error; try eassumption;
      rewrite Ha; auto.
  - intros args currentName section Ha Ht Hne.
    erewrite section_new_name_on_store_error; try eassumption;
      rewrite Ha; auto.
Qed.

(* ================================================================== *)
(** ** Renaming to the current name *)
(* ================================================================== *)

Lemma single_inv {A} (rows : list A) (r : A) :
  data_unless_error (single rows) = Some r -> rows = [r].
Proof.
  destruct rows as [|x [|y rows]]; cbn; try discriminate. congruence.
Qed.

Lemma findObjectByNameExact_found name projectId stageId w o w' :
  findObjectByNameExact name projectId stageId w = (Some o, w') ->
  In o (objects (tables w)) /\ object_name o = trim name
  /\ object_project_id o = projectId /\ tables w' = tables w.
Proof.
  unfold findObjectByNameExact.
  match goal with |- context [select ?t ?q] =>
    destruct (select_cases t q w) as [[msg E] | E] end;
    erewrite bind_run by exact E; cbn [ret]; intros Eq;
    injection Eq as Hd Hw; subst w'.
  - discriminate Hd.
  - apply single_inv in Hd.
    match type of Hd with ?rows = _ =>
      assert (Hin : In o rows) by (rewrite Hd; left; reflexivity) end.
    apply filter_In in Hin as [Hin Hf].
    apply andb_true_iff in Hf as [Hf _].
    apply andb_true_iff in Hf as [Hn Hp].
    apply str_eqb_eq in Hn. apply Pos.eqb_eq in Hp. auto.
Qed.

Lemma findSectionByNameExact_found name projectId objectId w s w' :
  findSectionByNameExact name projectId objectId w = (Some s, w') ->
  In s (sections (tables w)) /\ section_name s = trim name
  /\ section_project_id s = projectId /\ tables w' = tables w.
Proof.
  unfold findSectionByNameExact.
  match goal with |- context [select ?t ?q] =>
    destruct (select_cases t q w) as [[msg E] | E] end;
    erewrite bind_run by exact E; cbn [ret]; intros Eq;
    injection Eq as Hd Hw; subst w'.
  - discriminate Hd.
  - apply single_inv in Hd.
    match type of Hd with ?rows = _ =>
      assert (Hin : In s rows) by (rewrite Hd; left; reflexivity) end.
    apply filter_In in Hin as [Hin Hf].
    apply andb_true_iff in Hf as [Hf _].
    apply andb_true_iff in Hf as [Hn Hp].
    apply str_eqb_eq in Hn. apply Pos.eqb_eq in Hp. auto.
Qed.

Lemma object_new_name_same args currentName object w :
  trim (String_ (arg args "new_name")) = currentName ->
  object_new_name args currentName object w = (inr None, w).
Proof.
  intros E. unfold object_new_name. rewrite E, str_eqb_refl.
  destruct (truthy _); reflexivity.
Qed.

Lemma section_new_name_same args currentName section w :
  trim (String_ (arg args "new_name")) = currentName ->
  section_new_name args currentName section w = (inr None, w).
Proof.
  intros E. unfold section_new_name. rewrite E, str_eqb_refl.
  destruct (truthy _); reflexivity.
Qed.


(* ================================================================== *)
(** ** Resolution by name *)
(* ================================================================== *)

Lemma validateUniqueProjectByName_answers name w :
  faults w = [] ->
  validateUniqueProjectByName name w
  = (one_of (pg_ok (projects_named (tables w) name)), after_call (selecting T_projects) w).
Proof.
  intros Hf. unfold validateUniqueProjectByName.
  erewrite bind_run by (apply select_answers; assumption). reflexivity.
Qed.

Lemma validateUniqueStageByName_answers name projectId w :
  faults w = [] ->
  validateUniqueStageByName name projectId w
  = (one_of (pg_ok (stages_named (tables w) name projectId)),
     after_call (selecting T_stages) w).
Proof.
  intros Hf. unfold validateUniqueStageByName.
  erewrite bind_run by (apply select_answers; assumption). reflexivity.
Qed.

Lemma filter_and_true {A} (f : A -> bool) l :
  filter (fun x => f x && true) l = filter f l.
Proof. apply filter_ext. intros x. apply andb_true_r. Qed.

Lemma validateUniqueObjectByName_unscoped_answers name w :
  faults w = [] ->
  validateUniqueObjectByName name None w
  = (one_of (pg_ok (objects_named (tables w) name)), after_call (selecting T_objects) w).
Proof.
  intros Hf. unfold validateUniqueObjectByName.
  erewrite bind_run by (apply select_answers; assumption).
  cbn [when_given]. rewrite filter_and_true. reflexivity.
Qed.

Lemma validateUniqueObjectByName_scoped_answers name stageId w :
  faults w = [] ->
  validateUniqueObjectByName name (Some stageId) w
  = (one_of (pg_ok (objects_named_in (tables w) name stageId)),
     after_call (selecting T_objects) w).
Proof.
  intros Hf. unfold validateUniqueObjectByName.
  erewrite bind_run by (apply select_answers; assumption). reflexivity.
Qed.

Lemma one_of_none {A} : one_of (pg_ok (@nil A)) = not_found.
Proof. reflexivity. Qed.

Lemma one_of_one {A} (x : A) : one_of (pg_ok [x]) = found x.
Proof. reflexivity. Qed.

Lemma one_of_several {A} (rows : list A) :
  2 <= List.length rows -> one_of (pg_ok rows) = multiple_found.
Proof.
  destruct rows as [|x [|y rows]]; cbn; intros Hl; try lia. reflexivity.
Qed.

Lemma one_of_error {A} (msg : jsstring) : one_of (@pg_error (list A) msg) = not_found.
Proof. reflexivity. Qed.

Lemma two_members_of_filter {A} (f : A -> bool) (l : list A) (a b : A) :
  In a l -> In b l -> a <> b -> f a = true -> f b = true ->
  2 <= List.length (filter f l).
Proof.
  intros Ha Hb Hne Hfa Hfb.
  assert (Ia : In a (filter f l)) by (apply filter_In; auto).
  assert (Ib : In b (filter f l)) by (apply filter_In; auto).
  destruct (filter f l) as [|x [|y rest]]; cbn [In List.length] in *.
  - destruct Ia.
  - destruct Ia as [<-|[]], Ib as [<-|[]]. contradiction.
  - lia.
Qed.

(* ================================================================== *)
(** ** Creating a section in an object named in several stages *)
(* ================================================================== *)

(** C9. [create_section] looks its object up by name alone.  When two
    objects of different stages carry the requested name, the handler
    returns the several-objects message after its single read of the
    objects table: the tables are unchanged, nothing is inserted. *)
Theorem create_section_ignores_stage_scope :
  forall (P : Platform) (args : Args) (w : World) (o1 o2 : Object),
    let objectName := trim (String_ (arg args "object_name")) in
    faults w = [] ->
    In o1 (objects (tables w)) -> In o2 (objects (tables w)) ->
    object_name o1 = objectName -> object_name o2 = objectName ->
    object_stage_id o1 <> object_stage_id o2 ->
    handleCreateSection args w
    = (text_result (lit "Найдено несколько объектов с названием " ++ quoted objectName
                    ++ lit ". Уточните название или используйте поиск объектов."),
       after_call (selecting T_objects) w)
    /\ tables (snd (handleCreateSection args w)) = tables w.
Proof.
  intros P args w o1 o2 objectName Hf H1 H2 N1 N2 Hs.
  assert (E : handleCreateSection args w
    = (text_result (lit "Найдено несколько объектов с названием " ++ quoted objectName
                    ++ lit ". Уточните название или используйте поиск объектов."),
       after_call (selecting T_objects) w)).
  { unfold handleCreateSection. apply run_returned.
    erewrite and_then_await
      by (apply validateUniqueObjectByName_unscoped_answers; assumption).
    fold objectName.
    rewrite one_of_several.
    - reflexivity.
    - apply (two_members_of_filter _ _ o1 o2); auto.
      + congruence.
      + apply str_eqb_eq; assumption.
      + apply str_eqb_eq; assumption. }
  split; [exact E | rewrite E; reflexivity].
Qed.

(* ================================================================== *)
(** ** Deleting a project that has descendants *)
(* ================================================================== *)

Lemma existsb_filter {A} (f g : A -> bool) l :
  existsb f (filter g l) = existsb (fun x => g x && f x) l.
Proof.
  induction l as [|x l IH]; cbn; auto.
  destruct (g x); cbn; rewrite IH; reflexivity.
Qed.

(** Under the data model's invariant, the objects that name a project are
    the objects of its stages. *)
Lemma objects_of_by_reference t projectId :
  project_references_agree t = true ->
  filter (fun o => Pos.eqb (object_project_id o) projectId) (objects t)
  = objects_of t projectId.
Proof.
  intros Hagree. unfold objects_of, stages_of.
  apply andb_true_iff in Hagree as [Hobj _].
  rewrite forallb_forall in Hobj.
  apply filter_ext_in. intros o Ho.
  specialize (Hobj o Ho). apply andb_true_iff in Hobj as [Hex Hall].
  rewrite forallb_forall in Hall.
  rewrite existsb_filter.
  destruct (Pos.eqb (object_project_id o) projectId) eqn:E.
  - apply Pos.eqb_eq in E. symmetry. apply existsb_exists.
    apply existsb_exists in Hex as (s & Hs & Hid).
    exists s. split; [assumption|].
    specialize (Hall s Hs). rewrite Hid in Hall. cbn in Hall.
    apply Pos.eqb_eq in Hall. rewrite Hall, E, Pos.eqb_refl, Hid. reflexivity.
  - symmetry. apply not_true_is_false. intros Hx.
    apply existsb_exists in Hx as (s & Hs & Hb).
    apply andb_true_iff in Hb as [Hp Hid].
    specialize (Hall s Hs). rewrite Hid in Hall. cbn in Hall.
    apply Pos.eqb_eq in Hall, Hp. apply Pos.eqb_neq in E. congruence.
Qed.

(** Likewise, the sections that name a project are the sections of the
    objects of its stages. *)
Lemma sections_of_by_reference t projectId :
  project_references_agree t = true ->
  filter (fun x => Pos.eqb (section_project_id x) projectId) (sections t)
  = sections_of t projectId.
Proof.
  intros Hagree. unfold sections_of.
  rewrite <- (objects_of_by_reference t projectId Hagree).
  apply andb_true_iff in Hagree as [_ Hsec].
  rewrite forallb_forall in Hsec.
  apply filter_ext_in. intros x Hx.
  specialize (Hsec x Hx). apply andb_true_iff in Hsec as [Hex Hall].
  rewrite forallb_forall in Hall.
  rewrite existsb_filter.
  destruct (Pos.eqb (section_project_id x) projectId) eqn:E.
  - apply Pos.eqb_eq in E. symmetry. apply existsb_exists.
    apply existsb_exists in Hex as (o & Ho & Hid).
    exists o. split; [assumption|].
    specialize (Hall o Ho). rewrite Hid in Hall. cbn in Hall.
    apply Pos.eqb_eq in Hall. rewrite Hall, E, Pos.eqb_refl, Hid. reflexivity.
  - symmetry. apply not_true_is_false. intros Hx'.
    apply existsb_exists in Hx' as (o & Ho & Hb).
    apply andb_true_iff in Hb as [Hp Hid].
    specialize (Hall o Ho). rewrite Hid in Hall. cbn in Hall.
    apply Pos.eqb_eq in Hall, Hp. apply Pos.eqb_neq in E. congruence.
Qed.

Lemma validateProjectExists_answers projectId w :
  faults w = [] ->
  validateProjectExists projectId w
  = (ok_with_data (single (projects_with_id (tables w) projectId)),
     after_call (selecting T_projects) w).
Proof.
  intros Hf. unfold validateProjectExists.
  erewrite bind_run by (apply select_answers; assumption). reflexivity.
Qed.

Lemma getCascadeDeleteInfo_answers projectId w :
  faults w = [] ->
  getCascadeDeleteInfo projectId w
  = (let n_sections :=
       List.length (filter (fun s => Pos.eqb (section_project_id s) projectId)
                           (sections (tables w))) in
     let n_objects :=
       List.length (filter (fun o => Pos.eqb (object_project_id o) projectId)
                           (objects (tables w))) in
     let n_stages := List.length (stages_of (tables w) projectId) in
     {| info_sections := n_sections; info_objects := n_objects;
        info_stages := n_stages; info_total := n_sections + n_objects + n_stages |},
     after_call (selecting T_stages)
       (after_call (selecting T_objects) (after_call (selecting T_sections) w))).
Proof.
  intros Hf. unfold getCascadeDeleteInfo.
  erewrite bind_run by (apply select_answers; assumption).
  erewrite bind_run by (apply select_answers; apply faults_after_call; assumption).
  erewrite bind_run
    by (apply select_answers; do 2 apply faults_after_call; assumption).
  reflexivity.
Qed.

(** No row passes a test that always fails. *)
Lemma filter_never {A} (l : list A) : filter (fun _ => false) l = [].
Proof. induction l; auto. Qed.

(** A project with descendants has a stage, which names it. *)
Lemma descendants_name_the_project t projectId :
  0 < descendant_count t projectId -> 0 < rows_naming t projectId.
Proof.
  unfold descendant_count, rows_naming, sections_of, objects_of.
  destruct (stages_of t projectId) as [|s rest] eqn:E.
  - cbn [existsb]. rewrite !filter_never. cbn. lia.
  - cbn [List.length]. lia.
Qed.

(** When the project references agree with the parent references, the
    rows that name a project are its descendants. *)
Lemma rows_naming_are_descendants t projectId :
  project_references_agree t = true ->
  rows_naming t projectId = descendant_count t projectId.
Proof.
  intros Hagree. unfold rows_naming, descendant_count.
  rewrite (sections_of_by_reference _ _ Hagree), (objects_of_by_reference _ _ Hagree).
  reflexivity.
Qed.

(** C3, as the code has it.  Deleting, without cascade, a project of the
    store that [N > 0] rows name (the sections, the objects and the stages
    whose project reference is the project) is refused with the message
    that cites [N]; the four calls made are reads and the tables are
    unchanged.  A project with descendants (its stages, their objects,
    their sections) is named by a row, so it is refused in this way; and
    [N] is the number of its descendants when the project references agree
    with the parent references. *)
Theorem deleteProject_without_cascade_cites_rows_naming_project :
  forall (projectId : Id) (w : World) (p : Project),
    faults w = [] ->
    projects_with_id (tables w) projectId = [p] ->
    (0 < rows_naming (tables w) projectId ->
     let (result, w') := deleteProject projectId false w in
     success result = false
     /\ message result = dependents_message (rows_naming (tables w) projectId)
     /\ tables w' = tables w
     /\ trace w' = trace w ++ [selecting T_projects; selecting T_sections;
                               selecting T_objects; selecting T_stages])
    /\ (0 < descendant_count (tables w) projectId -> 0 < rows_naming (tables w) projectId)
    /\ (project_references_agree (tables w) = true ->
        rows_naming (tables w) projectId = descendant_count (tables w) projectId).
Proof.
  intros projectId w p Hf Hp. split; [|split].
  - intros Hn.
    unfold deleteProject.
    erewrite bind_run by (apply validateProjectExists_answers; assumption).
    rewrite Hp. cbn [single ok_with_data pg_ok error data negb].
    erewrite bind_run
      by (apply getCascadeDeleteInfo_answers; apply faults_after_call; assumption).
    cbv zeta. cbn [info_total tables after_call].
    change (List.length (filter (fun s => Pos.eqb (section_project_id s) projectId)
                                (sections (tables w)))
            + List.length (filter (fun o => Pos.eqb (object_project_id o) projectId)
                                  (objects (tables w)))
            + List.length (stages_of (tables w) projectId))
      with (rows_naming (tables w) projectId).
    rewrite (proj2 (Nat.ltb_lt _ _) Hn).
    cbn [andb negb]. unfold ret.
    cbn [success message tables trace after_call].
    repeat split. rewrite <- !app_assoc. reflexivity.
  - apply descendants_name_the_project.
  - apply rows_naming_are_descendants.
Qed.

(* ================================================================== *)
(** ** A name that several records carry *)
(* ================================================================== *)

Lemma create_object_several_projects (P : Platform) args w :
  faults w = [] ->
  2 <= List.length (projects_named (tables w) (trim (String_ (arg args "project_name")))) ->
  handleCreateObject args w
  = (several_projects (trim (String_ (arg args "project_name"))),
     after_call (selecting T_projects) w).
Proof.
  intros Hf Hn. unfold handleCreateObject. apply run_returned.
  erewrite and_then_await by (apply validateUniqueProjectByName_answers; assumption).
  rewrite one_of_several by assumption. reflexivity.
Qed.

Lemma create_object_several_stages (P : Platform) args w project :
  faults w = [] ->
  projects_named (tables w) (trim (String_ (arg args "project_name"))) = [project] ->
  2 <= List.length (stages_named (tables w) (trim (String_ (arg args "stage_name")))
                                 (project_id project)) ->
  handleCreateObject args w
  = (text_result
       (lit "В проекте " ++ quoted (project_name project)
        ++ lit " найдено несколько стадий с названием "
        ++ quoted (trim (String_ (arg args "stage_name"))) ++ lit ". Уточните название."),
     after_call (selecting T_stages) (after_call (selecting T_projects) w)).
Proof.
  intros Hf Hp Hn. unfold handleCreateObject. apply run_returned.
  erewrite and_then_await by (apply validateUniqueProjectByName_answers; assumption).
  rewrite Hp, one_of_one, and_then_proceed.
  erewrite and_then_await
    by (apply validateUniqueStageByName_answers; apply faults_after_call; assumption).
  cbn [tables after_call].
  rewrite one_of_several by assumption. reflexivity.
Qed.

Lemma create_section_several_objects (P : Platform) args w :
  faults w = [] ->
  2 <= List.length (objects_named (tables w) (trim (String_ (arg args "object_name")))) ->
  handleCreateSection args w
  = (text_result
       (lit "Найдено несколько объектов с названием "
        ++ quoted (trim (String_ (arg args "object_name")))
        ++ lit ". Уточните название или используйте поиск объектов."),
     after_call (selecting T_objects) w).
Proof.
  intros Hf Hn. unfold handleCreateSection. apply run_returned.
  erewrite and_then_await
    by (apply validateUniqueObjectByName_unscoped_answers; assumption).
  rewrite one_of_several by assumption. reflexivity.
Qed.

Lemma search_objects_several_projects args w :
  faults w = [] ->
  truthy (arg args "project_name") = true ->
  2 <= List.length (projects_named (tables w) (trim (String_ (arg args "project_name")))) ->
  handleSearchObjects_scope args w
  = (inl (text_result
            (lit "Найдено несколько проектов с названием "
             ++ quoted (String_ (arg args "project_name")) ++ lit ". Уточните название.")),
     after_call (selecting T_projects) w).
Proof.
  intros Hf Ht Hn. unfold handleSearchObjects_scope. rewrite Ht.
  apply and_then_stop.
  erewrite and_then_await by (apply validateUniqueProjectByName_answers; assumption).
  rewrite one_of_several by assumption. reflexivity.
Qed.

Lemma search_objects_several_stages args w project :
  faults w = [] ->
  truthy (arg args "project_name") = true ->
  truthy (arg args "stage_name") = true ->
  projects_named (tables w) (trim (String_ (arg args "project_name"))) = [project] ->
  2 <= List.length (stages_named (tables w) (trim (String_ (arg args "stage_name")))
                                 (project_id project)) ->
  handleSearchObjects_scope args w
  = (inl (text_result
            (lit "В проекте найдено несколько стадий с названием "
             ++ quoted (String_ (arg args "stage_name")) ++ lit ". Уточните название.")),
     after_call (selecting T_stages) (after_call (selecting T_projects) w)).
Proof.
  intros Hf Htp Hts Hp Hn. unfold handleSearchObjects_scope. rewrite Htp, Hts.
  erewrite and_then_run.
  2:{ erewrite and_then_await by (apply validateUniqueProjectByName_answers; assumption).
      rewrite Hp, one_of_one. reflexivity. }
  apply and_then_stop.
  erewrite and_then_await
    by (apply validateUniqueStageByName_answers; apply faults_after_call; assumption).
  cbn [tables after_call].
  rewrite one_of_several by assumption. reflexivity.
Qed.

(* ================================================================== *)
(** ** The order in which references are resolved *)
(* ================================================================== *)

(** A project that no row names is reported missing after the one read of
    the projects table, whether that read answers or fails. *)
Lemma validateUniqueProjectByName_none name w :
  projects_named (tables w) name = [] ->
  validateUniqueProjectByName name w = (not_found, after_call (selecting T_projects) w).
Proof.
  intros Hn. unfold validateUniqueProjectByName.
  match goal with |- context [select ?t ?q] =>
    destruct (select_cases t q w) as [[msg E] | E] end;
    erewrite bind_run by exact E; cbn [ret].
  - reflexivity.
  - fold (projects_named (tables w) name). rewrite Hn. reflexivity.
Qed.

Lemma create_object_project_missing (P : Platform) args w :
  projects_named (tables w) (trim (String_ (arg args "project_name"))) = [] ->
  handleCreateObject args w
  = (project_not_found (trim (String_ (arg args "project_name"))),
     after_call (selecting T_projects) w).
Proof.
  intros Hn. unfold handleCreateObject. apply run_returned.
  erewrite and_then_await by (apply validateUniqueProjectByName_none; assumption).
  reflexivity.
Qed.

Lemma search_objects_project_missing args w :
  truthy (arg args "project_name") = true ->
  projects_named (tables w) (trim (String_ (arg args "project_name"))) = [] ->
  handleSearchObjects_scope args w
  = (inl (project_not_found (String_ (arg args "project_name"))),
     after_call (selecting T_projects) w).
Proof.
  intros Ht Hn. unfold handleSearchObjects_scope. rewrite Ht.
  apply and_then_stop.
  erewrite and_then_await by (apply validateUniqueProjectByName_none; assumption).
  reflexivity.
Qed.

Lemma findProjectByNameExact_none name w :
  projects_named (tables w) (trim name) = [] ->
  findProjectByNameExact name w = (None, after_call (selecting T_projects) w).
Proof.
  intros Hn. unfold findProjectByNameExact.
  match goal with |- context [select ?t ?q] =>
    destruct (select_cases t q w) as [[msg E] | E] end;
    erewrite bind_run by exact E; cbn [ret].
  - reflexivity.
  - fold (projects_named (tables w) (trim name)). rewrite Hn. reflexivity.
Qed.

Lemma update_object_project_missing (P : Platform) args w :
  projects_named (tables w) (trim (String_ (arg args "project_name"))) = [] ->
  handleUpdateObject args w
  = (project_not_found (trim (String_ (arg args "project_name"))),
     after_call (selecting T_projects) w).
Proof.
  intros Hn. unfold handleUpdateObject. apply run_returned.
  erewrite and_then_await
    by (apply findProjectByNameExact_none; rewrite trim_idempotent; assumption).
  reflexivity.
Qed.

Lemma update_section_project_missing (P : Platform) args w :
  projects_named (tables w) (trim (String_ (arg args "project_name"))) = [] ->
  handleUpdateSection args w
  = (project_not_found (trim (String_ (arg args "project_name"))),
     after_call (selecting T_projects) w).
Proof.
  intros Hn. unfold handleUpdateSection. apply run_returned.
  erewrite and_then_await
    by (apply findProjectByNameExact_none; rewrite trim_idempotent; assumption).
  reflexivity.
Qed.

Lemma create_object_stage_missing (P : Platform) args w project :
  faults w = [] ->
  projects_named (tables w) (trim (String_ (arg args "project_name"))) = [project] ->
  stages_named (tables w) (trim (String_ (arg args "stage_name"))) (project_id project) = [] ->
  handleCreateObject args w
  = (stage_not_found (trim (String_ (arg args "stage_name"))) project,
     after_call (selecting T_stages) (after_call (selecting T_projects) w)).
Proof.
  intros Hf Hp Hn. unfold handleCreateObject. apply run_returned.
  erewrite and_then_await by (apply validateUniqueProjectByName_answers; assumption).
  rewrite Hp, one_of_one, and_then_proceed.
  erewrite and_then_await
    by (apply validateUniqueStageByName_answers; apply faults_after_call; assumption).
  cbn [tables after_call]. rewrite Hn. reflexivity.
Qed.

Lemma create_object_name_taken (P : Platform) args w project stage o rest :
  faults w = [] ->
  projects_named (tables w) (trim (String_ (arg args "project_name"))) = [project] ->
  stages_named (tables w) (trim (String_ (arg args "stage_name"))) (project_id project)
    = [stage] ->
  objects_named_in (tables w) (trim (String_ (arg args "object_name"))) (stage_id stage)
    = o :: rest ->
  handleCreateObject args w
  = (object_name_taken (trim (String_ (arg args "object_name"))) stage
       (match rest with [] => false | _ :: _ => true end),
     after_call (selecting T_objects)
       (after_call (selecting T_stages) (after_call (selecting T_projects) w))).
Proof.
  intros Hf Hp Hs Ho. unfold handleCreateObject. apply run_returned.
  erewrite and_then_await by (apply validateUniqueProjectByName_answers; assumption).
  rewrite Hp, one_of_one, and_then_proceed.
  erewrite and_then_await
    by (apply validateUniqueStageByName_answers; apply faults_after_call; assumption).
  cbn [tables after_call]. rewrite Hs, one_of_one, and_then_proceed.
  erewrite and_then_await
    by (apply validateUniqueObjectByName_scoped_answers;
        do 2 apply faults_after_call; assumption).
  cbn [tables after_call]. rewrite Ho.
  destruct rest; reflexivity.
Qed.

Lemma date_argument_fine raw which w :
  date_fine raw = true ->
  date_argument raw (fun s => s) which w = (inr (date_given raw), w).
Proof.
  intros Hfine. unfold date_argument, date_fine, date_given in *.
  destruct (truthy raw) eqn:Ht; cbn [negb orb] in *; [|reflexivity].
  rewrite Hfine. reflexivity.
Qed.

Lemma create_object_user_missing (P : Platform) args w project stage :
  faults w = [] ->
  projects_named (tables w) (trim (String_ (arg args "project_name"))) = [project] ->
  stages_named (tables w) (trim (String_ (arg args "stage_name"))) (project_id project)
    = [stage] ->
  objects_named_in (tables w) (trim (String_ (arg args "object_name"))) (stage_id stage)
    = [] ->
  date_fine (arg args "start_date") = true ->
  date_fine (arg args "end_date") = true ->
  validateDateRange (or_else (date_given (arg args "start_date")) None)
                    (or_else (date_given (arg args "end_date")) None) = true ->
  truthy (arg args "responsible_name") = true ->
  let w3 := after_call (selecting T_objects)
              (after_call (selecting T_stages) (after_call (selecting T_projects) w)) in
  fst (searchUsersByQuery (trim (String_ (arg args "responsible_name"))) w3) = [] ->
  handleCreateObject args w
  = (user_not_found (arg args "responsible_name"),
     snd (searchUsersByQuery (trim (String_ (arg args "responsible_name"))) w3)).
Proof.
  intros Hf Hp Hs Ho Hsd Hed Hrange Hr w3 Hu.
  unfold handleCreateObject. apply run_returned.
  erewrite and_then_await by (apply validateUniqueProjectByName_answers; assumption).
  rewrite Hp, one_of_one, and_then_proceed.
  erewrite and_then_await
    by (apply validateUniqueStageByName_answers; apply faults_after_call; assumption).
  cbn [tables after_call]. rewrite Hs, one_of_one, and_then_proceed.
  erewrite and_then_await
    by (apply validateUniqueObjectByName_scoped_answers;
        do 2 apply faults_after_call; assumption).
  cbn [tables after_call]. rewrite Ho, one_of_none, and_then_proceed.
  erewrite and_then_run by (apply date_argument_fine; auto).
  erewrite and_then_run by (apply date_argument_fine; auto).
  rewrite Hrange. cbn [negb]. rewrite and_then_proceed.
  apply and_then_stop. unfold resolve_responsible. rewrite Hr.
  fold w3.
  destruct (searchUsersByQuery (trim (String_ (arg args "responsible_name"))) w3)
    as [users w4] eqn:E.
  cbn [fst snd] in *. subst users.
  erewrite and_then_await by exact E. reflexivity.
Qed.

(** A responsible name that several users match. *)
Lemma create_object_several_users (P : Platform) args w project stage u1 u2 rest :
  faults w = [] ->
  projects_named (tables w) (trim (String_ (arg args "project_name"))) = [project] ->
  stages_named (tables w) (trim (String_ (arg args "stage_name"))) (project_id project)
    = [stage] ->
  objects_named_in (tables w) (trim (String_ (arg args "object_name"))) (stage_id stage)
    = [] ->
  date_fine (arg args "start_date") = true ->
  date_fine (arg args "end_date") = true ->
  validateDateRange (or_else (date_given (arg args "start_date")) None)
                    (or_else (date_given (arg args "end_date")) None) = true ->
  truthy (arg args "responsible_name") = true ->
  let w3 := after_call (selecting T_objects)
              (after_call (selecting T_stages) (after_call (selecting T_projects) w)) in
  fst (searchUsersByQuery (trim (String_ (arg args "responsible_name"))) w3)
    = u1 :: u2 :: rest ->
  handleCreateObject args w
  = (text_result
               (lit "Найдено несколько пользователей с именем "
                ++ quoted (String_ (arg args "responsible_name")) ++ lit ":" ++ newline
                ++ join newline
                     (map (fun u => lit "• " ++ full_name_or_names u
                                    ++ lit " (" ++ email u ++ lit ")")
                          (u1 :: u2 :: rest))
                ++ newline ++ lit "Уточните имя или используйте email."),
     snd (searchUsersByQuery (trim (String_ (arg args "responsible_name"))) w3)).
Proof.
  intros Hf Hp Hs Ho Hsd Hed Hrange Hr w3 Hu.
  unfold handleCreateObject. apply run_returned.
  erewrite and_then_await by (apply validateUniqueProjectByName_answers; assumption).
  rewrite Hp, one_of_one, and_then_proceed.
  erewrite and_then_await
    by (apply validateUniqueStageByName_answers; apply faults_after_call; assumption).
  cbn [tables after_call]. rewrite Hs, one_of_one, and_then_proceed.
  erewrite and_then_await
    by (apply validateUniqueObjectByName_scoped_answers;
        do 2 apply faults_after_call; assumption).
  cbn [tables after_call]. rewrite Ho, one_of_none, and_then_proceed.
  erewrite and_then_run by (apply date_argument_fine; auto).
  erewrite and_then_run by (apply date_argument_fine; auto).
  rewrite Hrange. cbn [negb]. rewrite and_then_proceed.
  apply and_then_stop. unfold resolve_responsible. rewrite Hr.
  fold w3.
  destruct (searchUsersByQuery (trim (String_ (arg args "responsible_name"))) w3)
    as [users w4] eqn:E.
  cbn [fst snd] in *. subst users.
  erewrite and_then_await by exact E. reflexivity.
Qed.

(* ================================================================== *)
(** ** Person search *)
(* ================================================================== *)

Lemma like_meta_backslash c : (c =? 92)%N = true -> is_like_meta c = true.
Proof.
  intros E. unfold is_like_meta. rewrite E. apply orb_true_r.
Qed.

Lemma well_escaped_escape_like s : well_escaped (escape_like s) = true.
Proof.
  induction s as [|c s IH]; [reflexivity|].
  unfold escape_like in *. cbn [flat_map].
  destruct (is_like_meta c) eqn:Em; cbn [app well_escaped].
  - cbn [N.eqb Pos.eqb]. rewrite Em, IH. reflexivity.
  - destruct (c =? 92)%N eqn:Eb.
    + apply like_meta_backslash in Eb. congruence.
    + rewrite Em, IH. reflexivity.
Qed.

Lemma unescape_escape_like s : unescape (escape_like s) = s.
Proof.
  induction s as [|c s IH]; [reflexivity|].
  unfold escape_like in *. cbn [flat_map].
  destruct (is_like_meta c) eqn:Em; cbn [app unescape].
  - cbn [N.eqb Pos.eqb]. rewrite IH. reflexivity.
  - destruct (c =? 92)%N eqn:Eb.
    + apply like_meta_backslash in Eb. congruence.
    + rewrite IH. reflexivity.
Qed.

Lemma split_ws_from_nonempty gap s : 1 <= List.length (split_ws_from gap s).
Proof.
  revert gap. induction s as [|c s IH]; intros gap; cbn [split_ws_from].
  - cbn. lia.
  - destruct (is_whitespace c).
    + destruct gap; [apply IH | cbn [List.length]; lia].
    + specialize (IH false). destruct (split_ws_from false s); cbn [List.length] in *; lia.
Qed.

(** A query with a space in it splits into two words at least: the test
    [words.length >= 2] never fails. *)
Lemma split_whitespace_two_words s :
  includes s 32 = true -> 2 <= List.length (split_whitespace s).
Proof.
  unfold includes, split_whitespace.
  induction s as [|c s IH]; cbn [existsb split_ws_from]; [discriminate|].
  intros Hin. destruct (is_whitespace c) eqn:Ew.
  - pose proof (split_ws_from_nonempty true s). cbn [List.length]. lia.
  - destruct (32 =? c)%N eqn:E.
    + apply N.eqb_eq in E. subst c. discriminate Ew.
    + cbn [orb] in Hin. specialize (IH Hin).
      destruct (split_ws_from false s); cbn [List.length] in *; lia.
Qed.

Lemma searchTerms_clauses cleanQuery :
  searchTerms cleanQuery
  = single_field_clauses cleanQuery
    ++ (if includes cleanQuery 32
        then name_pair_clauses (escape_like (nth 0 (split_whitespace cleanQuery) []))
                               (escape_like (nth 1 (split_whitespace cleanQuery) []))
        else []).
Proof.
  unfold searchTerms. destruct (includes cleanQuery 32) eqn:E; [|reflexivity].
  cbv zeta.
  rewrite (proj2 (Nat.leb_le _ _) (split_whitespace_two_words _ E)). reflexivity.
Qed.

Lemma searchUsersByQuery_too_long (P : Platform) query w :
  50 < strlen (escape_like (trim query)) ->
  searchUsersByQuery query w = ([], w).
Proof.
  intros Hl. unfold searchUsersByQuery.
  destruct (escape_like (trim query)) as [|c s] eqn:E.
  - cbn in Hl. lia.
  - rewrite (proj2 (Nat.ltb_lt _ _) Hl). reflexivity.
Qed.

Lemma searchUsersByQuery_searches (P : Platform) query w :
  escape_like (trim query) <> [] ->
  strlen (escape_like (trim query)) <= 50 ->
  faults w = [] ->
  searchUsersByQuery query w
  = (firstn 50
       (filter (fun u => is_active u
                         && or_filter (join (lit ",") (searchTerms (escape_like (trim query)))) u)
               (view_users (tables w))),
     after_call (selecting T_view_users) w).
Proof.
  intros Hne Hl Hf. unfold searchUsersByQuery.
  destruct (escape_like (trim query)) as [|c s] eqn:E; [congruence|].
  rewrite (proj2 (Nat.ltb_ge _ _) Hl).
  erewrite bind_run by (apply select_answers; assumption). reflexivity.
Qed.

Lemma searchUsersByQuery_empty (P : Platform) query w :
  escape_like (trim query) = [] ->
  faults w = [] ->
  searchUsersByQuery query w
  = (firstn 50 (filter is_active (view_users (tables w))),
     after_call (selecting T_view_users) w).
Proof.
  intros E Hf. unfold searchUsersByQuery. rewrite E.
  erewrite bind_run by (apply select_answers; assumption). reflexivity.
Qed.

Lemma searchUsersByQuery_capped (P : Platform) query w :
  List.length (fst (searchUsersByQuery query w)) <= 50.
Proof.
  unfold searchUsersByQuery.
  destruct (escape_like (trim query)) as [|c s].
  - match goal with |- context [select ?t ?q] =>
      destruct (select_cases t q w) as [[msg E] | E] end;
      erewrite bind_run by exact E; cbn [ret fst rows_unless_error pg_error pg_ok error data].
    + cbn. lia.
    + apply firstn_le_length.
  - destruct (50 <? strlen (c :: s)).
    + cbn. lia.
    + match goal with |- context [select ?t ?q] =>
        destruct (select_cases t q w) as [[msg E] | E] end;
        erewrite bind_run by exact E;
        cbn [ret fst rows_unless_error pg_error pg_ok error data].
      * cbn. lia.
      * apply firstn_le_length.
Qed.

(** C5, as the code has it.  The query is trimmed and its [%], [_] and
    backslash characters are escaped before it is put into a clause.  An
    escaped query of more than 50 code units is rejected without a call on
    the store.  An empty one lists the active users.  Otherwise the four
    single-field clauses are joined into one [or] filter, together with
    the two first-name/last-name clauses (built from the first two words,
    escaped again) exactly when the escaped query contains a space
    (U+0020).  At most 50 users are returned in every case. *)
Theorem searchUsersByQuery_builds_the_filter :
  forall (P : Platform) (query : jsstring) (w : World),
    let cleanQuery := escape_like (trim query) in
    let words := split_whitespace cleanQuery in
    let terms :=
      single_field_clauses cleanQuery
      ++ (if includes cleanQuery 32
          then name_pair_clauses (escape_like (nth 0 words []))
                                 (escape_like (nth 1 words []))
          else []) in
    (well_escaped cleanQuery = true /\ unescape cleanQuery = trim query)
    /\ forallb well_escaped (map escape_like words) = true
    /\ (50 < strlen cleanQuery -> searchUsersByQuery query w = ([], w))
    /\ (cleanQuery <> [] -> strlen cleanQuery <= 50 -> faults w = [] ->
        searchUsersByQuery query w
        = (firstn 50 (filter (fun u => is_active u && or_filter (join (lit ",") terms) u)
                             (view_users (tables w))),
           after_call (selecting T_view_users) w))
    /\ (cleanQuery = [] -> faults w = [] ->
        searchUsersByQuery query w
        = (firstn 50 (filter is_active (view_users (tables w))),
           after_call (selecting T_view_users) w))
    /\ List.length (fst (searchUsersByQuery query w)) <= 50.
Proof.
  intros P query w cleanQuery words terms.
  split; [split; [apply well_escaped_escape_like | apply unescape_escape_like]|].
  split.
  { apply forallb_forall. intros x Hx. apply in_map_iff in Hx as (y & <- & _).
    apply well_escaped_escape_like. }
  split; [apply searchUsersByQuery_too_long|].
  split.
  { intros Hne Hl Hf. subst terms words.
    rewrite <- searchTerms_clauses. apply searchUsersByQuery_searches; assumption. }
  split; [apply searchUsersByQuery_empty | apply searchUsersByQuery_capped].
Qed.

(* ================================================================== *)
(** ** Computations that only read *)
(* ================================================================== *)


Lemma reads_only_ret {A} (a : A) : reads_only (ret a).
Proof. intros w. reflexivity. Qed.

Lemma reads_only_bind {A B} (m : M A) (k : A -> M B) :
  reads_only m -> (forall a, reads_only (k a)) -> reads_only (bind m k).
Proof.
  intros Hm Hk w. unfold bind. specialize (Hm w).
  destruct (m w) as [a w1]. cbn [snd] in Hm. rewrite Hk. assumption.
Qed.

Lemma reads_only_select {A} (t : Table) (q : Tables -> PgResult A) :
  reads_only (select t q).
Proof.
  intros w. destruct (select_cases t q w) as [[msg E] | E]; rewrite E; reflexivity.
Qed.

Lemma reads_only_await {A} (m : M A) : reads_only m -> reads_only (await m).
Proof.
  intros Hm. unfold await. apply reads_only_bind; [assumption|].
  intros a. apply reads_only_ret.
Qed.

Lemma reads_only_proceed {A} (a : A) : reads_only (proceed a).
Proof. apply reads_only_ret. Qed.

Lemma reads_only_return {A} (r : ToolResult) : reads_only (@return_ A r).
Proof. apply reads_only_ret. Qed.

Lemma reads_only_and_then {A B} (h : H A) (k : A -> H B) :
  reads_only h -> (forall a, reads_only (k a)) -> reads_only (and_then h k).
Proof.
  intros Hh Hk. unfold and_then. apply reads_only_bind; [assumption|].
  intros [r|a]; [apply reads_only_ret | apply Hk].
Qed.

Lemma reads_only_if {A} (b : bool) (m1 m2 : M A) :
  reads_only m1 -> reads_only m2 -> reads_only (if b then m1 else m2).
Proof. destruct b; auto. Qed.

#[local] Hint Resolve reads_only_ret reads_only_select reads_only_await
  reads_only_proceed reads_only_return reads_only_if : reads.
#[local] Hint Extern 2 (reads_only (bind _ _)) =>
  apply reads_only_bind; [|intro] : reads.
#[local] Hint Extern 2 (reads_only (and_then _ _)) =>
  apply reads_only_and_then; [|intro] : reads.
#[local] Hint Extern 3 (reads_only (match ?x with _ => _ end)) => destruct x : reads.


Lemma reads_only_findProjectByNameExact name : reads_only (findProjectByNameExact name).
Proof. unfold findProjectByNameExact. reads. Qed.

Lemma reads_only_findStageByNameExact name projectId :
  reads_only (findStageByNameExact name projectId).
Proof. unfold findStageByNameExact. reads. Qed.

Lemma reads_only_findObjectByNameExact name projectId stageId :
  reads_only (findObjectByNameExact name projectId stageId).
Proof. unfold findObjectByNameExact. reads. Qed.

Lemma reads_only_findSectionByNameExact name projectId objectId :
  reads_only (findSectionByNameExact name projectId objectId).
Proof. unfold findSectionByNameExact. reads. Qed.

Lemma reads_only_validateUniqueObjectByNameForUpdate name stageId excludeId :
  reads_only (validateUniqueObjectByNameForUpdate name stageId excludeId).
Proof. unfold validateUniqueObjectByNameForUpdate. reads. Qed.

Lemma reads_only_validateUniqueSectionByNameForUpdate name objectId excludeId :
  reads_only (validateUniqueSectionByNameForUpdate name objectId excludeId).
Proof. unfold validateUniqueSectionByNameForUpdate. reads. Qed.

Lemma reads_only_searchUsersByQuery (P : Platform) query :
  reads_only (searchUsersByQuery query).
Proof.
  unfold searchUsersByQuery. destruct (escape_like (trim query)); reads.
Qed.

Lemma reads_only_validateProjectExists projectId : reads_only (validateProjectExists projectId).
Proof. unfold validateProjectExists. reads. Qed.

Lemma reads_only_validateStageExists stageId : reads_only (validateStageExists stageId).
Proof. unfold validateStageExists. reads. Qed.

Lemma reads_only_validateObjectExists objectId : reads_only (validateObjectExists objectId).
Proof. unfold validateObjectExists. reads. Qed.

Lemma reads_only_validateSectionExists sectionId : reads_only (validateSectionExists sectionId).
Proof. unfold validateSectionExists. reads. Qed.

Lemma reads_only_validateUserExists userId : reads_only (validateUserExists userId).
Proof. unfold validateUserExists. reads. Qed.

#[local] Hint Resolve reads_only_findProjectByNameExact reads_only_findStageByNameExact
  reads_only_findObjectByNameExact reads_only_findSectionByNameExact
  reads_only_validateUniqueObjectByNameForUpdate
  reads_only_validateUniqueSectionByNameForUpdate reads_only_searchUsersByQuery
  reads_only_validateProjectExists reads_only_validateStageExists
  reads_only_validateObjectExists reads_only_validateSectionExists
  reads_only_validateUserExists : reads.

Lemma reads_only_given_but_missing v exists_ :
  (forall x, reads_only (exists_ x)) -> reads_only (given_but_missing v exists_).
Proof. intros Hx. unfold given_but_missing. destruct v; reads. Qed.

Lemma reads_only_date_argument raw prepare which :
  reads_only (date_argument raw prepare which).
Proof. unfold date_argument. reads. Qed.

Lemma reads_only_resolve_responsible (P : Platform) raw display hint :
  reads_only (resolve_responsible raw display hint).
Proof.
  unfold resolve_responsible. destruct (truthy raw); reads.
Qed.

Lemma reads_only_object_new_name args currentName object :
  reads_only (object_new_name args currentName object).
Proof. unfold object_new_name. reads. Qed.

Lemma reads_only_section_new_name args currentName section :
  reads_only (section_new_name args currentName section).
Proof. unfold section_new_name. reads. Qed.

#[local] Hint Resolve reads_only_given_but_missing reads_only_date_argument
  reads_only_resolve_responsible reads_only_object_new_name
  reads_only_section_new_name : reads.

Lemma reads_only_object_update_data (P : Platform) args currentName projectName project object :
  reads_only (object_update_data args currentName projectName project object).
Proof. unfold object_update_data. reads. Qed.

Lemma reads_only_section_update_data (P : Platform) args currentName section :
  reads_only (section_update_data args currentName section).
Proof. unfold section_update_data. reads. Qed.

(* ================================================================== *)
(** ** The date range of an update *)
(* ================================================================== *)

Lemma and_then_inv {A B} (h : H A) (k : A -> H B) w b w' :
  and_then h k w = (inr b, w') ->
  exists a w1, h w = (inr a, w1) /\ k a w1 = (inr b, w').
Proof.
  unfold and_then, bind. destruct (h w) as [[r|a] w1]; cbn [ret].
  - discriminate.
  - intros E. exists a, w1. auto.
Qed.

Lemma date_argument_inv raw which w d w' :
  date_argument raw (fun s => s) which w = (inr d, w') ->
  w' = w /\ d = date_given raw /\ (d = None \/ truthy d = true).
Proof.
  unfold date_argument, date_given.
  destruct (truthy raw); cbn [negb].
  - destruct (truthy (parseDate (Some (String_ raw)))) eqn:Et; cbn [negb].
    + intros E. injection E as <- <-. auto.
    + discriminate.
  - intros E. injection E as <- <-. auto.
Qed.

(** A falsy date counts as absent, with or without [|| null]. *)
Lemma validateDateRange_or_null (P : Platform) a b :
  validateDateRange (or_else a None) (or_else b None) = validateDateRange a b.
Proof.
  unfold validateDateRange, or_else.
  destruct (truthy a) eqn:Ea, (truthy b) eqn:Eb; cbn [truthy negb orb];
    rewrite ?Ea, ?Eb; reflexivity.
Qed.

Lemma validateDateRange_inverted (P : Platform) s e a b :
  truthy s = true -> truthy e = true ->
  Date_value (String_ s) = Some a -> Date_value (String_ e) = Some b ->
  (b < a)%Z ->
  validateDateRange s e = false.
Proof.
  intros Hs He Ha Hb Hlt. unfold validateDateRange.
  rewrite Hs, He, Ha, Hb. cbn [negb orb]. apply Z.leb_gt. assumption.
Qed.

Lemma object_update_data_inv (P : Platform) args currentName projectName project object
      w ud w1 :
  object_update_data args currentName projectName project object w = (inr ud, w1) ->
  ObjectUpdate.object_id ud = object_id object
  /\ ObjectUpdate.object_start_date ud = date_given (arg args "start_date")
  /\ ObjectUpdate.object_end_date ud = date_given (arg args "end_date")
  /\ (ObjectUpdate.object_start_date ud = None
      \/ truthy (ObjectUpdate.object_start_date ud) = true)
  /\ (ObjectUpdate.object_end_date ud = None
      \/ truthy (ObjectUpdate.object_end_date ud) = true).
Proof.
  unfold object_update_data. intros E.
  apply and_then_inv in E as (newName & w2 & _ & E).
  apply and_then_inv in E as (newStageId & w3 & _ & E).
  apply and_then_inv in E as (responsible & w4 & _ & E).
  apply and_then_inv in E as (startDate & w5 & Es & E).
  apply and_then_inv in E as (endDate & w6 & Ee & E).
  apply date_argument_inv in Es as (_ & Es & Hs).
  apply date_argument_inv in Ee as (_ & Ee & He).
  injection E as <- _. cbn. subst. auto.
Qed.

Lemma section_update_data_inv (P : Platform) args currentName section w ud w1 :
  section_update_data args currentName section w = (inr ud, w1) ->
  SectionUpdate.section_id ud = section_id section
  /\ SectionUpdate.section_start_date ud = date_given (arg args "start_date")
  /\ SectionUpdate.section_end_date ud = date_given (arg args "end_date")
  /\ (SectionUpdate.section_start_date ud = None
      \/ truthy (SectionUpdate.section_start_date ud) = true)
  /\ (SectionUpdate.section_end_date ud = None
      \/ truthy (SectionUpdate.section_end_date ud) = true).
Proof.
  unfold section_update_data. intros E.
  apply and_then_inv in E as (newName & w2 & _ & E).
  apply and_then_inv in E as (responsible & w4 & _ & E).
  apply and_then_inv in E as (startDate & w5 & Es & E).
  apply and_then_inv in E as (endDate & w6 & Ee & E).
  apply date_argument_inv in Es as (_ & Es & Hs).
  apply date_argument_inv in Ee as (_ & Ee & He).
  injection E as <- _. cbn. subst. auto.
Qed.

Lemma object_commit_rejects (P : Platform) currentName projectName object ud w a b :
  let effStart := or_else (ObjectUpdate.object_start_date ud) (object_start_date object) in
  let effEnd := or_else (ObjectUpdate.object_end_date ud) (object_end_date object) in
  truthy effStart = true -> truthy effEnd = true ->
  Date_value (String_ effStart) = Some a -> Date_value (String_ effEnd) = Some b ->
  (b < a)%Z ->
  object_commit currentName projectName object ud w = (inl inverted_range, w).
Proof.
  intros effStart effEnd Hs He Ha Hb Hlt. unfold object_commit.
  fold effStart effEnd.
  rewrite validateDateRange_or_null.
  rewrite (validateDateRange_inverted P _ _ a b) by assumption.
  reflexivity.
Qed.

Lemma section_commit_rejects (P : Platform) currentName projectName section ud w a b :
  let effStart :=
    or_else (SectionUpdate.section_start_date ud) (section_start_date section) in
  let effEnd := or_else (SectionUpdate.section_end_date ud) (section_end_date section) in
  truthy effStart = true -> truthy effEnd = true ->
  Date_value (String_ effStart) = Some a -> Date_value (String_ effEnd) = Some b ->
  (b < a)%Z ->
  section_commit currentName projectName section ud w = (inl inverted_range, w).
Proof.
  intros effStart effEnd Hs He Ha Hb Hlt. unfold section_commit.
  fold effStart effEnd.
  rewrite validateDateRange_or_null.
  rewrite (validateDateRange_inverted P _ _ a b) by assumption.
  reflexivity.
Qed.

(** What follows a step that only reads starts from the same tables. *)
Lemma bind_reads_then {A B} (m : M A) (k : A -> M B) (R : Tables -> Prop) T w :
  tables w = T -> reads_only m ->
  (forall a w1, tables w1 = T -> R (tables (snd (k a w1)))) ->
  R (tables (snd (bind m k w))).
Proof.
  intros HT Hm Hk. unfold bind. specialize (Hm w).
  destruct (m w) as [a w1]. cbn [snd] in Hm. apply Hk. congruence.
Qed.

Lemma and_then_reads_then {A B} (h : H A) (k : A -> H B) (R : Tables -> Prop) T w :
  tables w = T -> reads_only h -> R T ->
  (forall a w1, h w = (inr a, w1) -> tables w1 = T -> R (tables (snd (k a w1)))) ->
  R (tables (snd (and_then h k w))).
Proof.
  intros HT Hh HR Hk. unfold and_then, bind. specialize (Hh w).
  destruct (h w) as [[r|a] w1] eqn:E; cbn [snd] in Hh.
  - cbn [ret snd]. rewrite Hh, HT. assumption.
  - apply Hk; [reflexivity | congruence].
Qed.

Lemma run_tables (h : H ToolResult) w : snd (run h w) = snd (h w).
Proof. unfold run, bind. destruct (h w) as [[r|r] w1]; reflexivity. Qed.

Lemma await_inv {A} (m : M A) w a w1 :
  await m w = (inr a, w1) -> m w = (a, w1).
Proof.
  unfold await, bind. destruct (m w) as [a' w']. cbn [ret].
  intros E. injection E as <- <-. reflexivity.
Qed.

(** [updateObject] leaves the tables as they are, or applies the update to
    the rows of [objects]. *)
Lemma updateObject_tables input w :
  tables (snd (updateObject input w)) = tables w
  \/ tables (snd (updateObject input w))
     = set_objects (map (apply_object_update input) (objects (tables w))) (tables w).
Proof.
  set (R := fun T' : Tables =>
              T' = tables w
              \/ T' = set_objects (map (apply_object_update input) (objects (tables w))) (tables w)).
  change (R (tables (snd (updateObject input w)))).
  unfold updateObject.
  apply (bind_reads_then _ _ R (tables w)); [reflexivity | reads |].
  intros e w1 H1. destruct (negb e); [left; exact H1|].
  apply (bind_reads_then _ _ R (tables w)); [assumption | reads |].
  intros p w2 H2. destruct p; [left; exact H2|].
  apply (bind_reads_then _ _ R (tables w)); [assumption | reads |].
  intros s w3 H3. destruct s; [left; exact H3|].
  apply (bind_reads_then _ _ R (tables w)); [assumption | reads |].
  intros u w4 H4. destruct u; [left; exact H4|].
  unfold bind.
  match goal with |- context [call ?c ?exec w4] =>
    destruct (call_cases c exec w4) as [[msg E] | E]; rewrite E end;
    cbn [ret snd fst tables after_call with_tables].
  - left. exact H4.
  - right. rewrite H4. reflexivity.
Qed.

Lemma updateSection_tables input w :
  tables (snd (updateSection input w)) = tables w
  \/ tables (snd (updateSection input w))
     = set_sections (map (apply_section_update input) (sections (tables w))) (tables w).
Proof.
  set (R := fun T' : Tables =>
              T' = tables w
              \/ T' = set_sections (map (apply_section_update input) (sections (tables w))) (tables w)).
  change (R (tables (snd (updateSection input w)))).
  unfold updateSection.
  apply (bind_reads_then _ _ R (tables w)); [reflexivity | reads |].
  intros e w1 H1. destruct (negb e); [left; exact H1|].
  apply (bind_reads_then _ _ R (tables w)); [assumption | reads |].
  intros p w2 H2. destruct p; [left; exact H2|].
  apply (bind_reads_then _ _ R (tables w)); [assumption | reads |].
  intros s w3 H3. destruct s; [left; exact H3|].
  apply (bind_reads_then _ _ R (tables w)); [assumption | reads |].
  intros u w4 H4. destruct u; [left; exact H4|].
  unfold bind.
  match goal with |- context [call ?c ?exec w4] =>
    destruct (call_cases c exec w4) as [[msg E] | E]; rewrite E end;
    cbn [ret snd fst tables after_call with_tables].
  - left. exact H4.
  - right. rewrite H4. reflexivity.
Qed.

Lemma same_key_same_row {A} (key : A -> Id) (l : list A) (a b : A) :
  NoDup (map key l) -> In a l -> In b l -> key a = key b -> a = b.
Proof.
  induction l as [|x l IH]; cbn [map In]; intros Hnd Ha Hb Hk; [contradiction|].
  inversion Hnd as [|? ? Hnot Hnd']; subst.
  destruct Ha as [<-|Ha], Hb as [<-|Hb]; auto.
  - exfalso. apply Hnot. rewrite Hk. apply in_map. assumption.
  - exfalso. apply Hnot. rewrite <- Hk. apply in_map. assumption.
Qed.

Lemma updated_opt_or_else (new old : option jsstring) :
  new = None \/ truthy new = true -> updated_opt new old = or_else new old.
Proof.
  intros [->|Ht]; [reflexivity|].
  unfold or_else. rewrite Ht. destruct new; [reflexivity | discriminate].
Qed.

(** The rows of [objects] after the commit step: those that were there, or
    rows whose date range passed the check. *)
Lemma object_commit_keeps_ranges (P : Platform) currentName projectName object ud w :
  NoDup (map object_id (objects (tables w))) ->
  In object (objects (tables w)) ->
  ObjectUpdate.object_id ud = object_id object ->
  (ObjectUpdate.object_start_date ud = None
   \/ truthy (ObjectUpdate.object_start_date ud) = true) ->
  (ObjectUpdate.object_end_date ud = None
   \/ truthy (ObjectUpdate.object_end_date ud) = true) ->
  forall o',
    In o' (objects (tables (snd (object_commit currentName projectName object ud w)))) ->
    In o' (objects (tables w))
    \/ validateDateRange (object_start_date o') (object_end_date o') = true.
Proof.
  intros Hnd Hin Hid Hs He o'. unfold object_commit.
  rewrite validateDateRange_or_null.
  destruct (validateDateRange _ _) eqn:V; cbn [negb].
  2:{ rewrite and_then_return. cbn [snd]. auto. }
  rewrite and_then_proceed.
  unfold and_then, await, bind.
  destruct (updateObject ud w) as [result w'] eqn:E. cbn [ret].
  match goal with |- In o' (objects (tables (snd ?t))) -> _ =>
    replace (snd t) with w' by (destruct (negb (success result)); reflexivity) end.
  pose proof (updateObject_tables ud w) as Hu. rewrite E in Hu. cbn [snd] in Hu.
  destruct Hu as [Hu|Hu]; rewrite Hu; [auto|].
  cbn [objects set_objects]. intros Ho'.
  apply in_map_iff in Ho' as (r & <- & Hr).
  unfold apply_object_update.
  destruct (Pos.eqb (object_id r) (ObjectUpdate.object_id ud)) eqn:Eid; [|auto].
  right. apply Pos.eqb_eq in Eid. rewrite Hid in Eid.
  assert (r = object) by (eapply same_key_same_row; eauto). subst r.
  cbn [object_start_date object_end_date].
  rewrite !updated_opt_or_else by assumption. exact V.
Qed.

Lemma section_commit_keeps_ranges (P : Platform) currentName projectName section ud w :
  NoDup (map section_id (sections (tables w))) ->
  In section (sections (tables w)) ->
  SectionUpdate.section_id ud = section_id section ->
  (SectionUpdate.section_start_date ud = None
   \/ truthy (SectionUpdate.section_start_date ud) = true) ->
  (SectionUpdate.section_end_date ud = None
   \/ truthy (SectionUpdate.section_end_date ud) = true) ->
  forall s',
    In s' (sections (tables (snd (section_commit currentName projectName section ud w)))) ->
    In s' (sections (tables w))
    \/ validateDateRange (section_start_date s') (section_end_date s') = true.
Proof.
  intros Hnd Hin Hid Hs He s'. unfold section_commit.
  rewrite validateDateRange_or_null.
  destruct (validateDateRange _ _) eqn:V; cbn [negb].
  2:{ rewrite and_then_return. cbn [snd]. auto. }
  rewrite and_then_proceed.
  unfold and_then, await, bind.
  destruct (updateSection ud w) as [result w'] eqn:E. cbn [ret].
  match goal with |- In s' (sections (tables (snd ?t))) -> _ =>
    replace (snd t) with w' by (destruct (negb (success result)); reflexivity) end.
  pose proof (updateSection_tables ud w) as Hu. rewrite E in Hu. cbn [snd] in Hu.
  destruct Hu as [Hu|Hu]; rewrite Hu; [auto|].
  cbn [sections set_sections]. intros Hs'.
  apply in_map_iff in Hs' as (r & <- & Hr).
  unfold apply_section_update.
  destruct (Pos.eqb (section_id r) (SectionUpdate.section_id ud)) eqn:Eid; [|auto].
  right. apply Pos.eqb_eq in Eid. rewrite Hid in Eid.
  assert (r = section) by (eapply same_key_same_row; eauto). subst r.
  cbn [section_start_date section_end_date].
  rewrite !updated_opt_or_else by assumption. exact V.
Qed.

(** Every row of [objects] after [update_object] was there before, or has
    a date range that passed the check. *)
Lemma handleUpdateObject_keeps_ranges (P : Platform) args w :
  NoDup (map object_id (objects (tables w))) ->
  forall o',
    In o' (objects (tables (snd (handleUpdateObject args w)))) ->
    In o' (objects (tables w))
    \/ validateDateRange (object_start_date o') (object_end_date o') = true.
Proof.
  intros Hnd o'.
  set (R := fun T' : Tables =>
              In o' (objects T') ->
              In o' (objects (tables w))
              \/ validateDateRange (object_start_date o') (object_end_date o') = true).
  change (R (tables (snd (handleUpdateObject args w)))).
  assert (HR : R (tables w)) by (unfold R; auto).
  unfold handleUpdateObject. rewrite run_tables.
  apply (and_then_reads_then _ _ R (tables w)); [reflexivity | reads | exact HR |].
  intros found_project w1 _ H1.
  apply (and_then_reads_then _ _ R (tables w)); [assumption | reads | exact HR |].
  intros project w2 _ H2.
  apply (and_then_reads_then _ _ R (tables w)); [assumption | reads | exact HR |].
  intros stageId w3 _ H3.
  apply (and_then_reads_then _ _ R (tables w)); [assumption | reads | exact HR |].
  intros found_object w4 Ef H4. apply await_inv in Ef.
  apply (and_then_reads_then _ _ R (tables w)); [assumption | reads | exact HR |].
  intros object w5 Eo H5.
  destruct found_object as [o|]; [|discriminate Eo].
  injection Eo as Eo Ew. subst o w5.
  apply findObjectByNameExact_found in Ef as (Hin & _ & _ & _).
  apply (and_then_reads_then _ _ R (tables w));
    [assumption | apply reads_only_object_update_data | exact HR |].
  intros ud w6 Eu H6.
  apply object_update_data_inv in Eu as (Hid & _ & _ & Hs & He).
  unfold R. intros Ho'. rewrite <- H6.
  eapply object_commit_keeps_ranges; try eassumption.
  - rewrite H6. assumption.
  - rewrite H6, <- H3. assumption.
Qed.

Lemma handleUpdateSection_keeps_ranges (P : Platform) args w :
  NoDup (map section_id (sections (tables w))) ->
  forall s',
    In s' (sections (tables (snd (handleUpdateSection args w)))) ->
    In s' (sections (tables w))
    \/ validateDateRange (section_start_date s') (section_end_date s') = true.
Proof.
  intros Hnd s'.
  set (R := fun T' : Tables =>
              In s' (sections T') ->
              In s' (sections (tables w))
              \/ validateDateRange (section_start_date s') (section_end_date s') = true).
  change (R (tables (snd (handleUpdateSection args w)))).
  assert (HR : R (tables w)) by (unfold R; auto).
  unfold handleUpdateSection. rewrite run_tables.
  apply (and_then_reads_then _ _ R (tables w)); [reflexivity | reads | exact HR |].
  intros found_project w1 _ H1.
  apply (and_then_reads_then _ _ R (tables w)); [assumption | reads | exact HR |].
  intros project w2 _ H2.
  apply (and_then_reads_then _ _ R (tables w)); [assumption | reads | exact HR |].
  intros objectId w3 _ H3.
  apply (and_then_reads_then _ _ R (tables w)); [assumption | reads | exact HR |].
  intros found_section w4 Ef H4. apply await_inv in Ef.
  apply (and_then_reads_then _ _ R (tables w)); [assumption | reads | exact HR |].
  intros section w5 Eo H5.
  destruct found_section as [s|]; [|discriminate Eo].
  injection Eo as Eo Ew. subst s w5.
  apply findSectionByNameExact_found in Ef as (Hin & _ & _ & _).
  apply (and_then_reads_then _ _ R (tables w));
    [assumption | apply reads_only_section_update_data | exact HR |].
  intros ud w6 Eu H6.
  apply section_update_data_inv in Eu as (Hid & _ & _ & Hs & He).
  unfold R. intros Hs'. rewrite <- H6.
  eapply section_commit_keeps_ranges; try eassumption.
  - rewrite H6. assumption.
  - rewrite H6, <- H3. assumption.
Qed.

(* ================================================================== *)
(** ** A rename to the current name, seen from the request *)
(* ================================================================== *)

Lemma arg_without_other key k args :
  k <> key -> arg (without key args) k = arg args k.
Proof.
  intros Hne. unfold without.
  induction args as [|[k' v] args IH]; [reflexivity|].
  cbn [filter fst arg] in *.
  destruct (String.eqb k' key) eqn:E; cbn [negb arg].
  - apply String.eqb_eq in E. subst k'.
    destruct (String.eqb key k) eqn:E'.
    + apply String.eqb_eq in E'. congruence.
    + exact IH.
  - rewrite IH. reflexivity.
Qed.

Lemma arg_without_same key args : arg (without key args) key = None.
Proof.
  unfold without.
  induction args as [|[k' v] args IH]; [reflexivity|].
  cbn [filter fst arg] in *.
  destruct (String.eqb k' key) eqn:E; cbn [negb arg]; [exact IH|].
  rewrite E. exact IH.
Qed.

Lemma handleUpdateObject_same_name (P : Platform) args w :
  trim (String_ (arg args "new_name")) = trim (String_ (arg args "current_name")) ->
  handleUpdateObject args w = handleUpdateObject (without "new_name" args) w.
Proof.
  intros Hsame.
  unfold handleUpdateObject, object_update_data, object_new_name.
  rewrite arg_without_same.
  rewrite !(arg_without_other "new_name") by discriminate. cbn [truthy].
  rewrite Hsame, str_eqb_refl. cbn [negb].
  destruct (truthy (arg args "new_name")); reflexivity.
Qed.

Lemma handleUpdateSection_same_name (P : Platform) args w :
  trim (String_ (arg args "new_name")) = trim (String_ (arg args "current_name")) ->
  handleUpdateSection args w = handleUpdateSection (without "new_name" args) w.
Proof.
  intros Hsame.
  unfold handleUpdateSection, section_update_data, section_new_name.
  rewrite arg_without_same.
  rewrite !(arg_without_other "new_name") by discriminate. cbn [truthy].
  rewrite Hsame, str_eqb_refl. cbn [negb].
  destruct (truthy (arg args "new_name")); reflexivity.
Qed.

(** C8. When the new name of an update request equals the current name of
    the entity the handler has looked up, the rename step makes no call on
    the store (the world, trace included, is unchanged), returns no early
    result - so no conflict - and leaves the name out of the update.  The
    whole handler then answers, and leaves the world, exactly as it does
    for the same request without a new name. *)
Theorem rename_to_current_name_skips_check :
  forall (P : Platform) (args : Args) (projectId : Id) (scope : option Id) (w w' : World),
    let currentName := trim (String_ (arg args "current_name")) in
    let newName := trim (String_ (arg args "new_name")) in
    (forall object,
        findObjectByNameExact currentName projectId scope w = (Some object, w') ->
        newName = object_name object ->
        object_new_name args currentName object w' = (inr None, w'))
    /\ (forall section,
        findSectionByNameExact currentName projectId scope w = (Some section, w') ->
        newName = section_name section ->
        section_new_name args currentName section w' = (inr None, w'))
    /\ (newName = currentName ->
        handleUpdateObject args w = handleUpdateObject (without "new_name" args) w
        /\ handleUpdateSection args w = handleUpdateSection (without "new_name" args) w).
Proof.
  intros P args projectId scope w w' currentName newName. split; [|split].
  - intros object Hfound Hname.
    apply findObjectByNameExact_found in Hfound as (_ & Hn & _).
    apply object_new_name_same.
    fold newName. rewrite Hname, Hn. unfold currentName. apply trim_idempotent.
  - intros section Hfound Hname.
    apply findSectionByNameExact_found in Hfound as (_ & Hn & _).
    apply section_new_name_same.
    fold newName. rewrite Hname, Hn. unfold currentName. apply trim_idempotent.
  - intros Hsame. split.
    + apply handleUpdateObject_same_name. exact Hsame.
    + apply handleUpdateSection_same_name. exact Hsame.
Qed.

(* ================================================================== *)
(** ** The claims about the handlers *)
(* ================================================================== *)



(** C6. An update of an object or of a section checks the date range
    made of the date the request gives where it gives one and of the stored
    date otherwise.  When both dates of that pair are present and the
    start is later than the end, the handler returns the inverted-range
    error without a call on the store; and whatever the request and the
    store do, every row of the table after the handler either was there
    before or has a range that passed the check. *)
Theorem partial_update_checks_effective_dates :
  forall (P : Platform) (args : Args) (w : World),
    (forall currentName projectName project object ud w1 a b,
        object_update_data args currentName projectName project object w = (inr ud, w1) ->
        let effStart :=
          or_else (date_given (arg args "start_date")) (object_start_date object) in
        let effEnd :=
          or_else (date_given (arg args "end_date")) (object_end_date object) in
        truthy effStart = true -> truthy effEnd = true ->
        Date_value (String_ effStart) = Some a ->
        Date_value (String_ effEnd) = Some b ->
        (b < a)%Z ->
        object_commit currentName projectName object ud w1 = (inl inverted_range, w1))
    /\ (forall currentName projectName section ud w1 a b,
        section_update_data args currentName section w = (inr ud, w1) ->
        let effStart :=
          or_else (date_given (arg args "start_date")) (section_start_date section) in
        let effEnd :=
          or_else (date_given (arg args "end_date")) (section_end_date section) in
        truthy effStart = true -> truthy effEnd = true ->
        Date_value (String_ effStart) = Some a ->
        Date_value (String_ effEnd) = Some b ->
        (b < a)%Z ->
        section_commit currentName projectName section ud w1 = (inl inverted_range, w1))
    /\ (NoDup (map object_id (objects (tables w))) ->
        forall o',
          In o' (objects (tables (snd (handleUpdateObject args w)))) ->
          In o' (objects (tables w))
          \/ validateDateRange (object_start_date o') (object_end_date o') = true)
    /\ (NoDup (map section_id (sections (tables w))) ->
        forall s',
          In s' (sections (tables (snd (handleUpdateSection args w)))) ->
          In s' (sections (tables w))
          \/ validateDateRange (section_start_date s') (section_end_date s') = true).
Proof.
  intros P args w. split; [|split; [|split]].
  - intros currentName projectName project object ud w1 a b Eu effStart effEnd
           Hs He Ha Hb Hlt.
    apply object_update_data_inv in Eu as (_ & Es & Ee & _).
    apply (object_commit_rejects P _ _ _ _ _ a b); rewrite ?Es, ?Ee; assumption.
  - intros currentName projectName section ud w1 a b Eu effStart effEnd
           Hs He Ha Hb Hlt.
    apply section_update_data_inv in Eu as (_ & Es & Ee & _).
    apply (section_commit_rejects P _ _ _ _ _ a b); rewrite ?Es, ?Ee; assumption.
  - apply handleUpdateObject_keeps_ranges.
  - apply handleUpdateSection_keeps_ranges.
Qed.

(* ================================================================== *)
(** ** The code at concrete inputs *)
(* ================================================================== *)

(** C1, on the code.  In the store Tower A / Foundation / Block 1, the
    request to create the section Rebar Plan in Block 1, made twice,
    succeeds twice: the second call meets no uniqueness check and leaves
    two sections of that name in the object. *)
Theorem create_section_twice_inserts_duplicate :
  let (first, w1) := handleCreateSection (P := example_platform) create_rebar_plan
                       (world_of site_tables) in
  let (second, w2) := handleCreateSection (P := example_platform) create_rebar_plan w1 in
  first = text_result (lit "Раздел успешно создан" ++ newline ++ lit "Раздел "
                       ++ quoted (lit "Rebar Plan") ++ lit " успешно создан в объекте "
                       ++ quoted (lit "Block 1"))
  /\ second = first
  /\ map (fun s => (section_name s, section_object_id s)) (sections (tables w2))
     = [(lit "Rebar Plan", 1%positive); (lit "Rebar Plan", 1%positive)]
  /\ filter (fun c => match call_table c, call_verb c with
                      | T_sections, V_select => true
                      | _, _ => false
                      end) (trace w2) = [].
Proof. vm_compute. repeat split. Qed.


(** C3, as stated, fails: Tower A has four descendants, and every row
    names the project of its parent.  Once [updateStage] has moved the
    stage Foundation, with Block 1 and Rebar Plan below it, to Tower B,
    Tower A has one descendant, the stage Framing, and its deletion without
    cascade is refused with a message that cites three records. *)
Lemma moved_stage_is_still_counted :
  let (moved, w1) := updateStage move_foundation (world_of two_planned_projects) in
  let (result, w2) := deleteProject 1%positive false w1 in
  descendant_count two_planned_projects 1%positive = 4
  /\ project_references_agree two_planned_projects = true
  /\ success moved = true
  /\ project_references_agree (tables w1) = false
  /\ stages_of (tables w1) 1%positive = [framing]
  /\ descendant_count (tables w1) 1%positive = 1
  /\ success result = false
  /\ message result = dependents_message 3
  /\ tables w2 = tables w1.
Proof. vm_compute. repeat split. Qed.

(** C5, as stated, fails: a query with a tab between two words contains
    whitespace, is short enough, and gets the four single-field clauses
    only. *)
Lemma tab_query_gets_no_pair_clause :
  existsb is_whitespace tab_query = true
  /\ escape_like (trim tab_query) = tab_query
  /\ searchTerms (escape_like (trim tab_query)) = single_field_clauses tab_query
  /\ List.length (searchTerms (escape_like (trim tab_query))) = 4.
Proof. vm_compute. repeat split. Qed.

Example parseDate_sample :
  parseDate (Some (lit "05.11.2024")) = Some (lit "2024-11-05").
Proof. reflexivity. Qed.

Example parseDate_rejects_short_year : parseDate (Some (lit "05.11.24")) = None.
Proof. reflexivity. Qed.

Example lit_cyrillic : lit "Проект" = [1055; 1088; 1086; 1077; 1082; 1090]%N.
Proof. reflexivity. Qed.

Example split_whitespace_sample :
  split_whitespace (lit "ivan  petrov") = [lit "ivan"; lit "petrov"].
Proof. reflexivity. Qed.

(** The request that postpones the start of Block 1 behind its end is
    refused, and the store is only read. *)
Example postpone_block_1_refused :
  handleUpdateObject (P := example_platform) postpone_block_1 (world_of site_tables)
  = (inverted_range,
     after_call (selecting T_objects)
       (after_call (selecting T_projects) (world_of site_tables))).
Proof. vm_compute. reflexivity. Qed.

(* ================================================================== *)
(** ** The theorems at concrete inputs *)
(* ================================================================== *)


Lemma deleteProject_witness :
  (let (result, w') := deleteProject 1%positive false (world_of planned_tables) in
   success result = false
   /\ message result = dependents_message 4
   /\ tables w' = planned_tables
   /\ trace w' = [selecting T_projects; selecting T_sections;
                  selecting T_objects; selecting T_stages])
  /\ rows_naming planned_tables 1%positive = descendant_count planned_tables 1%positive.
Proof.
  split.
  - exact (proj1 (deleteProject_without_cascade_cites_rows_naming_project
                    1%positive (world_of planned_tables) tower_a eq_refl eq_refl)
                 (le_S _ _ (le_S _ _ (le_S _ _ (le_n 1))))).
  - exact (proj2 (proj2 (deleteProject_without_cascade_cites_rows_naming_project
                           1%positive (world_of planned_tables) tower_a eq_refl eq_refl))
                 eq_refl).
Defined.


Lemma long_query_witness :
  50 < strlen (escape_like (trim long_query))
  /\ searchUsersByQuery (P := example_platform) long_query (world_of site_tables)
     = ([], world_of site_tables).
Proof.
  split.
  - exact (le_n 51).
  - exact (proj1 (proj2 (proj2 (searchUsersByQuery_builds_the_filter
                                  example_platform long_query (world_of site_tables))))
                 (le_n 51)).
Defined.

Lemma postponed_start_witness :
  object_commit (P := example_platform) (lit "Block 1") (lit "Tower A") block_1
    postponed_start (world_of site_tables)
  = (inl inverted_range, world_of site_tables).
Proof.
  exact (proj1 (partial_update_checks_effective_dates
                  example_platform postpone_block_1 (world_of site_tables))
               (lit "Block 1") (lit "Tower A") tower_a block_1 postponed_start
               (world_of site_tables) 753146%Z 753144%Z
               eq_refl eq_refl eq_refl eq_refl eq_refl eq_refl).
Defined.

Lemma round_trip_witness :
  parseDate (Some (lit "05.11.2024")) = Some (lit "2024-11-05")
  /\ formatDateForDisplay (parseDate (Some (lit "05.11.2024"))) = lit "05.11.2024".
Proof.
  apply (parseDate_formatDateForDisplay_round_trip 5 11 2024); lia.
Defined.

Lemma rename_to_current_name_witness :
  object_new_name rename_block_1 (lit "Block 1") block_1
    (after_call (selecting T_objects) (world_of site_tables))
  = (inr None, after_call (selecting T_objects) (world_of site_tables)).
Proof.
  exact (proj1 (rename_to_current_name_skips_check
                  example_platform rename_block_1 1%positive None
                  (world_of site_tables)
                  (after_call (selecting T_objects) (world_of site_tables)))
               block_1 eq_refl eq_refl).
Defined.

Lemma twin_objects_witness :
  handleCreateSection (P := example_platform) create_rebar_plan (world_of twin_tables)
  = (text_result (lit "Найдено несколько объектов с названием " ++ quoted (lit "Block 1")
                  ++ lit ". Уточните название или используйте поиск объектов."),
     after_call (selecting T_objects) (world_of twin_tables))
  /\ tables (snd (handleCreateSection (P := example_platform) create_rebar_plan
                    (world_of twin_tables))) = twin_tables.
Proof.
  apply (create_section_ignores_stage_scope
           example_platform create_rebar_plan (world_of twin_tables)
           block_1 block_1_framing eq_refl
           (or_introl eq_refl) (or_intror (or_introl eq_refl)) eq_refl eq_refl).
  discriminate.
Defined.

Lemma outage_witness :
  faults (outage two_towers) = [Some (lit "connection lost")]
  /\ validateUniqueProjectByNameForUpdate (lit "Tower A") 1%positive (outage two_towers)
     = (unique, after_call (selecting T_projects) (outage two_towers)).
Proof.
  split.
  - reflexivity.
  - exact (proj1 (rename_checks_fail_open (lit "Tower A") 1%positive 1%positive
                    (outage two_towers) (lit "connection lost") [] eq_refl)).
Defined.

(* ================================================================== *)
(** * Further properties *)
(* ================================================================== *)

(* ================================================================== *)
(** ** What [parseDate] accepts *)
(* ================================================================== *)

Lemma digit_in_digits c : is_digit c = true -> In c digits.
Proof.
  unfold is_digit. intros Hd. apply andb_true_iff in Hd as [Hlo Hhi].
  apply N.leb_le in Hlo, Hhi. unfold digits. cbn [In].
  assert (H : (c = 48 \/ c = 49 \/ c = 50 \/ c = 51 \/ c = 52 \/ c = 53 \/ c = 54
               \/ c = 55 \/ c = 56 \/ c = 57)%N) by lia.
  intuition (subst; auto 12).
Qed.

Lemma written_back_days :
  forallb (fun d1 => forallb (written_back_2 1 31 d1) digits) digits = true.
Proof. vm_compute. reflexivity. Qed.

Lemma written_back_months :
  forallb (fun d1 => forallb (written_back_2 1 12 d1) digits) digits = true.
Proof. vm_compute. reflexivity. Qed.

Lemma written_back_years :
  forallb (fun d1 => forallb (fun d2 => forallb (fun d3 =>
    forallb (written_back_4 1900 2100 d1 d2 d3) digits) digits) digits) digits = true.
Proof. vm_compute. reflexivity. Qed.

Lemma written_back_2_inv lo hi d1 d2 :
  is_digit d1 = true -> is_digit d2 = true ->
  forallb (fun d1 => forallb (written_back_2 lo hi d1) digits) digits = true ->
  exists v, parseInt10 [d1; d2] = Some v
            /\ ((lo <= v <= hi)%Z -> two_digits (Z.to_nat v) = [d1; d2]).
Proof.
  intros H1 H2 Hall. rewrite forallb_forall in Hall.
  specialize (Hall d1 (digit_in_digits d1 H1)). rewrite forallb_forall in Hall.
  specialize (Hall d2 (digit_in_digits d2 H2)). unfold written_back_2 in Hall.
  destruct (parseInt10 [d1; d2]) as [v|]; [|discriminate].
  exists v. split; [reflexivity|]. intros Hv.
  replace ((lo <=? v) && (v <=? hi))%Z with true in Hall
    by (symmetry; apply andb_true_iff; split; apply Z.leb_le; lia).
  now apply str_eqb_eq.
Qed.

Lemma written_back_4_inv d1 d2 d3 d4 :
  is_digit d1 = true -> is_digit d2 = true -> is_digit d3 = true -> is_digit d4 = true ->
  exists v, parseInt10 [d1; d2; d3; d4] = Some v
            /\ ((1900 <= v <= 2100)%Z -> four_digits (Z.to_nat v) = [d1; d2; d3; d4]).
Proof.
  intros H1 H2 H3 H4. pose proof written_back_years as Hall.
  rewrite forallb_forall in Hall.
  specialize (Hall d1 (digit_in_digits d1 H1)). rewrite forallb_forall in Hall.
  specialize (Hall d2 (digit_in_digits d2 H2)). rewrite forallb_forall in Hall.
  specialize (Hall d3 (digit_in_digits d3 H3)). rewrite forallb_forall in Hall.
  specialize (Hall d4 (digit_in_digits d4 H4)). unfold written_back_4 in Hall.
  destruct (parseInt10 [d1; d2; d3; d4]) as [v|]; [|discriminate].
  exists v. split; [reflexivity|]. intros Hv.
  replace ((1900 <=? v) && (v <=? 2100))%Z with true in Hall
    by (symmetry; apply andb_true_iff; split; apply Z.leb_le; lia).
  now apply str_eqb_eq.
Qed.

Lemma trim_nil : trim [] = [].
Proof. reflexivity. Qed.

(** [parseDate] looks at the trimmed string only. *)
Lemma parseDate_trim s : trim s <> [] -> parseDate (Some s) = parseDate (Some (trim s)).
Proof.
  intros Hne. unfold parseDate. cbn [String_]. rewrite trim_idempotent.
  destruct s as [|c s]; [now elim Hne|].
  destruct (trim (c :: s)) as [|c' s']; [now elim Hne|]. reflexivity.
Qed.

(** The date [d.m.y] in range is accepted, written with two, two and four
    digits. *)
Lemma parseDate_of_fields (d m y : nat) :
  1 <= d <= 31 -> 1 <= m <= 12 -> 1900 <= y <= 2100 ->
  parseDate (Some (dd_mm_yyyy d m y))
  = Some (four_digits y ++ [45%N] ++ two_digits m ++ [45%N] ++ two_digits d).
Proof.
  intros Hd Hm Hy.
  pose proof reads_as_days as Rd. rewrite forallb_forall in Rd.
  specialize (Rd d ltac:(apply in_seq; lia)). apply reads_as_inv in Rd as [Dd Pd].
  pose proof reads_as_months as Rm. rewrite forallb_forall in Rm.
  specialize (Rm m ltac:(apply in_seq; lia)). apply reads_as_inv in Rm as [Dm Pm].
  pose proof reads_as_years as Ry. rewrite forallb_forall in Ry.
  specialize (Ry y ltac:(apply in_seq; lia)). apply reads_as_inv in Ry as [Dy Py].
  unfold dd_mm_yyyy, two_digits, four_digits in *. cbn [app].
  apply parseDate_accepts with (dn := Z.of_nat d) (mn := Z.of_nat m) (yn := Z.of_nat y);
    try assumption; try lia.
  cbn [forallb] in *.
  repeat match goal with
         | Hx : (_ && _) = true |- _ => apply andb_true_iff in Hx; destruct Hx
         end.
  repeat match goal with Hx : is_digit _ = true |- _ => rewrite Hx; clear Hx end.
  reflexivity.
Qed.

(** X1. What [parseDate] accepts, exactly: the strings that, once
    trimmed, are a day from 01 to 31, a dot, a month from 01 to 12, a dot
    and a year from 1900 to 2100, whether or not the calendar has that day
    (31.02 passes); the answer is the same numbers as [yyyy-mm-dd]. *)
Theorem parseDate_accepts_exactly : forall s iso,
  parseDate (Some s) = Some iso <->
  exists d m y : nat,
    1 <= d <= 31 /\ 1 <= m <= 12 /\ 1900 <= y <= 2100
    /\ trim s = dd_mm_yyyy d m y
    /\ iso = four_digits y ++ [45%N] ++ two_digits m ++ [45%N] ++ two_digits d.
Proof.
  intros s iso. split.
  - unfold parseDate. destruct (truthy (Some s)); cbn [negb]; try discriminate.
    cbn [String_].
    destruct (dateRegex_test (trim s)) eqn:R; cbn [negb]; try discriminate.
    destruct (trim s) as [|d1 [|d2 [|p1 [|m1 [|m2 [|p2 [|y1 [|y2 [|y3 [|y4 [|z t]]]]]]]]]]];
      try discriminate R.
    cbn [dateRegex_test] in R.
    do 9 (apply andb_true_iff in R; destruct R as [R ?]).
    repeat match goal with
           | He : (_ =? 46)%N = true |- _ => apply N.eqb_eq in He; subst
           end.
    destruct (written_back_2_inv 1 31 d1 d2 ltac:(assumption) ltac:(assumption)
                written_back_days) as [dn [Pd Wd]].
    destruct (written_back_2_inv 1 12 m1 m2 ltac:(assumption) ltac:(assumption)
                written_back_months) as [mn [Pm Wm]].
    destruct (written_back_4_inv y1 y2 y3 y4 ltac:(assumption) ltac:(assumption)
                ltac:(assumption) ltac:(assumption)) as [yn [Py Wy]].
    repeat match goal with
           | Hd : is_digit _ = true |- _ => apply digit_is_no_separator in Hd as [? ?]
           end.
    cbn [split].
    repeat match goal with Hd : (_ =? 46)%N = false |- _ => rewrite Hd; clear Hd end.
    cbn [N.eqb Pos.eqb part nth_error String_].
    rewrite Pd, Pm, Py. unfold num_lt, num_gt.
    destruct (dn <? 1)%Z eqn:E1; cbn [orb]; try discriminate.
    destruct (dn >? 31)%Z eqn:E2; cbn [orb]; try discriminate.
    destruct (mn <? 1)%Z eqn:E3; cbn [orb]; try discriminate.
    destruct (mn >? 12)%Z eqn:E4; cbn [orb]; try discriminate.
    destruct (yn <? 1900)%Z eqn:E5; cbn [orb]; try discriminate.
    destruct (yn >? 2100)%Z eqn:E6; cbn [orb]; try discriminate.
    rewrite Z.gtb_ltb in E2, E4, E6.
    apply Z.ltb_ge in E1, E2, E3, E4, E5, E6.
    intros Eq. injection Eq as <-.
    exists (Z.to_nat dn), (Z.to_nat mn), (Z.to_nat yn).
    unfold dd_mm_yyyy. rewrite (Wd (conj E1 E2)), (Wm (conj E3 E4)), (Wy (conj E5 E6)).
    repeat split; try lia.
  - intros [d [m [y [Hd [Hm [Hy [Ht ->]]]]]]].
    rewrite parseDate_trim by (rewrite Ht; discriminate).
    rewrite Ht. now apply parseDate_of_fields.
Qed.

(* ================================================================== *)
(** ** Person search: the words of an escaped query *)
(* ================================================================== *)

Lemma meta_is_no_whitespace c : is_like_meta c = true -> is_whitespace c = false.
Proof.
  unfold is_like_meta. intros H.
  apply orb_true_iff in H as [H|H]; [apply orb_true_iff in H as [H|H]|];
    apply N.eqb_eq in H; subst c; reflexivity.
Qed.

Lemma escape_like_cons c s :
  escape_like (c :: s) = (if is_like_meta c then [92; c]%N else [c]) ++ escape_like s.
Proof. reflexivity. Qed.

(** Escaping does not move the word boundaries: the words of the escaped
    query are the escaped words of the query. *)
Lemma split_ws_from_escape_like s : forall gap,
  split_ws_from gap (escape_like s) = map escape_like (split_ws_from gap s).
Proof.
  induction s as [|c s IH]; intros gap; [reflexivity|].
  rewrite escape_like_cons. destruct (is_like_meta c) eqn:Em.
  - pose proof (meta_is_no_whitespace c Em) as Ew.
    cbn [app split_ws_from]. change (is_whitespace 92) with false. cbv iota.
    rewrite Ew, IH.
    pose proof (split_ws_from_nonempty false s) as Hne.
    destruct (split_ws_from false s) as [|w ws]; [cbn in Hne; lia|].
    cbn [map]. rewrite escape_like_cons, Em. reflexivity.
  - cbn [app split_ws_from]. destruct (is_whitespace c) eqn:Ew.
    + destruct gap; rewrite IH; reflexivity.
    + rewrite IH.
      pose proof (split_ws_from_nonempty false s) as Hne.
      destruct (split_ws_from false s) as [|w ws]; [cbn in Hne; lia|].
      cbn [map]. rewrite escape_like_cons, Em. reflexivity.
Qed.

Lemma includes_escape_like s : includes (escape_like s) 32 = includes s 32.
Proof.
  unfold includes. induction s as [|c s IH]; [reflexivity|].
  rewrite escape_like_cons. destruct (is_like_meta c); cbn [app existsb];
    rewrite IH; reflexivity.
Qed.

Lemma escape_like_grows w :
  existsb is_like_meta w = true -> List.length w < List.length (escape_like w).
Proof.
  assert (Hle : forall v, List.length v <= List.length (escape_like v)).
  { induction v as [|c v IH]; [cbn; lia|]. rewrite escape_like_cons, length_app.
    destruct (is_like_meta c); cbn [List.length]; lia. }
  induction w as [|c w IH]; cbn [existsb]; [discriminate|].
  rewrite escape_like_cons, length_app. intros H.
  destruct (is_like_meta c); cbn [List.length orb] in *.
  - specialize (Hle w). lia.
  - specialize (IH H). lia.
Qed.

(** X2. A query with a space in it: the two words of the name-pair clauses
    are escaped twice, once with the whole query and once more on their
    own.  Read as a LIKE pattern, such a clause looks for the word with
    its escaping backslashes in it, which is not the word that was typed
    as soon as that holds [%], [_] or a backslash. *)
Theorem name_pair_words_are_escaped_twice : forall query : jsstring,
  let typed := split_whitespace (trim query) in
  includes (trim query) 32 = true ->
  searchTerms (escape_like (trim query))
  = single_field_clauses (escape_like (trim query))
    ++ name_pair_clauses (escape_like (escape_like (nth 0 typed [])))
                         (escape_like (escape_like (nth 1 typed [])))
  /\ (forall w, unescape (escape_like (escape_like w)) = escape_like w)
  /\ (forall w, existsb is_like_meta w = true -> escape_like w <> w).
Proof.
  intros query typed Hsp. split; [|split].
  - rewrite searchTerms_clauses, includes_escape_like, Hsp.
    unfold split_whitespace. rewrite split_ws_from_escape_like.
    rewrite <- !(map_nth escape_like (split_ws_from false (trim query)) []).
    reflexivity.
  - intros w. apply unescape_escape_like.
  - intros w Hw Heq. apply escape_like_grows in Hw. rewrite Heq in Hw. lia.
Qed.

(* ================================================================== *)
(** ** Project names *)
(* ================================================================== *)

Lemma validateProjectNameUnique_cases name excludeId w :
  exists b w1,
    validateProjectNameUnique name excludeId w = (b, w1)
    /\ tables w1 = tables w
    /\ (b = true ->
        filter (fun p => str_eqb (project_name p) name
                         && when_given excludeId
                              (fun x p => negb (Pos.eqb (project_id p) x)) p)
               (projects (tables w)) = []).
Proof.
  unfold validateProjectNameUnique.
  match goal with |- context [select ?t ?q] =>
    destruct (select_cases t q w) as [[msg E] | E] end;
    rewrite (bind_run _ _ _ _ _ E); cbn [ret]; eexists; eexists;
    (split; [reflexivity|]); (split; [reflexivity|]).
  - discriminate.
  - unfold no_error_no_rows. cbn [pg_ok error data].
    match goal with |- context [filter ?f ?l] => destruct (filter f l) end;
      [reflexivity | discriminate].
Qed.

Lemma validateProjectExists_cases projectId w :
  exists b w1,
    validateProjectExists projectId w = (b, w1)
    /\ tables w1 = tables w
    /\ (b = true -> exists p, projects_with_id (tables w) projectId = [p]).
Proof.
  unfold validateProjectExists.
  match goal with |- context [select ?t ?q] =>
    destruct (select_cases t q w) as [[msg E] | E] end;
    rewrite (bind_run _ _ _ _ _ E); cbn [ret]; eexists; eexists;
    (split; [reflexivity|]); (split; [reflexivity|]).
  - discriminate.
  - fold (projects_with_id (tables w) projectId).
    destruct (projects_with_id (tables w) projectId) as [|p [|q l]]; cbn; try discriminate.
    intros _. now exists p.
Qed.

Lemma filter_nil_inv {A} (f : A -> bool) l x : filter f l = [] -> In x l -> f x = false.
Proof.
  intros Hf Hx. destruct (f x) eqn:E; [|reflexivity].
  assert (Hin : In x (filter f l)) by (apply filter_In; now split).
  rewrite Hf in Hin. contradiction.
Qed.

(** The one row a filter keeps splits the list around it. *)
Lemma filter_one_split {A} (f : A -> bool) l p :
  filter f l = [p] ->
  exists l1 l2, l = l1 ++ p :: l2 /\ f p = true
                /\ (forall x, In x (l1 ++ l2) -> f x = false).
Proof.
  induction l as [|x l IH]; cbn [filter]; [discriminate|].
  destruct (f x) eqn:E.
  - intros Eq. injection Eq as -> Hrest. exists [], l. cbn [app].
    split; [reflexivity|]. split; [assumption|].
    intros y Hy. now apply (filter_nil_inv f l).
  - intros Eq. destruct (IH Eq) as [l1 [l2 [-> [Hp Hrest]]]].
    exists (x :: l1), l2. split; [reflexivity|]. split; [assumption|].
    intros y [<-|Hy]; [assumption | now apply Hrest].
Qed.

Lemma createProject_keeps_names_distinct input w :
  project_names_distinct (tables w) ->
  project_names_distinct (tables (snd (createProject input w))).
Proof.
  intros Hnd. unfold createProject.
  destruct (validateProjectNameUnique_cases (ProjectInput.project_name input) None w)
    as [b [w1 [E [H1 Hfree]]]].
  rewrite (bind_run _ _ _ _ _ E).
  destruct b; cbn [negb]; [|cbn [ret snd]; now rewrite H1].
  specialize (Hfree eq_refl).
  apply (bind_reads_then _ _ project_names_distinct (tables w)); [assumption | reads |].
  intros m w2 H2. destruct m; [cbn [ret snd]; now rewrite H2|].
  apply (bind_reads_then _ _ project_names_distinct (tables w)); [assumption | reads |].
  intros l w3 H3. destruct l; [cbn [ret snd]; now rewrite H3|].
  unfold bind.
  match goal with |- context [call ?c ?exec w3] =>
    destruct (call_cases c exec w3) as [[msg Ec] | Ec]; rewrite Ec end;
    cbn [ret snd fst tables after_call with_tables]; rewrite H3;
    [assumption|].
  unfold project_names_distinct in *. cbn [projects set_projects].
  rewrite map_app. cbn [map insert_project project_name].
  apply NoDup_Add with (a := ProjectInput.project_name input)
                       (l := map project_name (projects (tables w))).
  - rewrite <- (app_nil_r (map project_name (projects (tables w)))) at 1.
    apply Add_app.
  - split; [assumption|]. intros Hin. apply in_map_iff in Hin as [p [Hp Hin]].
    apply (filter_nil_inv _ _ p Hfree) in Hin. cbn [when_given] in Hin.
    rewrite andb_true_r in Hin. rewrite Hp, str_eqb_refl in Hin. discriminate.
Qed.

Lemma updateProject_keeps_names_distinct input w :
  project_names_distinct (tables w) ->
  ProjectUpdate.project_name input <> Some [] ->
  project_names_distinct (tables (snd (updateProject input w))).
Proof.
  intros Hnd Hname. unfold updateProject.
  destruct (validateProjectExists_cases (ProjectUpdate.project_id input) w)
    as [e [w1 [E [H1 Hone]]]].
  rewrite (bind_run _ _ _ _ _ E).
  destruct e; cbn [negb]; [|cbn [ret snd]; now rewrite H1].
  destruct (Hone eq_refl) as [p Hp]. clear Hone.
  destruct (filter_one_split _ _ _ Hp) as [l1 [l2 [Hrows [Hid Hother]]]].
  apply Pos.eqb_eq in Hid.
  (* the name check *)
  assert (Hcheck : exists n w2,
            name_given_but_taken (ProjectUpdate.project_name input)
              (ProjectUpdate.project_id input) w1 = (n, w2)
            /\ tables w2 = tables w
            /\ (n = false ->
                forall x, In x (l1 ++ l2) ->
                  project_name x
                  <> updated (ProjectUpdate.project_name input) (project_name p))).
  { unfold name_given_but_taken.
    destruct (ProjectUpdate.project_name input) as [[|c name]|] eqn:En; cbn [truthy].
    - now elim Hname.
    - destruct (validateProjectNameUnique_cases (c :: name)
                  (Some (ProjectUpdate.project_id input)) w1) as [b [w2 [E2 [H2 Hfree]]]].
      cbn [String_]. rewrite (bind_run _ _ _ _ _ E2). cbn [ret].
      exists (negb b), w2. split; [reflexivity|]. split; [congruence|].
      intros Hb. destruct b; [|discriminate]. specialize (Hfree eq_refl).
      rewrite H1, Hrows in Hfree. intros x Hx Heq. cbn [updated] in Heq.
      assert (Hin : In x (l1 ++ p :: l2)).
      { apply in_app_or in Hx. apply in_or_app. destruct Hx; [now left | right; now right]. }
      apply (filter_nil_inv _ _ x Hfree) in Hin. cbn [when_given] in Hin.
      rewrite Heq, str_eqb_refl, (Hother x Hx) in Hin. discriminate.
    - exists false, w1. split; [reflexivity|]. split; [assumption|].
      intros _ x Hx Heq. cbn [updated] in Heq.
      unfold project_names_distinct in Hnd. rewrite Hrows, map_app in Hnd.
      cbn [map] in Hnd. apply NoDup_remove_2 in Hnd. apply Hnd.
      rewrite <- map_app, <- Heq. now apply in_map. }
  destruct Hcheck as [n [w2 [E2 [H2 Hfree]]]].
  rewrite (bind_run _ _ _ _ _ E2).
  destruct n; [cbn [ret snd]; now rewrite H2|].
  specialize (Hfree eq_refl).
  apply (bind_reads_then _ _ project_names_distinct (tables w)); [assumption | reads |].
  intros m w3 H3. destruct m; [cbn [ret snd]; now rewrite H3|].
  apply (bind_reads_then _ _ project_names_distinct (tables w)); [assumption | reads |].
  intros l w4 H4. destruct l; [cbn [ret snd]; now rewrite H4|].
  unfold bind.
  match goal with |- context [call ?c ?exec w4] =>
    destruct (call_cases c exec w4) as [[msg Ec] | Ec]; rewrite Ec end;
    cbn [ret snd fst tables after_call with_tables]; rewrite H4;
    [assumption|].
  unfold project_names_distinct in *. cbn [projects set_projects].
  rewrite Hrows in *. rewrite !map_app in *. cbn [map] in *.
  assert (Hsame : forall l, (forall x, In x l -> In x (l1 ++ l2)) ->
            map project_name (map (apply_project_update input) l) = map project_name l).
  { induction l as [|x l IHl]; intros Hl; [reflexivity|]. cbn [map].
    rewrite IHl by (intros y Hy; apply Hl; now right).
    unfold apply_project_update. rewrite (Hother x) by (apply Hl; now left). reflexivity. }
  rewrite (Hsame l1) by (intros x Hx; apply in_or_app; now left).
  rewrite (Hsame l2) by (intros x Hx; apply in_or_app; now right).
  unfold apply_project_update at 1. rewrite Hid, Pos.eqb_refl. cbn [project_name].
  apply NoDup_Add with (a := updated (ProjectUpdate.project_name input) (project_name p))
                       (l := map project_name l1 ++ map project_name l2).
  - apply Add_app.
  - split; [now apply NoDup_remove_1 in Hnd|].
    rewrite <- map_app. intros Hin. apply in_map_iff in Hin as [x [Hx Hin]].
    now apply (Hfree x Hin).
Qed.

(** X3. Project names stay distinct: whatever the store does (any call may
    fail), [createProject] leaves no two projects with one name, and
    neither does [updateProject] when the new name, if one is given, is
    not the empty string. *)
Theorem project_names_stay_distinct : forall w : World,
  project_names_distinct (tables w) ->
  (forall input, project_names_distinct (tables (snd (createProject input w))))
  /\ (forall input, ProjectUpdate.project_name input <> Some [] ->
                    project_names_distinct (tables (snd (updateProject input w)))).
Proof.
  intros w Hnd. split.
  - intros input. now apply createProject_keeps_names_distinct.
  - intros input Hname. now apply updateProject_keeps_names_distinct.
Qed.

(* ================================================================== *)
(** ** Deleting *)
(* ================================================================== *)

Lemma delete_where_answers tb remove w :
  faults w = [] ->
  delete_where tb remove w
  = (pg_ok tt, with_tables (remove (tables w))
                 (after_call {| call_table := tb; call_verb := V_delete |} w)).
Proof. intros Hf. unfold delete_where. now rewrite call_answers. Qed.

Lemma faults_with_tables t w : faults (with_tables t w) = faults w.
Proof. reflexivity. Qed.

Lemma filter_all : forall (A : Type) (f : A -> bool) (l : list A),
  (forall x, In x l -> f x = true) -> filter f l = l.
Proof.
  intros A f l H. induction l as [|x l IH]; cbn; [reflexivity|].
  rewrite (H x) by now left. f_equal. apply IH. intros y Hy. apply H. now right.
Qed.

Lemma filter_none {A} (f : A -> bool) l : (forall x, In x l -> f x = false) -> filter f l = [].
Proof.
  induction l as [|x l IH]; intros Hf; [reflexivity|]. cbn [filter].
  rewrite (Hf x) by now left. apply IH. intros y Hy. apply Hf. now right.
Qed.

Lemma filter_not_then_is {A} (f : A -> bool) l :
  filter f (filter (fun x => negb (f x)) l) = [].
Proof.
  apply filter_none. intros x Hx. apply filter_In in Hx as [_ Hx].
  now destruct (f x).
Qed.

(** X4. Cascade deletion of a project, on a store that answers: the
    project and every stage, object and section that names it are removed
    and nothing else is; the message counts the rows that were removed;
    afterwards the project is not found and nothing names it. *)
Theorem deleteProject_cascade_removes_project_and_rows :
  forall (projectId : Id) (w : World) (p : Project),
    faults w = [] ->
    projects_with_id (tables w) projectId = [p] ->
    let (result, w') := deleteProject projectId true w in
    success result = true
    /\ message result
       = lit "Проект и все связанные данные ("
         ++ of_nat (rows_naming (tables w) projectId) ++ lit " записей) успешно удалены"
    /\ tables w' = without_project projectId (tables w)
    /\ fst (validateProjectExists projectId w') = false
    /\ info_total (fst (getCascadeDeleteInfo projectId w')) = 0.
Proof.
  intros projectId w p Hf Hp.
  unfold deleteProject.
  erewrite bind_run by (apply validateProjectExists_answers; assumption).
  rewrite Hp. cbn [single ok_with_data pg_ok error data negb].
  erewrite bind_run
    by (apply getCascadeDeleteInfo_answers; apply faults_after_call; assumption).
  cbv zeta. cbn [info_total negb]. rewrite andb_false_r.
  erewrite bind_run.
  2:{ erewrite bind_run by (apply delete_where_answers; cbn; now rewrite Hf).
      erewrite bind_run by (apply delete_where_answers; cbn; now rewrite Hf).
      erewrite bind_run by (apply delete_where_answers; cbn; now rewrite Hf).
      reflexivity. }
  erewrite bind_run by (apply delete_where_answers; cbn; now rewrite Hf).
  cbn [pg_ok error ret success message].
  split; [reflexivity|]. split; [reflexivity|].
  split; [reflexivity|].
  match goal with |- fst (validateProjectExists _ ?w') = _ /\ _ =>
    assert (Hf' : faults w' = []) by (cbn; now rewrite Hf) end.
  rewrite validateProjectExists_answers, getCascadeDeleteInfo_answers by exact Hf'.
  cbn [fst info_total tables with_tables after_call set_projects set_stages set_objects
       set_sections projects stages objects sections].
  unfold projects_with_id, stages_of.
  cbn [tables with_tables after_call set_projects set_stages set_objects
       set_sections projects stages objects sections].
  rewrite !(filter_not_then_is (fun p => Pos.eqb (project_id p) projectId)).
  rewrite !(filter_not_then_is (fun s => Pos.eqb (stage_project_id s) projectId)).
  rewrite !(filter_not_then_is (fun o => Pos.eqb (object_project_id o) projectId)).
  rewrite !(filter_not_then_is (fun s => Pos.eqb (section_project_id s) projectId)).
  split; reflexivity.
Qed.

Lemma call_passes {A} (c : Call) (exec : Tables -> PgResult A * Tables) w rest :
  faults w = None :: rest ->
  call c exec w
  = (fst (exec (tables w)), with_tables (snd (exec (tables w))) (after_call c w)).
Proof. unfold call. intros ->. destruct (exec (tables w)); reflexivity. Qed.

Lemma select_passes {A} (t : Table) (q : Tables -> PgResult A) w rest :
  faults w = None :: rest ->
  select t q w = (q (tables w), after_call (selecting t) w).
Proof. intros Hf. unfold select. erewrite call_passes by eassumption. reflexivity. Qed.

Lemma delete_where_passes tb remove w rest :
  faults w = None :: rest ->
  delete_where tb remove w
  = (pg_ok tt, with_tables (remove (tables w))
                 (after_call {| call_table := tb; call_verb := V_delete |} w)).
Proof. intros Hf. unfold delete_where. erewrite call_passes by eassumption. reflexivity. Qed.

Lemma delete_where_fails tb remove w msg rest :
  faults w = Some msg :: rest ->
  delete_where tb remove w
  = (pg_error msg, after_call {| call_table := tb; call_verb := V_delete |} w).
Proof. intros Hf. unfold delete_where. erewrite call_fails by eassumption. reflexivity. Qed.

(** X5. The count of dependents fails open: when the three counting reads
    fail, [deleteProject] without cascade takes the project for childless
    and deletes it, reporting success; its stages, objects and sections
    stay behind, naming a project that is gone. *)
Theorem deleteProject_deletes_when_the_count_fails :
  forall (projectId : Id) (w : World) (p : Project) (e1 e2 e3 : jsstring),
    faults w = [None; Some e1; Some e2; Some e3] ->
    projects_with_id (tables w) projectId = [p] ->
    let (result, w') := deleteProject projectId false w in
    success result = true
    /\ message result = lit "Проект успешно удален"
    /\ projects_with_id (tables w') projectId = []
    /\ stages (tables w') = stages (tables w)
    /\ objects (tables w') = objects (tables w)
    /\ sections (tables w') = sections (tables w).
Proof.
  intros projectId w p e1 e2 e3 Hf Hp.
  unfold deleteProject, validateProjectExists, getCascadeDeleteInfo.
  erewrite bind_run.
  2:{ erewrite bind_run by (eapply select_passes; eassumption). reflexivity. }
  fold (projects_with_id (tables w) projectId). rewrite Hp.
  cbn [single ok_with_data pg_ok error data negb].
  erewrite bind_run.
  2:{ erewrite bind_run by (eapply select_fails; cbn; rewrite Hf; reflexivity).
      erewrite bind_run by (eapply select_fails; cbn; rewrite Hf; reflexivity).
      erewrite bind_run by (eapply select_fails; cbn; rewrite Hf; reflexivity).
      reflexivity. }
  cbn [count_rows pg_error data List.length Nat.add info_total Nat.ltb Nat.leb andb negb].
  erewrite bind_run by reflexivity.
  erewrite bind_run by (apply delete_where_answers; cbn; rewrite Hf; reflexivity).
  cbn [pg_ok error ret success message tables with_tables after_call set_projects
       projects stages objects sections].
  unfold projects_with_id. cbn [projects set_projects set_stages set_objects set_sections].
  rewrite (filter_not_then_is (fun p => Pos.eqb (project_id p) projectId)).
  repeat split.
Qed.

(** X6. A cascade does not look at what its deletions answer: when the
    deletion of the sections fails and the rest goes through,
    [deleteProject] reports that the project and all its rows were
    deleted, while every section is still in the store. *)
Theorem deleteProject_cascade_reports_success_with_sections_left :
  forall (projectId : Id) (w : World) (p : Project) (e : jsstring),
    faults w = [None; None; None; None; Some e] ->
    projects_with_id (tables w) projectId = [p] ->
    let (result, w') := deleteProject projectId true w in
    success result = true
    /\ message result
       = lit "Проект и все связанные данные ("
         ++ of_nat (rows_naming (tables w) projectId) ++ lit " записей) успешно удалены"
    /\ sections (tables w') = sections (tables w)
    /\ projects_with_id (tables w') projectId = [].
Proof.
  intros projectId w p e Hf Hp.
  unfold deleteProject, validateProjectExists, getCascadeDeleteInfo.
  erewrite bind_run.
  2:{ erewrite bind_run by (eapply select_passes; eassumption). reflexivity. }
  fold (projects_with_id (tables w) projectId). rewrite Hp.
  cbn [single ok_with_data pg_ok error data negb].
  erewrite bind_run.
  2:{ erewrite bind_run by (eapply select_passes; cbn; rewrite Hf; reflexivity).
      erewrite bind_run by (eapply select_passes; cbn; rewrite Hf; reflexivity).
      erewrite bind_run by (eapply select_passes; cbn; rewrite Hf; reflexivity).
      reflexivity. }
  cbn [info_total negb]. rewrite andb_false_r.
  erewrite bind_run.
  2:{ erewrite bind_run by (eapply delete_where_fails; cbn; rewrite Hf; reflexivity).
      erewrite bind_run by (apply delete_where_answers; cbn; rewrite Hf; reflexivity).
      erewrite bind_run by (apply delete_where_answers; cbn; rewrite Hf; reflexivity).
      reflexivity. }
  erewrite bind_run by (apply delete_where_answers; cbn; rewrite Hf; reflexivity).
  cbn [pg_ok error ret success message tables with_tables after_call set_projects
       set_stages set_objects projects stages objects sections count_rows data].
  unfold projects_with_id. cbn [projects set_projects set_stages set_objects set_sections].
  rewrite (filter_not_then_is (fun p => Pos.eqb (project_id p) projectId)).
  repeat split.
Qed.

(** What [hierarchy_intact] says, row by row. *)
Lemma hierarchy_intact_spec t :
  hierarchy_intact t = true <->
  (forall o, In o (objects t) ->
     (exists s, In s (stages t) /\ stage_id s = object_stage_id o)
     /\ (forall s, In s (stages t) -> stage_id s = object_stage_id o ->
                   stage_project_id s = object_project_id o))
  /\ (forall x, In x (sections t) ->
        (exists o, In o (objects t) /\ object_id o = section_object_id x)
        /\ (forall o, In o (objects t) -> object_id o = section_object_id x ->
                      object_project_id o = section_project_id x))
  /\ (forall s, In s (stages t) ->
        exists p, In p (projects t) /\ project_id p = stage_project_id s).
Proof.
  unfold hierarchy_intact, project_references_agree.
  rewrite !andb_true_iff, !forallb_forall. split.
  - intros [[HA HB] HC]. split; [|split].
    + intros o Ho. specialize (HA o Ho). apply andb_true_iff in HA as [Hex Hall].
      apply existsb_exists in Hex as [s [Hs Hid]]. apply Pos.eqb_eq in Hid.
      split; [now exists s|]. intros s' Hs' Hid'. rewrite forallb_forall in Hall.
      specialize (Hall s' Hs'). rewrite Hid', Pos.eqb_refl in Hall.
      now apply Pos.eqb_eq in Hall.
    + intros x Hx. specialize (HB x Hx). apply andb_true_iff in HB as [Hex Hall].
      apply existsb_exists in Hex as [o [Ho Hid]]. apply Pos.eqb_eq in Hid.
      split; [now exists o|]. intros o' Ho' Hid'. rewrite forallb_forall in Hall.
      specialize (Hall o' Ho'). rewrite Hid', Pos.eqb_refl in Hall.
      now apply Pos.eqb_eq in Hall.
    + intros s Hs. specialize (HC s Hs). apply existsb_exists in HC as [p [Hp Hid]].
      apply Pos.eqb_eq in Hid. now exists p.
  - intros [HA [HB HC]]. split; [split|].
    + intros o Ho. destruct (HA o Ho) as [[s [Hs Hid]] Hall]. apply andb_true_iff. split.
      * apply existsb_exists. exists s. split; [assumption | now apply Pos.eqb_eq].
      * apply forallb_forall. intros s' Hs'.
        destruct (Pos.eqb (stage_id s') (object_stage_id o)) eqn:E; [|reflexivity].
        apply Pos.eqb_eq in E. cbn. apply Pos.eqb_eq. now apply Hall.
    + intros x Hx. destruct (HB x Hx) as [[o [Ho Hid]] Hall]. apply andb_true_iff. split.
      * apply existsb_exists. exists o. split; [assumption | now apply Pos.eqb_eq].
      * apply forallb_forall. intros o' Ho'.
        destruct (Pos.eqb (object_id o') (section_object_id x)) eqn:E; [|reflexivity].
        apply Pos.eqb_eq in E. cbn. apply Pos.eqb_eq. now apply Hall.
    + intros s Hs. destruct (HC s Hs) as [p [Hp Hid]].
      apply existsb_exists. exists p. split; [assumption | now apply Pos.eqb_eq].
Qed.

Lemma in_filter_neq {A} (key : A -> Id) (k : Id) (l : list A) (x : A) :
  In x (filter (fun y => negb (Pos.eqb (key y) k)) l) <-> In x l /\ key x <> k.
Proof.
  rewrite filter_In, negb_true_iff, Pos.eqb_neq. reflexivity.
Qed.

Lemma filter_eq_nil_neq {A} (key : A -> Id) (k : Id) (l : list A) (x : A) :
  filter (fun y => Pos.eqb (key y) k) l = [] -> In x l -> key x <> k.
Proof.
  intros Hf Hx. apply (filter_nil_inv _ _ x Hf) in Hx. now apply Pos.eqb_neq.
Qed.

Lemma intact_without_project pid t :
  hierarchy_intact t = true -> hierarchy_intact (without_project pid t) = true.
Proof.
  rewrite !hierarchy_intact_spec. unfold without_project.
  cbn [projects stages objects sections].
  intros [HA [HB HC]]. split; [|split].
  - intros o Ho. apply in_filter_neq in Ho as [Ho Hne].
    destruct (HA o Ho) as [[s [Hs Hid]] Hall]. split.
    + exists s. split; [|assumption]. apply in_filter_neq. split; [assumption|].
      rewrite (Hall s Hs Hid). assumption.
    + intros s' Hs'. apply in_filter_neq in Hs' as [Hs' _]. now apply Hall.
  - intros x Hx. apply in_filter_neq in Hx as [Hx Hne].
    destruct (HB x Hx) as [[o [Ho Hid]] Hall]. split.
    + exists o. split; [|assumption]. apply in_filter_neq. split; [assumption|].
      rewrite (Hall o Ho Hid). assumption.
    + intros o' Ho'. apply in_filter_neq in Ho' as [Ho' _]. now apply Hall.
  - intros s Hs. apply in_filter_neq in Hs as [Hs Hne].
    destruct (HC s Hs) as [p [Hp Hid]]. exists p. split; [|assumption].
    apply in_filter_neq. split; [assumption | congruence].
Qed.

Lemma intact_without_childless_project pid t :
  hierarchy_intact t = true -> rows_naming t pid = 0 ->
  hierarchy_intact
    (set_projects (filter (fun p => negb (Pos.eqb (project_id p) pid)) (projects t)) t)
  = true.
Proof.
  rewrite !hierarchy_intact_spec. cbn [set_projects projects stages objects sections].
  intros [HA [HB HC]] Hzero. split; [assumption|]. split; [assumption|].
  intros s Hs. destruct (HC s Hs) as [p [Hp Hid]]. exists p. split; [|assumption].
  apply in_filter_neq. split; [assumption|]. rewrite Hid.
  unfold rows_naming, stages_of in Hzero.
  apply (filter_eq_nil_neq stage_project_id pid (stages t) s); [|assumption].
  apply length_zero_iff_nil. lia.
Qed.

Lemma intact_without_stage sid t :
  hierarchy_intact t = true -> hierarchy_intact (without_stage sid t) = true.
Proof.
  rewrite !hierarchy_intact_spec. unfold without_stage.
  cbn [projects stages objects sections].
  intros [HA [HB HC]]. split; [|split].
  - intros o Ho. apply in_filter_neq in Ho as [Ho Hne].
    destruct (HA o Ho) as [[s [Hs Hid]] Hall]. split.
    + exists s. split; [|assumption]. apply in_filter_neq. split; [assumption | congruence].
    + intros s' Hs'. apply in_filter_neq in Hs' as [Hs' _]. now apply Hall.
  - intros x Hx. apply filter_In in Hx as [Hx Hkeep]. apply negb_true_iff in Hkeep.
    destruct (HB x Hx) as [[o [Ho Hid]] Hall]. split.
    + exists o. split; [|assumption]. apply in_filter_neq. split; [assumption|].
      intros Hst. apply not_true_iff_false in Hkeep. apply Hkeep.
      apply existsb_exists. exists (object_id o). split.
      * apply in_map. unfold objects_in_stage. apply filter_In. split; [assumption|].
        now apply Pos.eqb_eq.
      * apply Pos.eqb_eq. congruence.
    + intros o' Ho'. apply in_filter_neq in Ho' as [Ho' _]. now apply Hall.
  - intros s Hs. apply in_filter_neq in Hs as [Hs _]. now apply HC.
Qed.

Lemma intact_without_childless_stage sid t :
  hierarchy_intact t = true -> objects_in_stage t sid = [] ->
  hierarchy_intact
    (set_stages (filter (fun s => negb (Pos.eqb (stage_id s) sid)) (stages t)) t) = true.
Proof.
  rewrite !hierarchy_intact_spec. cbn [set_stages projects stages objects sections].
  intros [HA [HB HC]] Hnone. split; [|split; [assumption|]].
  - intros o Ho. destruct (HA o Ho) as [[s [Hs Hid]] Hall]. split.
    + exists s. split; [|assumption]. apply in_filter_neq. split; [assumption|].
      rewrite Hid. now apply (filter_eq_nil_neq object_stage_id sid (objects t) o).
    + intros s' Hs'. apply in_filter_neq in Hs' as [Hs' _]. now apply Hall.
  - intros s Hs. apply in_filter_neq in Hs as [Hs _]. now apply HC.
Qed.

Lemma intact_without_object oid t :
  hierarchy_intact t = true -> hierarchy_intact (without_object oid t) = true.
Proof.
  rewrite !hierarchy_intact_spec. unfold without_object.
  cbn [projects stages objects sections].
  intros [HA [HB HC]]. split; [|split; [|assumption]].
  - intros o Ho. apply in_filter_neq in Ho as [Ho _]. now apply HA.
  - intros x Hx. apply in_filter_neq in Hx as [Hx Hne].
    destruct (HB x Hx) as [[o [Ho Hid]] Hall]. split.
    + exists o. split; [|assumption]. apply in_filter_neq. split; [assumption | congruence].
    + intros o' Ho'. apply in_filter_neq in Ho' as [Ho' _]. now apply Hall.
Qed.

Lemma intact_without_childless_object oid t :
  hierarchy_intact t = true -> sections_in_object t oid = [] ->
  hierarchy_intact
    (set_objects (filter (fun o => negb (Pos.eqb (object_id o) oid)) (objects t)) t) = true.
Proof.
  rewrite !hierarchy_intact_spec. cbn [set_objects projects stages objects sections].
  intros [HA [HB HC]] Hnone. split; [|split; [|assumption]].
  - intros o Ho. apply in_filter_neq in Ho as [Ho _]. now apply HA.
  - intros x Hx. destruct (HB x Hx) as [[o [Ho Hid]] Hall]. split.
    + exists o. split; [|assumption]. apply in_filter_neq. split; [assumption|].
      rewrite Hid. now apply (filter_eq_nil_neq section_object_id oid (sections t) x).
    + intros o' Ho'. apply in_filter_neq in Ho' as [Ho' _]. now apply Hall.
Qed.

Lemma intact_without_section sid t :
  hierarchy_intact t = true ->
  hierarchy_intact
    (set_sections (filter (fun s => negb (Pos.eqb (section_id s) sid)) (sections t)) t)
  = true.
Proof.
  rewrite !hierarchy_intact_spec. cbn [set_sections projects stages objects sections].
  intros [HA [HB HC]]. split; [assumption|]. split; [|assumption].
  intros x Hx. apply in_filter_neq in Hx as [Hx _]. now apply HB.
Qed.

Lemma deleteProject_tables projectId cascade w :
  faults w = [] ->
  tables (snd (deleteProject projectId cascade w)) = tables w
  \/ (cascade = true
      /\ tables (snd (deleteProject projectId cascade w))
         = without_project projectId (tables w))
  \/ (cascade = false /\ rows_naming (tables w) projectId = 0
      /\ tables (snd (deleteProject projectId cascade w))
         = set_projects (filter (fun p => negb (Pos.eqb (project_id p) projectId))
                                (projects (tables w))) (tables w)).
Proof.
  intros Hf. unfold deleteProject.
  erewrite bind_run by (apply validateProjectExists_answers; assumption).
  destruct (ok_with_data (single (projects_with_id (tables w) projectId)));
    cbn [negb]; [|left; reflexivity].
  erewrite bind_run
    by (apply getCascadeDeleteInfo_answers; apply faults_after_call; assumption).
  cbv zeta. cbn [info_total tables after_call].
  change (List.length (filter (fun s => Pos.eqb (section_project_id s) projectId)
                              (sections (tables w)))
          + List.length (filter (fun o => Pos.eqb (object_project_id o) projectId)
                                (objects (tables w)))
          + List.length (stages_of (tables w) projectId))
    with (rows_naming (tables w) projectId).
  destruct cascade; cbn [negb].
  - rewrite andb_false_r. right. left. split; [reflexivity|].
    erewrite bind_run.
    2:{ erewrite bind_run by (apply delete_where_answers; calm Hf).
        erewrite bind_run by (apply delete_where_answers; calm Hf).
        erewrite bind_run by (apply delete_where_answers; calm Hf).
        reflexivity. }
    erewrite bind_run by (apply delete_where_answers; calm Hf).
    reflexivity.
  - rewrite andb_true_r.
    destruct (0 <? rows_naming (tables w) projectId) eqn:E; [left; reflexivity|].
    apply Nat.ltb_ge in E. right. right. split; [reflexivity|]. split; [lia|].
    erewrite bind_run by reflexivity.
    erewrite bind_run by (apply delete_where_answers; calm Hf).
    reflexivity.
Qed.

Lemma validateStageExists_answers stageId w :
  faults w = [] ->
  validateStageExists stageId w
  = (ok_with_data (single (filter (fun s => Pos.eqb (stage_id s) stageId)
                                  (stages (tables w)))),
     after_call (selecting T_stages) w).
Proof.
  intros Hf. unfold validateStageExists.
  erewrite bind_run by (apply select_answers; assumption). reflexivity.
Qed.

Lemma validateObjectExists_answers objectId w :
  faults w = [] ->
  validateObjectExists objectId w
  = (ok_with_data (single (filter (fun o => Pos.eqb (object_id o) objectId)
                                  (objects (tables w)))),
     after_call (selecting T_objects) w).
Proof.
  intros Hf. unfold validateObjectExists.
  erewrite bind_run by (apply select_answers; assumption). reflexivity.
Qed.

Lemma validateSectionExists_answers sectionId w :
  faults w = [] ->
  validateSectionExists sectionId w
  = (ok_with_data (single (filter (fun s => Pos.eqb (section_id s) sectionId)
                                  (sections (tables w)))),
     after_call (selecting T_sections) w).
Proof.
  intros Hf. unfold validateSectionExists.
  erewrite bind_run by (apply select_answers; assumption). reflexivity.
Qed.

Lemma hasStageChildren_answers stageId w :
  faults w = [] ->
  hasStageChildren stageId w
  = (List.length (objects_in_stage (tables w) stageId), after_call (selecting T_objects) w).
Proof.
  intros Hf. unfold hasStageChildren.
  erewrite bind_run by (apply select_answers; assumption). reflexivity.
Qed.

Lemma hasObjectChildren_answers objectId w :
  faults w = [] ->
  hasObjectChildren objectId w
  = (List.length (sections_in_object (tables w) objectId),
     after_call (selecting T_sections) w).
Proof.
  intros Hf. unfold hasObjectChildren.
  erewrite bind_run by (apply select_answers; assumption). reflexivity.
Qed.

Lemma delete_stage_children_answers stageId w :
  faults w = [] ->
  exists w', delete_stage_children stageId w = (tt, w')
             /\ faults w' = []
             /\ tables w'
                = set_objects
                    (filter (fun o => negb (Pos.eqb (object_stage_id o) stageId))
                            (objects (tables w)))
                    (set_sections
                       (filter (fun s => negb (existsb (Pos.eqb (section_object_id s))
                                                 (map object_id
                                                    (objects_in_stage (tables w) stageId))))
                               (sections (tables w)))
                       (tables w)).
Proof.
  intros Hf. unfold delete_stage_children.
  erewrite bind_run by (apply select_answers; assumption).
  cbn [pg_ok data]. fold (objects_in_stage (tables w) stageId).
  destruct (objects_in_stage (tables w) stageId) as [|o rows] eqn:Eo.
  - erewrite bind_run by reflexivity.
    erewrite bind_run by (apply delete_where_answers; calm Hf).
    eexists. split; [reflexivity|]. split; [calm Hf|].
    cbn [map existsb negb tables after_call with_tables set_objects set_sections
         objects sections projects stages profiles view_users].
    rewrite (filter_all _ (fun _ => true) (sections (tables w))) by reflexivity.
    destruct (tables w); reflexivity.
  - erewrite bind_run.
    2:{ erewrite bind_run by (apply delete_where_answers; calm Hf). reflexivity. }
    erewrite bind_run by (apply delete_where_answers; calm Hf).
    eexists. split; [reflexivity|]. split; [calm Hf|]. reflexivity.
Qed.

Lemma deleteStage_tables stageId cascade w :
  faults w = [] ->
  tables (snd (deleteStage stageId cascade w)) = tables w
  \/ (cascade = true
      /\ tables (snd (deleteStage stageId cascade w)) = without_stage stageId (tables w))
  \/ (cascade = false /\ objects_in_stage (tables w) stageId = []
      /\ tables (snd (deleteStage stageId cascade w))
         = set_stages (filter (fun s => negb (Pos.eqb (stage_id s) stageId))
                              (stages (tables w))) (tables w)).
Proof.
  intros Hf. unfold deleteStage.
  erewrite bind_run by (apply validateStageExists_answers; assumption).
  match goal with |- context [negb ?b] => destruct b end;
    cbn [negb]; [|left; reflexivity].
  erewrite bind_run by (apply hasStageChildren_answers; calm Hf).
  cbn [tables after_call].
  destruct cascade; cbn [negb].
  - rewrite andb_false_r. right. left. split; [reflexivity|].
    destruct (delete_stage_children_answers stageId
                (after_call (selecting T_objects) (after_call (selecting T_stages) w)))
      as [w' [E [Hf' Ht]]]; [calm Hf|].
    erewrite bind_run by exact E.
    erewrite bind_run by (apply delete_where_answers; exact Hf').
    cbn [snd ret tables with_tables]. rewrite Ht. reflexivity.
  - rewrite andb_true_r.
    destruct (0 <? List.length (objects_in_stage (tables w) stageId)) eqn:E;
      [left; reflexivity|].
    apply Nat.ltb_ge in E. right. right. split; [reflexivity|].
    split; [apply length_zero_iff_nil; lia|].
    erewrite bind_run by reflexivity.
    erewrite bind_run by (apply delete_where_answers; calm Hf).
    reflexivity.
Qed.

Lemma deleteObject_tables objectId cascade w :
  faults w = [] ->
  tables (snd (deleteObject objectId cascade w)) = tables w
  \/ (cascade = true
      /\ tables (snd (deleteObject objectId cascade w))
         = without_object objectId (tables w))
  \/ (cascade = false /\ sections_in_object (tables w) objectId = []
      /\ tables (snd (deleteObject objectId cascade w))
         = set_objects (filter (fun o => negb (Pos.eqb (object_id o) objectId))
                               (objects (tables w))) (tables w)).
Proof.
  intros Hf. unfold deleteObject.
  erewrite bind_run by (apply validateObjectExists_answers; assumption).
  match goal with |- context [negb ?b] => destruct b end;
    cbn [negb]; [|left; reflexivity].
  erewrite bind_run by (apply hasObjectChildren_answers; calm Hf).
  cbn [tables after_call].
  destruct cascade; cbn [negb].
  - rewrite andb_false_r. right. left. split; [reflexivity|].
    erewrite bind_run.
    2:{ erewrite bind_run by (apply delete_where_answers; calm Hf). reflexivity. }
    erewrite bind_run by (apply delete_where_answers; calm Hf).
    reflexivity.
  - rewrite andb_true_r.
    destruct (0 <? List.length (sections_in_object (tables w) objectId)) eqn:E;
      [left; reflexivity|].
    apply Nat.ltb_ge in E. right. right. split; [reflexivity|].
    split; [apply length_zero_iff_nil; lia|].
    erewrite bind_run by reflexivity.
    erewrite bind_run by (apply delete_where_answers; calm Hf).
    reflexivity.
Qed.

Lemma deleteSection_tables sectionId w :
  tables (snd (deleteSection sectionId w)) = tables w
  \/ tables (snd (deleteSection sectionId w))
     = set_sections (filter (fun s => negb (Pos.eqb (section_id s) sectionId))
                            (sections (tables w))) (tables w).
Proof.
  unfold deleteSection.
  apply (bind_reads_then _ _
           (fun T' => T' = tables w
                      \/ T' = set_sections
                                (filter (fun s => negb (Pos.eqb (section_id s) sectionId))
                                        (sections (tables w))) (tables w))
           (tables w)); [reflexivity | reads |].
  intros e w1 H1. destruct (negb e); [left; exact H1|].
  unfold bind, delete_where.
  match goal with |- context [call ?c ?exec w1] =>
    destruct (call_cases c exec w1) as [[msg E] | E]; rewrite E end;
    cbn [ret snd fst tables after_call with_tables].
  - left. exact H1.
  - right. rewrite H1. reflexivity.
Qed.

(** X7. On a store that answers, no deletion leaves a row whose parent is
    gone: if every object has its stage, every section its object, every
    stage its project and the project references agree, the same holds
    after [deleteProject], [deleteStage], [deleteObject] and
    [deleteSection], with or without cascade. *)
Theorem deletions_keep_the_hierarchy_intact : forall w : World,
  faults w = [] ->
  hierarchy_intact (tables w) = true ->
  (forall projectId cascade,
     hierarchy_intact (tables (snd (deleteProject projectId cascade w))) = true)
  /\ (forall stageId cascade,
        hierarchy_intact (tables (snd (deleteStage stageId cascade w))) = true)
  /\ (forall objectId cascade,
        hierarchy_intact (tables (snd (deleteObject objectId cascade w))) = true)
  /\ (forall sectionId,
        hierarchy_intact (tables (snd (deleteSection sectionId w))) = true).
Proof.
  intros w Hf Hin. split; [|split; [|split]].
  - intros projectId cascade.
    destruct (deleteProject_tables projectId cascade w Hf) as [E | [[_ E] | [_ [Hz E]]]];
      rewrite E; [assumption | now apply intact_without_project
                 | now apply intact_without_childless_project].
  - intros stageId cascade.
    destruct (deleteStage_tables stageId cascade w Hf) as [E | [[_ E] | [_ [Hz E]]]];
      rewrite E; [assumption | now apply intact_without_stage
                 | now apply intact_without_childless_stage].
  - intros objectId cascade.
    destruct (deleteObject_tables objectId cascade w Hf) as [E | [[_ E] | [_ [Hz E]]]];
      rewrite E; [assumption | now apply intact_without_object
                 | now apply intact_without_childless_object].
  - intros sectionId.
    destruct (deleteSection_tables sectionId w) as [E | E];
      rewrite E; [assumption | now apply intact_without_section].
Qed.

(** X8. The child counts of [deleteStage] and [deleteObject] fail open
    as well: when the counting read fails, a stage (an object) is deleted
    without cascade although objects (sections) refer to it, and these
    stay in the store. *)
Theorem child_counts_fail_open :
  forall (w : World) (e : jsstring),
    faults w = [None; Some e] ->
    (forall stageId s,
       filter (fun s => Pos.eqb (stage_id s) stageId) (stages (tables w)) = [s] ->
       let (result, w') := deleteStage stageId false w in
       success result = true
       /\ message result = lit "Этап успешно удален"
       /\ filter (fun s => Pos.eqb (stage_id s) stageId) (stages (tables w')) = []
       /\ objects (tables w') = objects (tables w))
    /\ (forall objectId o,
          filter (fun o => Pos.eqb (object_id o) objectId) (objects (tables w)) = [o] ->
          let (result, w') := deleteObject objectId false w in
          success result = true
          /\ message result = lit "Объект успешно удален"
          /\ filter (fun o => Pos.eqb (object_id o) objectId) (objects (tables w')) = []
          /\ sections (tables w') = sections (tables w)).
Proof.
  intros w e Hf. split.
  - intros stageId s Hs.
    unfold deleteStage, validateStageExists, hasStageChildren.
    erewrite bind_run.
    2:{ erewrite bind_run by (eapply select_passes; eassumption). reflexivity. }
    rewrite Hs. cbn [single ok_with_data pg_ok error data negb].
    erewrite bind_run.
    2:{ erewrite bind_run by (eapply select_fails; cbn; rewrite Hf; reflexivity).
        reflexivity. }
    cbn [count_rows pg_error data Nat.ltb Nat.leb andb negb].
    erewrite bind_run by reflexivity.
    erewrite bind_run by (apply delete_where_answers; cbn; rewrite Hf; reflexivity).
    cbn [deleted pg_ok error ret success message tables with_tables after_call set_stages
         projects stages objects sections].
    rewrite (filter_not_then_is (fun s => Pos.eqb (stage_id s) stageId)).
    repeat split.
  - intros objectId o Ho.
    unfold deleteObject, validateObjectExists, hasObjectChildren.
    erewrite bind_run.
    2:{ erewrite bind_run by (eapply select_passes; eassumption). reflexivity. }
    rewrite Ho. cbn [single ok_with_data pg_ok error data negb].
    erewrite bind_run.
    2:{ erewrite bind_run by (eapply select_fails; cbn; rewrite Hf; reflexivity).
        reflexivity. }
    cbn [count_rows pg_error data Nat.ltb Nat.leb andb negb].
    erewrite bind_run by reflexivity.
    erewrite bind_run by (apply delete_where_answers; cbn; rewrite Hf; reflexivity).
    cbn [deleted pg_ok error ret success message tables with_tables after_call set_objects
         projects stages objects sections].
    rewrite (filter_not_then_is (fun o => Pos.eqb (object_id o) objectId)).
    repeat split.
Qed.

(* ================================================================== *)
(** ** What the tools keep true of the store *)
(* ================================================================== *)

Lemma fresh_id_above used x : In x used -> (x < fresh_id used)%positive.
Proof.
  unfold fresh_id. induction used as [|y used IH]; cbn [In fold_right]; [contradiction|].
  intros [->|Hx]; [|specialize (IH Hx)]; lia.
Qed.

Lemma fresh_id_not_in used : ~ In (fresh_id used) used.
Proof. intros Hin. apply fresh_id_above in Hin. lia. Qed.

Lemma NoDup_snoc {A} (l : list A) (a : A) : NoDup l -> ~ In a l -> NoDup (l ++ [a]).
Proof.
  intros Hnd Hnot. apply NoDup_Add with (a := a) (l := l); [|now split].
  pose proof (Add_app a l []) as H. now rewrite app_nil_r in H.
Qed.

Lemma one_of_found_inv {A} (r : PgResult (list A)) (x : A) :
  one_of r = found x -> error r = None /\ data r = Some [x].
Proof.
  unfold one_of. destruct (error r); [discriminate|].
  destruct (data r) as [[|y [|z l]]|]; try discriminate.
  intros E. injection E as ->. auto.
Qed.

Lemma validateUniqueStageByName_found name projectId w s w1 :
  validateUniqueStageByName name projectId w = (found s, w1) ->
  tables w1 = tables w /\ In s (stages (tables w)) /\ stage_project_id s = projectId.
Proof.
  unfold validateUniqueStageByName.
  match goal with |- context [select ?t ?q] =>
    destruct (select_cases t q w) as [[msg E] | E] end;
    rewrite (bind_run _ _ _ _ _ E); cbn [ret]; intros Eq; injection Eq as Ho <-.
  - discriminate Ho.
  - apply one_of_found_inv in Ho as [_ Hd]. cbn [pg_ok data] in Hd.
    injection Hd as Hd. split; [reflexivity|].
    assert (Hin : In s (filter (fun s0 => str_eqb (stage_name s0) name
                                          && Pos.eqb (stage_project_id s0) projectId)
                               (stages (tables w)))) by (rewrite Hd; now left).
    apply filter_In in Hin as [Hin Hb]. apply andb_true_iff in Hb as [_ Hb].
    apply Pos.eqb_eq in Hb. auto.
Qed.

Lemma validateUniqueObjectByName_found name stageId w o w1 :
  validateUniqueObjectByName name stageId w = (found o, w1) ->
  tables w1 = tables w /\ In o (objects (tables w)).
Proof.
  unfold validateUniqueObjectByName.
  match goal with |- context [select ?t ?q] =>
    destruct (select_cases t q w) as [[msg E] | E] end;
    rewrite (bind_run _ _ _ _ _ E); cbn [ret]; intros Eq; injection Eq as Ho <-.
  - discriminate Ho.
  - apply one_of_found_inv in Ho as [_ Hd]. cbn [pg_ok data] in Hd.
    injection Hd as Hd. split; [reflexivity|].
    match type of Hd with filter ?f ?l = _ =>
      assert (Hin : In o (filter f l)) by (rewrite Hd; now left) end.
    now apply filter_In in Hin as [Hin _].
Qed.

Lemma findStageByNameExact_found name projectId w s w1 :
  findStageByNameExact name projectId w = (Some s, w1) ->
  tables w1 = tables w /\ In s (stages (tables w)) /\ stage_project_id s = projectId.
Proof.
  unfold findStageByNameExact.
  match goal with |- context [select ?t ?q] =>
    destruct (select_cases t q w) as [[msg E] | E] end;
    rewrite (bind_run _ _ _ _ _ E); cbn [ret]; intros Eq; injection Eq as Hd <-.
  - discriminate Hd.
  - split; [reflexivity|].
    match type of Hd with data_unless_error (single (filter ?f ?l)) = _ =>
      destruct (filter f l) as [|x [|y rest]] eqn:Ef; try discriminate Hd;
      assert (Hin : In x (filter f l)) by (rewrite Ef; now left) end.
    cbn in Hd. injection Hd as ->.
    apply filter_In in Hin as [Hin Hb]. apply andb_true_iff in Hb as [_ Hb].
    apply Pos.eqb_eq in Hb. auto.
Qed.

Lemma createObject_tables input w :
  tables (snd (createObject input w)) = tables w
  \/ tables (snd (createObject input w))
     = set_objects (objects (tables w) ++ [insert_object input (tables w)]) (tables w).
Proof.
  set (R := fun T' : Tables =>
              T' = tables w
              \/ T' = set_objects (objects (tables w) ++ [insert_object input (tables w)])
                        (tables w)).
  change (R (tables (snd (createObject input w)))).
  unfold createObject.
  apply (bind_reads_then _ _ R (tables w)); [reflexivity | reads |].
  intros p w1 H1. destruct (negb p); [left; exact H1|].
  apply (bind_reads_then _ _ R (tables w)); [assumption | reads |].
  intros s w2 H2. destruct (negb s); [left; exact H2|].
  apply (bind_reads_then _ _ R (tables w)); [assumption | reads |].
  intros u w3 H3. destruct u; [left; exact H3|].
  unfold bind.
  match goal with |- context [call ?c ?exec w3] =>
    destruct (call_cases c exec w3) as [[msg E] | E]; rewrite E end;
    cbn [ret snd fst tables after_call with_tables].
  - left. exact H3.
  - right. rewrite H3. reflexivity.
Qed.

Lemma createSection_tables input w :
  tables (snd (createSection input w)) = tables w
  \/ tables (snd (createSection input w))
     = set_sections (sections (tables w) ++ [insert_section input (tables w)]) (tables w).
Proof.
  set (R := fun T' : Tables =>
              T' = tables w
              \/ T' = set_sections (sections (tables w) ++ [insert_section input (tables w)])
                        (tables w)).
  change (R (tables (snd (createSection input w)))).
  unfold createSection.
  apply (bind_reads_then _ _ R (tables w)); [reflexivity | reads |].
  intros p w1 H1. destruct (negb p); [left; exact H1|].
  apply (bind_reads_then _ _ R (tables w)); [assumption | reads |].
  intros s w2 H2. destruct (negb s); [left; exact H2|].
  apply (bind_reads_then _ _ R (tables w)); [assumption | reads |].
  intros u w3 H3. destruct u; [left; exact H3|].
  unfold bind.
  match goal with |- context [call ?c ?exec w3] =>
    destruct (call_cases c exec w3) as [[msg E] | E]; rewrite E end;
    cbn [ret snd fst tables after_call with_tables].
  - left. exact H3.
  - right. rewrite H3. reflexivity.
Qed.

(** A new object in a stage of the store, naming the project of that
    stage. *)
Lemma consistent_insert_object input t s :
  store_consistent t ->
  In s (stages t) ->
  ObjectInput.object_stage_id input = stage_id s ->
  ObjectInput.object_project_id input = stage_project_id s ->
  store_consistent (set_objects (objects t ++ [insert_object input t]) t).
Proof.
  intros [Hns [Hno Hin]] Hs Hst Hpr. unfold store_consistent.
  cbn [set_objects stages objects]. split; [assumption|]. split.
  - rewrite map_app. cbn [map insert_object object_id].
    apply NoDup_snoc; [assumption | apply fresh_id_not_in].
  - apply hierarchy_intact_spec in Hin as [HA [HB HC]]. apply hierarchy_intact_spec.
    cbn [set_objects projects stages objects sections]. split; [|split; [|assumption]].
    + intros o Ho. apply in_app_or in Ho as [Ho|[<-|[]]]; [now apply HA|].
      cbn [insert_object object_stage_id object_project_id]. split.
      * exists s. split; [assumption | congruence].
      * intros s' Hs' Hid. rewrite Hpr. f_equal.
        apply (same_key_same_row stage_id (stages t)); congruence.
    + intros x Hx. destruct (HB x Hx) as [[o [Ho Hid]] Hall]. split.
      * exists o. split; [apply in_or_app; now left | assumption].
      * intros o' Ho' Hid'. apply in_app_or in Ho' as [Ho'|[<-|[]]]; [now apply Hall|].
        exfalso. cbn [insert_object object_id] in Hid'.
        apply (fresh_id_not_in (map object_id (objects t))).
        rewrite Hid', <- Hid. now apply in_map.
Qed.

(** A new section in an object of the store, naming the project of that
    object. *)
Lemma consistent_insert_section input t o :
  store_consistent t ->
  In o (objects t) ->
  SectionInput.section_object_id input = object_id o ->
  SectionInput.section_project_id input = object_project_id o ->
  store_consistent (set_sections (sections t ++ [insert_section input t]) t).
Proof.
  intros [Hns [Hno Hin]] Ho Hob Hpr. unfold store_consistent.
  cbn [set_sections stages objects]. split; [assumption|]. split; [assumption|].
  apply hierarchy_intact_spec in Hin as [HA [HB HC]]. apply hierarchy_intact_spec.
  cbn [set_sections projects stages objects sections].
  split; [assumption|]. split; [|assumption].
  intros x Hx. apply in_app_or in Hx as [Hx|[<-|[]]]; [now apply HB|].
  cbn [insert_section section_object_id section_project_id]. split.
  - exists o. split; [assumption | congruence].
  - intros o' Ho' Hid. rewrite Hpr. f_equal.
    apply (same_key_same_row object_id (objects t)); congruence.
Qed.

(** An object moved to a stage of its own project, or left in its
    stage. *)
Lemma consistent_update_object ud t object :
  store_consistent t ->
  In object (objects t) ->
  ObjectUpdate.object_id ud = object_id object ->
  ObjectUpdate.object_project_id ud = None ->
  (ObjectUpdate.object_stage_id ud = None
   \/ exists s, In s (stages t) /\ stage_project_id s = object_project_id object
                /\ ObjectUpdate.object_stage_id ud = Some (stage_id s)) ->
  store_consistent (set_objects (map (apply_object_update ud) (objects t)) t).
Proof.
  intros [Hns [Hno Hin]] Hob Hid Hpr Hst. unfold store_consistent.
  cbn [set_objects stages objects].
  assert (Hids : forall o, object_id (apply_object_update ud o) = object_id o).
  { intros o. unfold apply_object_update. now destruct (Pos.eqb _ _). }
  assert (Hprj : forall o, object_project_id (apply_object_update ud o)
                           = object_project_id o).
  { intros o. unfold apply_object_update. destruct (Pos.eqb _ _); [|reflexivity].
    cbn. now rewrite Hpr. }
  split; [assumption|]. split.
  - rewrite map_map. rewrite (map_ext _ object_id Hids). assumption.
  - apply hierarchy_intact_spec in Hin as [HA [HB HC]]. apply hierarchy_intact_spec.
    cbn [set_objects projects stages objects sections]. split; [|split; [|assumption]].
    + intros o' Ho'. apply in_map_iff in Ho' as [o [<- Ho]].
      destruct (Pos.eqb (object_id o) (ObjectUpdate.object_id ud)) eqn:E.
      * apply Pos.eqb_eq in E. rewrite Hid in E.
        assert (o = object) by (eapply same_key_same_row; eauto). subst o.
        rewrite Hprj. unfold apply_object_update. rewrite Hid, Pos.eqb_refl.
        cbn [object_stage_id].
        destruct Hst as [Hn | [s [Hs [Hsp Hsi]]]]; rewrite ?Hn, ?Hsi; cbn [updated].
        -- now apply HA.
        -- split; [now exists s|]. intros s' Hs' Hid'. rewrite <- Hsp. f_equal.
           apply (same_key_same_row stage_id (stages t)); congruence.
      * unfold apply_object_update. rewrite E. now apply HA.
    + intros x Hx. destruct (HB x Hx) as [[o [Ho Hio]] Hall]. split.
      * exists (apply_object_update ud o). split; [now apply in_map|].
        now rewrite Hids.
      * intros o' Ho' Hid'. apply in_map_iff in Ho' as [o0 [<- Ho0]].
        rewrite Hids in Hid'. rewrite Hprj. now apply Hall.
Qed.

(** A section that keeps its object and its project. *)
Lemma consistent_update_section ud t :
  store_consistent t ->
  SectionUpdate.section_object_id ud = None ->
  SectionUpdate.section_project_id ud = None ->
  store_consistent (set_sections (map (apply_section_update ud) (sections t)) t).
Proof.
  intros [Hns [Hno Hin]] Hob Hpr. unfold store_consistent.
  cbn [set_sections stages objects]. split; [assumption|]. split; [assumption|].
  apply hierarchy_intact_spec in Hin as [HA [HB HC]]. apply hierarchy_intact_spec.
  cbn [set_sections projects stages objects sections].
  split; [assumption|]. split; [|assumption].
  intros x' Hx'. apply in_map_iff in Hx' as [x [<- Hx]].
  assert (Ho : section_object_id (apply_section_update ud x) = section_object_id x).
  { unfold apply_section_update. destruct (Pos.eqb _ _); [|reflexivity].
    cbn. now rewrite Hob. }
  assert (Hp : section_project_id (apply_section_update ud x) = section_project_id x).
  { unfold apply_section_update. destruct (Pos.eqb _ _); [|reflexivity].
    cbn. now rewrite Hpr. }
  rewrite Ho, Hp. now apply HB.
Qed.

Lemma and_then_await_tables {A B} (m : M A) (k : A -> H B) w :
  (forall a, reads_only (k a)) ->
  tables (snd (and_then (await m) k w)) = tables (snd (m w)).
Proof.
  intros Hk. unfold and_then, await, bind. destruct (m w) as [a w1]. cbn [ret snd].
  apply Hk.
Qed.

Lemma handleCreateObject_keeps_consistent (P : Platform) args w :
  store_consistent (tables w) ->
  store_consistent (tables (snd (handleCreateObject args w))).
Proof.
  intros HR. set (R := store_consistent). change (R (tables w)) in HR.
  change (R (tables (snd (handleCreateObject args w)))).
  unfold handleCreateObject. rewrite run_tables. cbv zeta.
  apply (and_then_reads_then _ _ R (tables w));
    [reflexivity | unfold validateUniqueProjectByName; reads | exact HR |].
  intros projectResult w1 _ H1.
  apply (and_then_reads_then _ _ R (tables w)); [assumption | reads | exact HR |].
  intros project w2 _ H2.
  apply (and_then_reads_then _ _ R (tables w));
    [assumption | unfold validateUniqueStageByName; reads | exact HR |].
  intros stageResult w3 Es H3. apply await_inv in Es.
  apply (and_then_reads_then _ _ R (tables w)); [assumption | reads | exact HR |].
  intros stage w4 Est H4.
  destruct stageResult as [| |s]; try discriminate Est.
  injection Est as Est Ew. subst s w4.
  apply validateUniqueStageByName_found in Es as (_ & Hin & Hprj). rewrite H2 in Hin.
  apply (and_then_reads_then _ _ R (tables w));
    [assumption | unfold validateUniqueObjectByName; reads | exact HR |].
  intros existingObjectCheck w5 _ H5.
  apply (and_then_reads_then _ _ R (tables w)); [assumption | reads | exact HR |].
  intros _ w6 _ H6.
  apply (and_then_reads_then _ _ R (tables w)); [assumption | reads | exact HR |].
  intros startDate w7 _ H7.
  apply (and_then_reads_then _ _ R (tables w)); [assumption | reads | exact HR |].
  intros endDate w8 _ H8.
  apply (and_then_reads_then _ _ R (tables w)); [assumption | reads | exact HR |].
  intros _ w9 _ H9.
  apply (and_then_reads_then _ _ R (tables w)); [assumption | reads | exact HR |].
  intros responsible w10 _ H10.
  rewrite and_then_await_tables by (intros a; reads).
  match goal with |- R (tables (snd (createObject ?input w10))) =>
    destruct (createObject_tables input w10) as [E|E]; rewrite E, H10;
    [exact HR | apply (consistent_insert_object input (tables w) stage)] end;
    auto.
Qed.

Lemma handleCreateSection_keeps_consistent (P : Platform) args w :
  store_consistent (tables w) ->
  store_consistent (tables (snd (handleCreateSection args w))).
Proof.
  intros HR. set (R := store_consistent). change (R (tables w)) in HR.
  change (R (tables (snd (handleCreateSection args w)))).
  unfold handleCreateSection. rewrite run_tables. cbv zeta.
  apply (and_then_reads_then _ _ R (tables w));
    [reflexivity | unfold validateUniqueObjectByName; reads | exact HR |].
  intros objectResult w1 Eo H1. apply await_inv in Eo.
  apply (and_then_reads_then _ _ R (tables w)); [assumption | reads | exact HR |].
  intros objectEntity w2 Eob H2.
  destruct objectResult as [| |o]; try discriminate Eob.
  injection Eob as Eob Ew. subst o w2.
  apply validateUniqueObjectByName_found in Eo as (_ & Hin).
  apply (and_then_reads_then _ _ R (tables w)); [assumption | reads | exact HR |].
  intros startDate w3 _ H3.
  apply (and_then_reads_then _ _ R (tables w)); [assumption | reads | exact HR |].
  intros endDate w4 _ H4.
  apply (and_then_reads_then _ _ R (tables w)); [assumption | reads | exact HR |].
  intros _ w5 _ H5.
  apply (and_then_reads_then _ _ R (tables w)); [assumption | reads | exact HR |].
  intros responsible w6 _ H6.
  rewrite and_then_await_tables by (intros a; reads).
  match goal with |- R (tables (snd (createSection ?input w6))) =>
    destruct (createSection_tables input w6) as [E|E]; rewrite E, H6;
    [exact HR | apply (consistent_insert_section input (tables w) objectEntity)] end;
    auto.
Qed.

(** What the update data of [update_object] says about the references. *)
Lemma object_update_data_refs (P : Platform) args currentName projectName project object
      w ud w1 :
  object_update_data args currentName projectName project object w = (inr ud, w1) ->
  ObjectUpdate.object_project_id ud = None
  /\ (ObjectUpdate.object_stage_id ud = None
      \/ exists s, In s (stages (tables w)) /\ stage_project_id s = project_id project
                   /\ ObjectUpdate.object_stage_id ud = Some (stage_id s)).
Proof.
  unfold object_update_data. intros E.
  apply and_then_inv in E as (newName & w2 & En & E).
  assert (H2 : tables w2 = tables w).
  { pose proof (reads_only_object_new_name args currentName object w) as Hr.
    rewrite En in Hr. exact Hr. }
  apply and_then_inv in E as (newStageId & w3 & Est & E).
  apply and_then_inv in E as (responsible & w4 & _ & E).
  apply and_then_inv in E as (startDate & w5 & _ & E).
  apply and_then_inv in E as (endDate & w6 & _ & E).
  injection E as <- _. cbn [ObjectUpdate.object_project_id ObjectUpdate.object_stage_id].
  split; [reflexivity|].
  destruct (truthy (arg args "new_stage_name")).
  - apply and_then_inv in Est as (newStage & w7 & Ef & Est). apply await_inv in Ef.
    destruct newStage as [s|]; [|discriminate Est].
    injection Est as <- _.
    apply findStageByNameExact_found in Ef as (_ & Hin & Hp). rewrite H2 in Hin.
    right. now exists s.
  - injection Est as <- _. now left.
Qed.

Lemma section_update_data_refs (P : Platform) args currentName section w ud w1 :
  section_update_data args currentName section w = (inr ud, w1) ->
  SectionUpdate.section_object_id ud = None /\ SectionUpdate.section_project_id ud = None.
Proof.
  unfold section_update_data. intros E.
  apply and_then_inv in E as (newName & w2 & _ & E).
  apply and_then_inv in E as (responsible & w4 & _ & E).
  apply and_then_inv in E as (startDate & w5 & _ & E).
  apply and_then_inv in E as (endDate & w6 & _ & E).
  injection E as <- _. split; reflexivity.
Qed.

Lemma object_commit_tables (P : Platform) currentName projectName object ud w :
  tables (snd (object_commit currentName projectName object ud w)) = tables w
  \/ tables (snd (object_commit currentName projectName object ud w))
     = set_objects (map (apply_object_update ud) (objects (tables w))) (tables w).
Proof.
  unfold object_commit.
  destruct (negb (validateDateRange _ _)).
  - rewrite and_then_return. now left.
  - rewrite and_then_proceed.
    rewrite and_then_await_tables by (intros a; reads).
    apply updateObject_tables.
Qed.

Lemma section_commit_tables (P : Platform) currentName projectName section ud w :
  tables (snd (section_commit currentName projectName section ud w)) = tables w
  \/ tables (snd (section_commit currentName projectName section ud w))
     = set_sections (map (apply_section_update ud) (sections (tables w))) (tables w).
Proof.
  unfold section_commit.
  destruct (negb (validateDateRange _ _)).
  - rewrite and_then_return. now left.
  - rewrite and_then_proceed.
    rewrite and_then_await_tables by (intros a; reads).
    apply updateSection_tables.
Qed.

Lemma handleUpdateObject_keeps_consistent (P : Platform) args w :
  store_consistent (tables w) ->
  store_consistent (tables (snd (handleUpdateObject args w))).
Proof.
  intros HR. set (R := store_consistent). change (R (tables w)) in HR.
  change (R (tables (snd (handleUpdateObject args w)))).
  unfold handleUpdateObject. rewrite run_tables. cbv zeta.
  apply (and_then_reads_then _ _ R (tables w)); [reflexivity | reads | exact HR |].
  intros found_project w1 _ H1.
  apply (and_then_reads_then _ _ R (tables w)); [assumption | reads | exact HR |].
  intros project w2 _ H2.
  apply (and_then_reads_then _ _ R (tables w)); [assumption | reads | exact HR |].
  intros stageId w3 _ H3.
  apply (and_then_reads_then _ _ R (tables w)); [assumption | reads | exact HR |].
  intros found_object w4 Ef H4. apply await_inv in Ef.
  apply (and_then_reads_then _ _ R (tables w)); [assumption | reads | exact HR |].
  intros object w5 Eo H5.
  destruct found_object as [o|]; [|discriminate Eo].
  injection Eo as Eo Ew. subst o w5.
  apply findObjectByNameExact_found in Ef as (Hin & _ & Hprj & _). rewrite H3 in Hin.
  apply (and_then_reads_then _ _ R (tables w));
    [assumption | apply reads_only_object_update_data | exact HR |].
  intros ud w6 Eu H6.
  pose proof (object_update_data_inv _ _ _ _ _ _ _ _ _ Eu) as (Hid & _).
  apply object_update_data_refs in Eu as (Hnp & Hst). rewrite H4 in Hst.
  destruct (object_commit_tables P (trim (String_ (arg args "current_name")))
              (trim (String_ (arg args "project_name"))) object ud w6) as [E|E];
    rewrite E, H6; [exact HR|].
  apply (consistent_update_object ud (tables w) object); auto.
  rewrite Hprj. exact Hst.
Qed.

Lemma handleUpdateSection_keeps_consistent (P : Platform) args w :
  store_consistent (tables w) ->
  store_consistent (tables (snd (handleUpdateSection args w))).
Proof.
  intros HR. set (R := store_consistent). change (R (tables w)) in HR.
  change (R (tables (snd (handleUpdateSection args w)))).
  unfold handleUpdateSection. rewrite run_tables. cbv zeta.
  apply (and_then_reads_then _ _ R (tables w)); [reflexivity | reads | exact HR |].
  intros found_project w1 _ H1.
  apply (and_then_reads_then _ _ R (tables w)); [assumption | reads | exact HR |].
  intros project w2 _ H2.
  apply (and_then_reads_then _ _ R (tables w)); [assumption | reads | exact HR |].
  intros objectId w3 _ H3.
  apply (and_then_reads_then _ _ R (tables w)); [assumption | reads | exact HR |].
  intros found_section w4 _ H4.
  apply (and_then_reads_then _ _ R (tables w)); [assumption | reads | exact HR |].
  intros section w5 _ H5.
  apply (and_then_reads_then _ _ R (tables w));
    [assumption | apply reads_only_section_update_data | exact HR |].
  intros ud w6 Eu H6.
  apply section_update_data_refs in Eu as (Hno & Hnp).
  destruct (section_commit_tables P (trim (String_ (arg args "current_name")))
              (trim (String_ (arg args "project_name"))) section ud w6) as [E|E];
    rewrite E, H6; [exact HR|].
  now apply consistent_update_section.
Qed.

(** X9. The four writing tools keep the store consistent, whatever the
    request and whatever the store does (any call may fail): if stage and
    object identifiers are unique, every object has its stage, every
    section its object, every stage its project and the project
    references agree, the same holds after [create_object],
    [create_section], [update_object] and [update_section]. *)
Theorem writing_tools_keep_the_store_consistent :
  forall (P : Platform) (w : World),
    store_consistent (tables w) ->
    forall args : Args,
      store_consistent (tables (snd (handleCreateObject args w)))
      /\ store_consistent (tables (snd (handleCreateSection args w)))
      /\ store_consistent (tables (snd (handleUpdateObject args w)))
      /\ store_consistent (tables (snd (handleUpdateSection args w))).
Proof.
  intros P w Hc args. split; [|split; [|split]].
  - now apply handleCreateObject_keeps_consistent.
  - now apply handleCreateSection_keeps_consistent.
  - now apply handleUpdateObject_keeps_consistent.
  - now apply handleUpdateSection_keeps_consistent.
Qed.

(* ================================================================== *)
(** ** Stages *)
(* ================================================================== *)

Lemma createStage_tables input w :
  tables (snd (createStage input w)) = tables w
  \/ ((exists p, In p (projects (tables w))
                 /\ project_id p = StageInput.stage_project_id input)
      /\ tables (snd (createStage input w))
         = set_stages (stages (tables w) ++ [insert_stage input (tables w)]) (tables w)).
Proof.
  unfold createStage.
  destruct (validateProjectExists_cases (StageInput.stage_project_id input) w)
    as [b [w1 [E [H1 Hone]]]].
  rewrite (bind_run _ _ _ _ _ E).
  destruct b; cbn [negb]; [|left; exact H1].
  destruct (Hone eq_refl) as [p Hp].
  assert (Hin : In p (projects_with_id (tables w) (StageInput.stage_project_id input)))
    by (rewrite Hp; now left).
  apply filter_In in Hin as [Hin Hid]. apply Pos.eqb_eq in Hid.
  unfold bind.
  match goal with |- context [call ?c ?exec w1] =>
    destruct (call_cases c exec w1) as [[msg Ec] | Ec]; rewrite Ec end;
    cbn [ret snd fst tables after_call with_tables].
  - left. exact H1.
  - right. rewrite H1. split; [now exists p | reflexivity].
Qed.

Lemma updateStage_tables input w :
  tables (snd (updateStage input w)) = tables w
  \/ tables (snd (updateStage input w))
     = set_stages (map (apply_stage_update input) (stages (tables w))) (tables w).
Proof.
  set (R := fun T' : Tables =>
              T' = tables w
              \/ T' = set_stages (map (apply_stage_update input) (stages (tables w)))
                        (tables w)).
  change (R (tables (snd (updateStage input w)))).
  unfold updateStage.
  apply (bind_reads_then _ _ R (tables w)); [reflexivity | reads |].
  intros e w1 H1. destruct (negb e); [left; exact H1|].
  apply (bind_reads_then _ _ R (tables w)); [assumption | reads |].
  intros p w2 H2. destruct p; [left; exact H2|].
  unfold bind.
  match goal with |- context [call ?c ?exec w2] =>
    destruct (call_cases c exec w2) as [[msg E] | E]; rewrite E end;
    cbn [ret snd fst tables after_call with_tables].
  - left. exact H2.
  - right. rewrite H2. reflexivity.
Qed.

Lemma consistent_insert_stage input t p :
  store_consistent t ->
  In p (projects t) ->
  project_id p = StageInput.stage_project_id input ->
  store_consistent (set_stages (stages t ++ [insert_stage input t]) t).
Proof.
  intros [Hns [Hno Hin]] Hp Hid. unfold store_consistent.
  cbn [set_stages stages objects]. split; [|split; [assumption|]].
  - rewrite map_app. cbn [map insert_stage stage_id].
    apply NoDup_snoc; [assumption | apply fresh_id_not_in].
  - apply hierarchy_intact_spec in Hin as [HA [HB HC]]. apply hierarchy_intact_spec.
    cbn [set_stages projects stages objects sections]. split; [|split; [assumption|]].
    + intros o Ho. destruct (HA o Ho) as [[s [Hs Hsid]] Hall]. split.
      * exists s. split; [apply in_or_app; now left | assumption].
      * intros s' Hs' Hid'. apply in_app_or in Hs' as [Hs'|[<-|[]]]; [now apply Hall|].
        exfalso. cbn [insert_stage stage_id] in Hid'.
        apply (fresh_id_not_in (map stage_id (stages t))).
        rewrite Hid', <- Hsid. now apply in_map.
    + intros s Hs. apply in_app_or in Hs as [Hs|[<-|[]]]; [now apply HC|].
      exists p. split; [assumption|]. cbn [insert_stage stage_project_id]. exact Hid.
Qed.

Lemma consistent_update_stage input t :
  store_consistent t ->
  StageUpdate.stage_project_id input = None ->
  store_consistent (set_stages (map (apply_stage_update input) (stages t)) t).
Proof.
  intros [Hns [Hno Hin]] Hkeep. unfold store_consistent.
  cbn [set_stages stages objects].
  assert (Hids : forall s, stage_id (apply_stage_update input s) = stage_id s).
  { intros s. unfold apply_stage_update. destruct (Pos.eqb (stage_id s) _); reflexivity. }
  assert (Hprj : forall s, stage_project_id (apply_stage_update input s)
                           = stage_project_id s).
  { intros s. unfold apply_stage_update. destruct (Pos.eqb (stage_id s) _); [|reflexivity].
    cbn. now rewrite Hkeep. }
  split; [|split; [assumption|]].
  - rewrite map_map. rewrite (map_ext _ stage_id Hids). assumption.
  - apply hierarchy_intact_spec in Hin as [HA [HB HC]]. apply hierarchy_intact_spec.
    cbn [set_stages projects stages objects sections]. split; [|split; [assumption|]].
    + intros o Ho. destruct (HA o Ho) as [[s [Hs Hsid]] Hall]. split.
      * exists (apply_stage_update input s). split; [now apply in_map|].
        now rewrite Hids.
      * intros s' Hs' Hid'. apply in_map_iff in Hs' as [s0 [<- Hs0]].
        rewrite Hids in Hid'. rewrite Hprj. now apply Hall.
    + intros s' Hs'. apply in_map_iff in Hs' as [s [<- Hs]]. rewrite Hprj. now apply HC.
Qed.

(** X10. [createStage] and [updateStage] keep the store consistent,
    whatever the store does: a stage is only inserted under a project
    that was found, with an identifier of its own; an update that names
    no other project changes no reference. *)
Theorem stage_writes_keep_the_store_consistent :
  forall w : World,
    store_consistent (tables w) ->
    (forall input, store_consistent (tables (snd (createStage input w))))
    /\ (forall input, StageUpdate.stage_project_id input = None ->
                      store_consistent (tables (snd (updateStage input w)))).
Proof.
  intros w Hc. split.
  - intros input.
    destruct (createStage_tables input w) as [E | [[p [Hp Hid]] E]]; rewrite E;
      [assumption | now apply (consistent_insert_stage input (tables w) p)].
  - intros input Hkeep.
    destruct (updateStage_tables input w) as [E | E]; rewrite E;
      [assumption | now apply consistent_update_stage].
Qed.

(* ================================================================== *)
(** ** Object names within a stage *)
(* ================================================================== *)

(** X11. On a store that answers, [create_object] never gives a stage two
    objects of one name: if object names are distinct within every stage
    before the request, they are after it. *)
Theorem create_object_keeps_names_distinct_in_stages :
  forall (P : Platform) (args : Args) (w : World),
    faults w = [] ->
    object_names_distinct_in_stages (tables w) ->
    object_names_distinct_in_stages (tables (snd (handleCreateObject args w))).
Proof.
  intros P args w Hf HR. set (R := object_names_distinct_in_stages). change (R (tables w)) in HR.
  change (R (tables (snd (handleCreateObject args w)))).
  unfold handleCreateObject. rewrite run_tables. cbv zeta.
  erewrite and_then_await by (apply validateUniqueProjectByName_answers; assumption).
  destruct (projects_named (tables w) (trim (String_ (arg args "project_name"))))
    as [|project [|p2 ps]]; cbn [one_of pg_ok error data];
    rewrite ?and_then_return, ?and_then_proceed; try exact HR.
  erewrite and_then_await
    by (apply validateUniqueStageByName_answers; apply faults_after_call; assumption).
  cbn [tables after_call].
  destruct (stages_named (tables w) (trim (String_ (arg args "stage_name")))
              (project_id project))
    as [|stage [|s2 ss]]; cbn [one_of pg_ok error data];
    rewrite ?and_then_return, ?and_then_proceed; try exact HR.
  erewrite and_then_await
    by (apply validateUniqueObjectByName_scoped_answers;
        do 2 apply faults_after_call; assumption).
  cbn [tables after_call].
  destruct (objects_named_in (tables w) (trim (String_ (arg args "object_name")))
              (stage_id stage))
    as [|o [|o2 os]] eqn:Ho; cbn [one_of pg_ok error data];
    rewrite ?and_then_return, ?and_then_proceed; try exact HR.
  apply (and_then_reads_then _ _ R (tables w)); [reflexivity | reads | exact HR |].
  intros startDate w7 _ H7.
  apply (and_then_reads_then _ _ R (tables w)); [assumption | reads | exact HR |].
  intros endDate w8 _ H8.
  apply (and_then_reads_then _ _ R (tables w)); [assumption | reads | exact HR |].
  intros _ w9 _ H9.
  apply (and_then_reads_then _ _ R (tables w)); [assumption | reads | exact HR |].
  intros responsible w10 _ H10.
  rewrite and_then_await_tables by (intros a; reads).
  match goal with |- R (tables (snd (createObject ?input w10))) =>
    destruct (createObject_tables input w10) as [E|E]; rewrite E, H10 end;
    [exact HR|].
  unfold R, object_names_distinct_in_stages in *. cbn [set_objects objects].
  rewrite map_app. cbn [map insert_object object_stage_id object_name
                        ObjectInput.object_stage_id ObjectInput.object_name].
  apply NoDup_snoc; [exact HR|].
  intros Hin. apply in_map_iff in Hin as [o [Hk Hin]]. injection Hk as Hst Hnm.
  unfold objects_named_in in Ho. apply (filter_nil_inv _ _ o Ho) in Hin.
  rewrite Hst, Hnm, str_eqb_refl, Pos.eqb_refl in Hin. discriminate.
Qed.

Lemma validateUniqueObjectByName_fails name stageId w msg rest :
  faults w = Some msg :: rest ->
  validateUniqueObjectByName name stageId w
  = (not_found, after_call (selecting T_objects) w).
Proof.
  intros Hf. unfold validateUniqueObjectByName.
  erewrite bind_run by (eapply select_fails; eassumption). reflexivity.
Qed.

Lemma validateUniqueProjectByName_passes name w rest :
  faults w = None :: rest ->
  validateUniqueProjectByName name w
  = (one_of (pg_ok (projects_named (tables w) name)), after_call (selecting T_projects) w).
Proof.
  intros Hf. unfold validateUniqueProjectByName.
  erewrite bind_run by (eapply select_passes; eassumption). reflexivity.
Qed.

Lemma validateUniqueStageByName_passes name projectId w rest :
  faults w = None :: rest ->
  validateUniqueStageByName name projectId w
  = (one_of (pg_ok (stages_named (tables w) name projectId)),
     after_call (selecting T_stages) w).
Proof.
  intros Hf. unfold validateUniqueStageByName.
  erewrite bind_run by (eapply select_passes; eassumption). reflexivity.
Qed.

(** X12. The name check of [create_object] fails open: when the read
    that looks for an object of that name in the stage fails, the tool
    takes the name for free and inserts the object, so that the stage
    gets a second object of the name if it had one.  (Stated for a
    request without dates and responsible person, on a store whose other
    calls answer.) *)
Theorem create_object_name_check_fails_open :
  forall (P : Platform) (args : Args) (w : World) (project : Project) (stage : Stage)
         (e : jsstring),
    faults w = [None; None; Some e] ->
    projects_named (tables w) (trim (String_ (arg args "project_name"))) = [project] ->
    stages_named (tables w) (trim (String_ (arg args "stage_name"))) (project_id project)
      = [stage] ->
    projects_with_id (tables w) (project_id project) = [project] ->
    filter (fun s => Pos.eqb (stage_id s) (stage_id stage)) (stages (tables w)) = [stage] ->
    arg args "start_date" = None ->
    arg args "end_date" = None ->
    arg args "responsible_name" = None ->
    let objectName := trim (String_ (arg args "object_name")) in
    let row := insert_object (requested_object args project stage) (tables w) in
    let (result, w') := handleCreateObject args w in
    result = object_created objectName project stage
    /\ objects (tables w') = objects (tables w) ++ [row]
    /\ objects_named_in (tables w') objectName (stage_id stage)
       = objects_named_in (tables w) objectName (stage_id stage) ++ [row].
Proof.
  intros P args w project stage e Hf Hp Hs Hpid Hsid Hsd Hed Hr objectName row.
  unfold handleCreateObject. cbv zeta.
  erewrite run_finished.
  2:{ erewrite and_then_await by (eapply validateUniqueProjectByName_passes; eassumption).
      rewrite Hp, one_of_one, and_then_proceed.
      erewrite and_then_await
        by (eapply validateUniqueStageByName_passes; cbn; rewrite Hf; reflexivity).
      cbn [tables after_call]. rewrite Hs, one_of_one, and_then_proceed.
      erewrite and_then_await
        by (eapply validateUniqueObjectByName_fails; cbn; rewrite Hf; reflexivity).
      cbv iota. rewrite and_then_proceed.
      rewrite Hsd, Hed, Hr. unfold date_argument, resolve_responsible. cbn [truthy].
      rewrite !and_then_proceed.
      unfold validateDateRange. cbn [or_else truthy negb orb].
      rewrite !and_then_proceed.
      erewrite and_then_await.
      2:{ unfold createObject.
          erewrite bind_run
            by (apply validateProjectExists_answers; cbn; rewrite Hf; reflexivity).
          cbn [tables after_call ObjectInput.object_project_id]. rewrite Hpid.
          cbn [single ok_with_data pg_ok error data negb].
          erewrite bind_run
            by (apply validateStageExists_answers; cbn; rewrite Hf; reflexivity).
          cbn [tables after_call ObjectInput.object_stage_id]. rewrite Hsid.
          cbn [single ok_with_data pg_ok error data negb].
          cbn [given_but_missing ObjectInput.object_responsible].
          erewrite bind_run by reflexivity. cbv beta iota.
          erewrite bind_run by (apply call_answers; cbn; rewrite Hf; reflexivity).
          reflexivity. }
      reflexivity. }
  cbn [written pg_ok error data success message fst snd tables with_tables after_call
       set_objects objects].
  split; [reflexivity|]. split; [reflexivity|].
  unfold objects_named_in. cbn [set_objects objects]. rewrite filter_app.
  cbn [filter insert_object object_name object_stage_id requested_object
       ObjectInput.object_name ObjectInput.object_stage_id].
  fold objectName. now rewrite str_eqb_refl, Pos.eqb_refl.
Qed.

(* ================================================================== *)
(** ** Moving an object to another stage *)
(* ================================================================== *)

Lemma findProjectByNameExact_answers name w :
  faults w = [] ->
  findProjectByNameExact name w
  = (data_unless_error (single (projects_named (tables w) (trim name))),
     after_call (selecting T_projects) w).
Proof.
  intros Hf. unfold findProjectByNameExact.
  erewrite bind_run by (apply select_answers; assumption). reflexivity.
Qed.

Lemma findStageByNameExact_answers name projectId w :
  faults w = [] ->
  findStageByNameExact name projectId w
  = (data_unless_error (single (stages_named (tables w) (trim name) projectId)),
     after_call (selecting T_stages) w).
Proof.
  intros Hf. unfold findStageByNameExact.
  erewrite bind_run by (apply select_answers; assumption). reflexivity.
Qed.

Lemma findObjectByNameExact_answers name projectId stageId w :
  faults w = [] ->
  findObjectByNameExact name projectId stageId w
  = (data_unless_error
       (single (filter (fun o => str_eqb (object_name o) (trim name)
                                 && Pos.eqb (object_project_id o) projectId
                                 && when_given stageId
                                      (fun s o => Pos.eqb (object_stage_id o) s) o)
                       (objects (tables w)))),
     after_call (selecting T_objects) w).
Proof.
  intros Hf. unfold findObjectByNameExact.
  erewrite bind_run by (apply select_answers; assumption). reflexivity.
Qed.

(** The rows a filter keeps after an update of the one row with a given
    identifier. *)
Lemma filter_after_update ud (f : Object -> bool) l object :
  filter (fun o => Pos.eqb (object_id o) (ObjectUpdate.object_id ud)) l = [object] ->
  f object = false ->
  f (apply_object_update ud object) = true ->
  List.length (filter f (map (apply_object_update ud) l)) = S (List.length (filter f l)).
Proof.
  intros Hone Hbefore Hafter.
  destruct (filter_one_split _ _ _ Hone) as [l1 [l2 [-> [Hid Hother]]]].
  assert (Hsame : forall l', (forall x, In x l' -> In x (l1 ++ l2)) ->
            map (apply_object_update ud) l' = l').
  { induction l' as [|x l' IHl]; intros Hl; [reflexivity|]. cbn [map].
    rewrite IHl by (intros y Hy; apply Hl; now right).
    unfold apply_object_update. rewrite (Hother x) by (apply Hl; now left). reflexivity. }
  rewrite map_app. cbn [map].
  rewrite (Hsame l1) by (intros x Hx; apply in_or_app; now left).
  rewrite (Hsame l2) by (intros x Hx; apply in_or_app; now right).
  rewrite !filter_app. cbn [filter]. rewrite Hbefore, Hafter.
  rewrite !length_app. cbn [List.length]. lia.
Qed.

(** X13. [update_object] moves an object to another stage without
    looking at the names in that stage: on a store that answers, a
    request that names the object and a new stage of its project goes
    through whatever the target stage holds, and the target stage then
    has one more object of that name than before. *)
Theorem update_object_moves_without_name_check :
  forall (P : Platform) (args : Args) (w : World)
         (project : Project) (source target : Stage) (object : Object),
    faults w = [] ->
    let currentName := trim (String_ (arg args "current_name")) in
    let projectName := trim (String_ (arg args "project_name")) in
    projects_named (tables w) projectName = [project] ->
    truthy (arg args "stage_name") = true ->
    stages_named (tables w) (trim (String_ (arg args "stage_name"))) (project_id project)
      = [source] ->
    filter (fun o => str_eqb (object_name o) currentName
                     && Pos.eqb (object_project_id o) (project_id project)
                     && Pos.eqb (object_stage_id o) (stage_id source))
           (objects (tables w)) = [object] ->
    truthy (arg args "new_stage_name") = true ->
    stages_named (tables w) (trim (String_ (arg args "new_stage_name")))
      (project_id project) = [target] ->
    stage_id target <> stage_id source ->
    arg args "new_name" = None ->
    arg args "responsible_name" = None ->
    arg args "start_date" = None ->
    arg args "end_date" = None ->
    validateDateRange (object_start_date object) (object_end_date object) = true ->
    filter (fun o => Pos.eqb (object_id o) (object_id object)) (objects (tables w))
      = [object] ->
    filter (fun s => Pos.eqb (stage_id s) (stage_id target)) (stages (tables w))
      = [target] ->
    let (result, w') := handleUpdateObject args w in
    result = object_updated currentName projectName
               (change (is_some (new_description (arg args "description")))
                       (lit "Описание: обновлено")
                ++ [lit "Стадия: изменена"])
    /\ objects (tables w')
       = map (apply_object_update (move_to_stage args object target)) (objects (tables w))
    /\ List.length (objects_named_in (tables w') currentName (stage_id target))
       = S (List.length (objects_named_in (tables w) currentName (stage_id target))).
Proof.
  intros P args w project source target object Hf currentName projectName
         Hp Hsn Hs Ho Hnsn Ht Hne Hnn Hrn Hsd Hed Hrange Hoid Htid.
  assert (Hname : object_name object = currentName /\
                  object_stage_id object = stage_id source).
  { assert (Hin : In object (filter (fun o => str_eqb (object_name o) currentName
                     && Pos.eqb (object_project_id o) (project_id project)
                     && Pos.eqb (object_stage_id o) (stage_id source))
                    (objects (tables w)))) by (rewrite Ho; now left).
    apply filter_In in Hin as [_ Hb]. apply andb_true_iff in Hb as [Hb Hst].
    apply andb_true_iff in Hb as [Hn _]. apply str_eqb_eq in Hn.
    apply Pos.eqb_eq in Hst. auto. }
  destruct Hname as [Hname Hstage].
  unfold handleUpdateObject. cbv zeta. fold currentName projectName.
  erewrite run_finished.
  2:{ erewrite and_then_await by (apply findProjectByNameExact_answers; assumption).
      unfold projectName at 1. rewrite trim_idempotent. fold projectName.
      cbn [tables after_call]. rewrite Hp. cbn [single data_unless_error pg_ok error data].
      rewrite and_then_proceed. rewrite Hsn.
      erewrite and_then_run.
      2:{ erewrite and_then_await
            by (apply findStageByNameExact_answers; cbn; rewrite Hf; reflexivity).
          rewrite trim_idempotent. cbn [tables after_call]. rewrite Hs.
          cbn [single data_unless_error pg_ok error data]. reflexivity. }
      erewrite and_then_await
        by (apply findObjectByNameExact_answers; cbn; rewrite Hf; reflexivity).
      unfold currentName at 1. rewrite trim_idempotent. fold currentName.
      cbn [tables after_call when_given]. rewrite Ho.
      cbn [single data_unless_error pg_ok error data]. rewrite and_then_proceed.
      erewrite and_then_run.
      2:{ unfold object_update_data, object_new_name, resolve_responsible, date_argument.
          rewrite Hnn, Hrn, Hsd, Hed, Hnsn. cbn [truthy]. rewrite and_then_proceed.
          erewrite and_then_run.
          2:{ erewrite and_then_await
                by (apply findStageByNameExact_answers; cbn; rewrite Hf; reflexivity).
              rewrite trim_idempotent. cbn [tables after_call]. rewrite Ht.
              cbn [single data_unless_error pg_ok error data]. reflexivity. }
          rewrite !and_then_proceed. reflexivity. }
      fold (move_to_stage args object target).
      unfold object_commit.
      cbn [move_to_stage ObjectUpdate.object_start_date ObjectUpdate.object_end_date
           or_else truthy].
      rewrite validateDateRange_or_null, Hrange. cbn [negb]. rewrite and_then_proceed.
      erewrite and_then_await.
      2:{ unfold updateObject.
          erewrite bind_run
            by (apply validateObjectExists_answers; cbn; rewrite Hf; reflexivity).
          cbn [tables after_call ObjectUpdate.object_id move_to_stage]. rewrite Hoid.
          cbn [single ok_with_data pg_ok error data negb].
          cbn [given_but_missing ObjectUpdate.object_project_id move_to_stage
               ObjectUpdate.object_stage_id ObjectUpdate.object_responsible].
          erewrite bind_run by reflexivity. cbv beta iota.
          erewrite bind_run.
          2:{ erewrite bind_run
                by (apply validateStageExists_answers; cbn; rewrite Hf; reflexivity).
              cbn [tables after_call]. rewrite Htid.
              cbn [single ok_with_data pg_ok error data negb]. reflexivity. }
          cbv beta iota.
          erewrite bind_run by reflexivity. cbv beta iota.
          erewrite bind_run by (apply call_answers; cbn; rewrite Hf; reflexivity).
          reflexivity. }
      cbn [fst snd tables after_call with_tables].
      fold (move_to_stage args object target).
      assert (Hrow : filter (fun o => Pos.eqb (object_id o) (object_id object))
                       (map (apply_object_update (move_to_stage args object target))
                            (objects (tables w)))
                     = [apply_object_update (move_to_stage args object target) object]).
      { destruct (filter_one_split _ _ _ Hoid) as [l1 [l2 [-> [Hid Hother]]]].
        rewrite map_app, filter_app. cbn [map filter].
        assert (Hk : forall x, object_id (apply_object_update
                                 (move_to_stage args object target) x) = object_id x).
        { intros x. unfold apply_object_update.
          destruct (Pos.eqb (object_id x) _); reflexivity. }
        rewrite Hk, Pos.eqb_refl.
        rewrite !filter_none; [reflexivity | |].
        - intros x Hx. apply in_map_iff in Hx as [y [<- Hy]]. rewrite Hk.
          apply Hother. apply in_or_app. now right.
        - intros x Hx. apply in_map_iff in Hx as [y [<- Hy]]. rewrite Hk.
          apply Hother. apply in_or_app. now left. }
      cbn [ObjectUpdate.object_id move_to_stage] in Hrow |- *.
      rewrite Hrow.
      cbn [written single pg_ok error data success negb].
      reflexivity. }
  cbn [fst snd tables with_tables after_call set_objects objects
       move_to_stage ObjectUpdate.object_name ObjectUpdate.object_description
       ObjectUpdate.object_stage_id ObjectUpdate.object_responsible
       ObjectUpdate.object_start_date ObjectUpdate.object_end_date truthy is_some change app].
  split; [reflexivity|]. split; [reflexivity|].
  unfold objects_named_in. cbn [set_objects objects].
  apply (filter_after_update (move_to_stage args object target) _ _ object);
    [exact Hoid | |].
  - rewrite Hstage. apply andb_false_iff. right. apply Pos.eqb_neq. congruence.
  - unfold apply_object_update. cbn [move_to_stage ObjectUpdate.object_id].
    rewrite Pos.eqb_refl.
    cbn [object_name object_stage_id ObjectUpdate.object_name
         ObjectUpdate.object_stage_id updated].
    now rewrite Hname, str_eqb_refl, Pos.eqb_refl.
Qed.

(* ================================================================== *)
(** ** Renaming on a store that answers *)
(* ================================================================== *)

Lemma quiet_ret {A} (a : A) : quiet (ret a).
Proof. intros w Hf. exact Hf. Qed.

Lemma quiet_bind {A B} (m : M A) (k : A -> M B) :
  quiet m -> (forall a, quiet (k a)) -> quiet (bind m k).
Proof.
  intros Hm Hk w Hf. unfold bind. specialize (Hm w Hf).
  destruct (m w) as [a w1]. cbn [snd] in Hm. now apply Hk.
Qed.

Lemma quiet_call {A} (c : Call) (exec : Tables -> PgResult A * Tables) : quiet (call c exec).
Proof.
  intros w Hf. rewrite call_answers by exact Hf. cbn. now rewrite Hf.
Qed.

Lemma quiet_select {A} (t : Table) (q : Tables -> PgResult A) : quiet (select t q).
Proof. apply quiet_call. Qed.

Lemma quiet_await {A} (m : M A) : quiet m -> quiet (await m).
Proof.
  intros Hm. unfold await. apply quiet_bind; [assumption|]. intros a. apply quiet_ret.
Qed.

Lemma quiet_proceed {A} (a : A) : quiet (proceed a).
Proof. apply quiet_ret. Qed.

Lemma quiet_return {A} (r : ToolResult) : quiet (@return_ A r).
Proof. apply quiet_ret. Qed.

Lemma quiet_and_then {A B} (h : H A) (k : A -> H B) :
  quiet h -> (forall a, quiet (k a)) -> quiet (and_then h k).
Proof.
  intros Hh Hk. unfold and_then. apply quiet_bind; [assumption|].
  intros [r|a]; [apply quiet_ret | apply Hk].
Qed.

Lemma quiet_if {A} (b : bool) (m1 m2 : M A) :
  quiet m1 -> quiet m2 -> quiet (if b then m1 else m2).
Proof. destruct b; auto. Qed.

#[local] Hint Resolve quiet_ret quiet_select quiet_call quiet_await
  quiet_proceed quiet_return quiet_if : quiet.
#[local] Hint Extern 2 (quiet (bind _ _)) => apply quiet_bind; [|intro] : quiet.
#[local] Hint Extern 2 (quiet (and_then _ _)) => apply quiet_and_then; [|intro] : quiet.
#[local] Hint Extern 3 (quiet (match ?x with _ => _ end)) => destruct x : quiet.

Lemma quiet_findProjectByNameExact name : quiet (findProjectByNameExact name).
Proof. unfold findProjectByNameExact. quiet. Qed.

Lemma quiet_findStageByNameExact name projectId : quiet (findStageByNameExact name projectId).
Proof. unfold findStageByNameExact. quiet. Qed.

Lemma quiet_findObjectByNameExact name projectId stageId :
  quiet (findObjectByNameExact name projectId stageId).
Proof. unfold findObjectByNameExact. quiet. Qed.

Lemma quiet_findSectionByNameExact name projectId objectId :
  quiet (findSectionByNameExact name projectId objectId).
Proof. unfold findSectionByNameExact. quiet. Qed.

#[local] Hint Resolve quiet_findProjectByNameExact quiet_findStageByNameExact
  quiet_findObjectByNameExact quiet_findSectionByNameExact : quiet.

(** What follows a step that only reads, on a store that answers, starts
    from the same tables and a store that answers. *)
Lemma and_then_quiet_reads_then {A B} (h : H A) (k : A -> H B) (R : Tables -> Prop) T w :
  tables w = T -> faults w = [] -> reads_only h -> quiet h -> R T ->
  (forall a w1, h w = (inr a, w1) -> tables w1 = T -> faults w1 = [] ->
                R (tables (snd (k a w1)))) ->
  R (tables (snd (and_then h k w))).
Proof.
  intros HT Hf Hh Hq HR Hk. unfold and_then, bind. specialize (Hh w). specialize (Hq w Hf).
  destruct (h w) as [[r|a] w1] eqn:E; cbn [snd] in Hh, Hq.
  - cbn [ret snd]. rewrite Hh, HT. assumption.
  - apply Hk; [reflexivity | congruence | assumption].
Qed.

(** The new name [update_section] goes on with, on a store that answers:
    none, or a trimmed name that no other section of the object carries. *)
Lemma section_new_name_free args currentName section w newName w1 :
  faults w = [] ->
  section_new_name args currentName section w = (inr newName, w1) ->
  forall n, newName = Some n ->
    forall x, In x (sections (tables w)) ->
      section_object_id x = section_object_id section ->
      section_id x <> section_id section ->
      section_name x <> n.
Proof.
  intros Hf. unfold section_new_name.
  destruct (truthy (arg args "new_name")); [|intros E n Hn; injection E as <- _; discriminate].
  destruct (negb (str_eqb _ currentName));
    [|intros E n Hn; injection E as <- _; discriminate].
  unfold validateUniqueSectionByNameForUpdate.
  erewrite and_then_await
    by (erewrite bind_run by (apply select_answers; assumption); reflexivity).
  rewrite trim_idempotent. unfold unique_unless_rows. cbn [pg_ok error data].
  match goal with |- context [filter ?f ?l] => destruct (filter f l) eqn:Efree end;
    [|discriminate].
  intros E n Hn. injection E as <- _. injection Hn as <-.
  intros x Hx Hobj Hid Hnm.
  apply (filter_nil_inv _ _ x Efree) in Hx.
  rewrite Hnm, str_eqb_refl, Hobj, Pos.eqb_refl in Hx. cbn [andb] in Hx.
  apply negb_false_iff, Pos.eqb_eq in Hx. contradiction.
Qed.

Lemma object_new_name_free args currentName object w newName w1 :
  faults w = [] ->
  object_new_name args currentName object w = (inr newName, w1) ->
  forall n, newName = Some n ->
    forall x, In x (objects (tables w)) ->
      object_stage_id x = object_stage_id object ->
      object_id x <> object_id object ->
      object_name x <> n.
Proof.
  intros Hf. unfold object_new_name.
  destruct (truthy (arg args "new_name")); [|intros E n Hn; injection E as <- _; discriminate].
  destruct (negb (str_eqb _ currentName));
    [|intros E n Hn; injection E as <- _; discriminate].
  unfold validateUniqueObjectByNameForUpdate.
  erewrite and_then_await
    by (erewrite bind_run by (apply select_answers; assumption); reflexivity).
  rewrite trim_idempotent. unfold unique_unless_rows. cbn [pg_ok error data].
  match goal with |- context [filter ?f ?l] => destruct (filter f l) eqn:Efree end;
    [|discriminate].
  intros E n Hn. injection E as <- _. injection Hn as <-.
  intros x Hx Hst Hid Hnm.
  apply (filter_nil_inv _ _ x Efree) in Hx.
  rewrite Hnm, str_eqb_refl, Hst, Pos.eqb_refl in Hx. cbn [andb] in Hx.
  apply negb_false_iff, Pos.eqb_eq in Hx. contradiction.
Qed.

Lemma section_update_data_name (P : Platform) args currentName section w ud w1 :
  faults w = [] ->
  section_update_data args currentName section w = (inr ud, w1) ->
  forall n, SectionUpdate.section_name ud = Some n ->
    forall x, In x (sections (tables w)) ->
      section_object_id x = section_object_id section ->
      section_id x <> section_id section ->
      section_name x <> n.
Proof.
  intros Hf E. unfold section_update_data in E.
  apply and_then_inv in E as (newName & w2 & En & E).
  apply and_then_inv in E as (responsible & w4 & _ & E).
  apply and_then_inv in E as (startDate & w5 & _ & E).
  apply and_then_inv in E as (endDate & w6 & _ & E).
  injection E as <- _. cbn [SectionUpdate.section_name].
  now apply (section_new_name_free args currentName section w newName w2).
Qed.

Lemma object_update_data_name (P : Platform) args currentName projectName project object
      w ud w1 :
  faults w = [] ->
  object_update_data args currentName projectName project object w = (inr ud, w1) ->
  forall n, ObjectUpdate.object_name ud = Some n ->
    forall x, In x (objects (tables w)) ->
      object_stage_id x = object_stage_id object ->
      object_id x <> object_id object ->
      object_name x <> n.
Proof.
  intros Hf E. unfold object_update_data in E.
  apply and_then_inv in E as (newName & w2 & En & E).
  apply and_then_inv in E as (newStageId & w3 & _ & E).
  apply and_then_inv in E as (responsible & w4 & _ & E).
  apply and_then_inv in E as (startDate & w5 & _ & E).
  apply and_then_inv in E as (endDate & w6 & _ & E).
  injection E as <- _. cbn [ObjectUpdate.object_name].
  now apply (object_new_name_free args currentName object w newName w2).
Qed.

(** Without a new stage name the update leaves the stage alone. *)
Lemma object_update_data_stays (P : Platform) args currentName projectName project object
      w ud w1 :
  truthy (arg args "new_stage_name") = false ->
  object_update_data args currentName projectName project object w = (inr ud, w1) ->
  ObjectUpdate.object_stage_id ud = None.
Proof.
  intros Hn E. unfold object_update_data in E. rewrite Hn in E.
  apply and_then_inv in E as (newName & w2 & En & E).
  rewrite and_then_proceed in E.
  apply and_then_inv in E as (responsible & w4 & _ & E).
  apply and_then_inv in E as (startDate & w5 & _ & E).
  apply and_then_inv in E as (endDate & w6 & _ & E).
  injection E as <- _. reflexivity.
Qed.

(** The rows around a row with a unique key. *)
Lemma unique_key_split {A} (key : A -> Id) (l : list A) (a : A) :
  NoDup (map key l) -> In a l ->
  exists l1 l2, l = l1 ++ a :: l2 /\ (forall x, In x (l1 ++ l2) -> key x <> key a).
Proof.
  intros Hnd Hin. apply in_split in Hin as [l1 [l2 ->]]. exists l1, l2.
  split; [reflexivity|]. rewrite map_app in Hnd. cbn [map] in Hnd.
  apply NoDup_remove_2 in Hnd. intros x Hx Hk. apply Hnd.
  rewrite <- map_app, <- Hk. now apply in_map.
Qed.

Lemma distinct_after_section_rename ud t section :
  NoDup (map section_id (sections t)) ->
  In section (sections t) ->
  SectionUpdate.section_id ud = section_id section ->
  SectionUpdate.section_object_id ud = None ->
  (forall n, SectionUpdate.section_name ud = Some n ->
     forall x, In x (sections t) ->
       section_object_id x = section_object_id section ->
       section_id x <> section_id section ->
       section_name x <> n) ->
  section_names_distinct_in_objects t ->
  section_names_distinct_in_objects
    (set_sections (map (apply_section_update ud) (sections t)) t).
Proof.
  intros Hids Hin Hid Hobj Hfree Hnd.
  unfold section_names_distinct_in_objects in *. cbn [set_sections sections].
  destruct (unique_key_split section_id _ _ Hids Hin) as [l1 [l2 [Hrows Hother]]].
  rewrite Hrows in *. clear Hrows.
  assert (Hsame : forall l', (forall x, In x l' -> In x (l1 ++ l2)) ->
            map (apply_section_update ud) l' = l').
  { induction l' as [|x l' IHl]; intros Hl; [reflexivity|]. cbn [map].
    rewrite IHl by (intros y Hy; apply Hl; now right).
    unfold apply_section_update.
    replace (Pos.eqb (section_id x) (SectionUpdate.section_id ud)) with false; [reflexivity|].
    symmetry. apply Pos.eqb_neq. rewrite Hid. apply Hother. apply Hl. now left. }
  rewrite map_app. cbn [map].
  rewrite (Hsame l1) by (intros x Hx; apply in_or_app; now left).
  rewrite (Hsame l2) by (intros x Hx; apply in_or_app; now right).
  unfold apply_section_update at 1. rewrite Hid, Pos.eqb_refl.
  rewrite map_app in *. cbn [map section_object_id section_name] in *. rewrite Hobj.
  cbn [updated].
  destruct (SectionUpdate.section_name ud) as [n|] eqn:En; cbn [updated]; [|exact Hnd].
  apply NoDup_Add with (a := (section_object_id section, n))
    (l := map (fun s => (section_object_id s, section_name s)) l1
          ++ map (fun s => (section_object_id s, section_name s)) l2).
  - apply Add_app.
  - split; [now apply NoDup_remove_1 in Hnd|].
    rewrite <- map_app. intros Hx. apply in_map_iff in Hx as [x [Hk Hx]].
    injection Hk as Hko Hkn.
    apply (Hfree n eq_refl x); [| assumption | now apply Hother | assumption].
    apply in_app_or in Hx. apply in_or_app. destruct Hx; [now left | right; now right].
Qed.

Lemma distinct_after_object_rename ud t object :
  NoDup (map object_id (objects t)) ->
  In object (objects t) ->
  ObjectUpdate.object_id ud = object_id object ->
  ObjectUpdate.object_stage_id ud = None ->
  (forall n, ObjectUpdate.object_name ud = Some n ->
     forall x, In x (objects t) ->
       object_stage_id x = object_stage_id object ->
       object_id x <> object_id object ->
       object_name x <> n) ->
  object_names_distinct_in_stages t ->
  object_names_distinct_in_stages
    (set_objects (map (apply_object_update ud) (objects t)) t).
Proof.
  intros Hids Hin Hid Hst Hfree Hnd.
  unfold object_names_distinct_in_stages in *. cbn [set_objects objects].
  destruct (unique_key_split object_id _ _ Hids Hin) as [l1 [l2 [Hrows Hother]]].
  rewrite Hrows in *. clear Hrows.
  assert (Hsame : forall l', (forall x, In x l' -> In x (l1 ++ l2)) ->
            map (apply_object_update ud) l' = l').
  { induction l' as [|x l' IHl]; intros Hl; [reflexivity|]. cbn [map].
    rewrite IHl by (intros y Hy; apply Hl; now right).
    unfold apply_object_update.
    replace (Pos.eqb (object_id x) (ObjectUpdate.object_id ud)) with false; [reflexivity|].
    symmetry. apply Pos.eqb_neq. rewrite Hid. apply Hother. apply Hl. now left. }
  rewrite map_app. cbn [map].
  rewrite (Hsame l1) by (intros x Hx; apply in_or_app; now left).
  rewrite (Hsame l2) by (intros x Hx; apply in_or_app; now right).
  unfold apply_object_update at 1. rewrite Hid, Pos.eqb_refl.
  rewrite map_app in *. cbn [map object_stage_id object_name] in *. rewrite Hst.
  cbn [updated].
  destruct (ObjectUpdate.object_name ud) as [n|] eqn:En; cbn [updated]; [|exact Hnd].
  apply NoDup_Add with (a := (object_stage_id object, n))
    (l := map (fun o => (object_stage_id o, object_name o)) l1
          ++ map (fun o => (object_stage_id o, object_name o)) l2).
  - apply Add_app.
  - split; [now apply NoDup_remove_1 in Hnd|].
    rewrite <- map_app. intros Hx. apply in_map_iff in Hx as [x [Hk Hx]].
    injection Hk as Hko Hkn.
    apply (Hfree n eq_refl x); [| assumption | now apply Hother | assumption].
    apply in_app_or in Hx. apply in_or_app. destruct Hx; [now left | right; now right].
Qed.

Lemma handleUpdateSection_keeps_names_distinct (P : Platform) args w :
  faults w = [] ->
  NoDup (map section_id (sections (tables w))) ->
  section_names_distinct_in_objects (tables w) ->
  section_names_distinct_in_objects (tables (snd (handleUpdateSection args w))).
Proof.
  intros Hf Hids HR. set (R := section_names_distinct_in_objects).
  change (R (tables w)) in HR.
  change (R (tables (snd (handleUpdateSection args w)))).
  unfold handleUpdateSection. rewrite run_tables. cbv zeta.
  apply (and_then_quiet_reads_then _ _ R (tables w));
    [reflexivity | assumption | reads | quiet | exact HR |].
  intros found_project w1 _ H1 F1.
  apply (and_then_quiet_reads_then _ _ R (tables w));
    [assumption | assumption | reads | quiet | exact HR |].
  intros project w2 _ H2 F2.
  apply (and_then_quiet_reads_then _ _ R (tables w));
    [assumption | assumption | reads | quiet | exact HR |].
  intros objectId w3 _ H3 F3.
  apply (and_then_quiet_reads_then _ _ R (tables w));
    [assumption | assumption | reads | quiet | exact HR |].
  intros found_section w4 Ef H4 F4. apply await_inv in Ef.
  apply (and_then_quiet_reads_then _ _ R (tables w));
    [assumption | assumption | reads | quiet | exact HR |].
  intros section w5 Eo H5 F5.
  destruct found_section as [s|]; [|discriminate Eo].
  injection Eo as Eo Ew. subst s w5.
  apply findSectionByNameExact_found in Ef as (Hin & _ & _ & _). rewrite H3 in Hin.
  apply (and_then_reads_then _ _ R (tables w));
    [assumption | apply reads_only_section_update_data | exact HR |].
  intros ud w6 Eu H6.
  pose proof (section_update_data_inv _ _ _ _ _ _ _ Eu) as (Hid & _).
  pose proof (section_update_data_refs _ _ _ _ _ _ _ Eu) as (Hno & _).
  pose proof (section_update_data_name _ _ _ _ _ _ _ F4 Eu) as Hfree. rewrite H4 in Hfree.
  destruct (section_commit_tables P (trim (String_ (arg args "current_name")))
              (trim (String_ (arg args "project_name"))) section ud w6) as [E|E];
    rewrite E, H6; [exact HR|].
  now apply (distinct_after_section_rename ud (tables w) section).
Qed.

Lemma handleUpdateObject_keeps_names_distinct (P : Platform) args w :
  faults w = [] ->
  truthy (arg args "new_stage_name") = false ->
  NoDup (map object_id (objects (tables w))) ->
  object_names_distinct_in_stages (tables w) ->
  object_names_distinct_in_stages (tables (snd (handleUpdateObject args w))).
Proof.
  intros Hf Hstay Hids HR. set (R := object_names_distinct_in_stages).
  change (R (tables w)) in HR.
  change (R (tables (snd (handleUpdateObject args w)))).
  unfold handleUpdateObject. rewrite run_tables. cbv zeta.
  apply (and_then_quiet_reads_then _ _ R (tables w));
    [reflexivity | assumption | reads | quiet | exact HR |].
  intros found_project w1 _ H1 F1.
  apply (and_then_quiet_reads_then _ _ R (tables w));
    [assumption | assumption | reads | quiet | exact HR |].
  intros project w2 _ H2 F2.
  apply (and_then_quiet_reads_then _ _ R (tables w));
    [assumption | assumption | reads | quiet | exact HR |].
  intros stageId w3 _ H3 F3.
  apply (and_then_quiet_reads_then _ _ R (tables w));
    [assumption | assumption | reads | quiet | exact HR |].
  intros found_object w4 Ef H4 F4. apply await_inv in Ef.
  apply (and_then_quiet_reads_then _ _ R (tables w));
    [assumption | assumption | reads | quiet | exact HR |].
  intros object w5 Eo H5 F5.
  destruct found_object as [o|]; [|discriminate Eo].
  injection Eo as Eo Ew. subst o w5.
  apply findObjectByNameExact_found in Ef as (Hin & _ & _ & _). rewrite H3 in Hin.
  apply (and_then_reads_then _ _ R (tables w));
    [assumption | apply reads_only_object_update_data | exact HR |].
  intros ud w6 Eu H6.
  pose proof (object_update_data_inv _ _ _ _ _ _ _ _ _ Eu) as (Hid & _).
  pose proof (object_update_data_stays _ _ _ _ _ _ _ _ _ Hstay Eu) as Hst.
  pose proof (object_update_data_name _ _ _ _ _ _ _ _ _ F4 Eu) as Hfree.
  rewrite H4 in Hfree.
  destruct (object_commit_tables P (trim (String_ (arg args "current_name")))
              (trim (String_ (arg args "project_name"))) object ud w6) as [E|E];
    rewrite E, H6; [exact HR|].
  now apply (distinct_after_object_rename ud (tables w) object).
Qed.

(** X14. On a store that answers, a rename never gives a parent two
    children of one name: [update_section] keeps section names distinct
    within every object, and [update_object] keeps object names distinct
    within every stage as long as the request does not move the object
    to another stage.  (Row identifiers are taken to be unique.) *)
Theorem renames_keep_names_distinct :
  forall (P : Platform) (args : Args) (w : World),
    faults w = [] ->
    (NoDup (map section_id (sections (tables w))) ->
     section_names_distinct_in_objects (tables w) ->
     section_names_distinct_in_objects (tables (snd (handleUpdateSection args w))))
    /\ (NoDup (map object_id (objects (tables w))) ->
        object_names_distinct_in_stages (tables w) ->
        truthy (arg args "new_stage_name") = false ->
        object_names_distinct_in_stages (tables (snd (handleUpdateObject args w)))).
Proof.
  intros P args w Hf. split.
  - intros Hids Hnd. now apply handleUpdateSection_keeps_names_distinct.
  - intros Hids Hnd Hstay. now apply handleUpdateObject_keeps_names_distinct.
Qed.

(* ================================================================== *)
(** ** Listing objects page by page *)
(* ================================================================== *)

Lemma listObjects_answers filters w :
  faults w = [] ->
  result_data (fst (listObjects filters w))
  = Some (page (ObjectFilters.limit filters) (ObjectFilters.offset filters)
               (objects_matching filters (tables w))).
Proof.
  intros Hf. unfold listObjects.
  erewrite bind_run by (apply select_answers; assumption). reflexivity.
Qed.

Lemma page_of_nth_page {A} size k (rows : list A) :
  0 < size ->
  page (Some size) (Some (k * size)) rows = firstn size (skipn (k * size) rows).
Proof.
  intros Hs. unfold page. destruct size as [|size]; [lia|].
  destruct k as [|k]; cbn [Nat.mul truthy_number number_or]; [reflexivity|].
  reflexivity.
Qed.

Lemma firstn_pages {A} size (rows : list A) n :
  flat_map (fun k => firstn size (skipn (k * size) rows)) (seq 0 n)
  = firstn (n * size) rows.
Proof.
  induction n as [|n IH]; [reflexivity|].
  rewrite seq_S, flat_map_app, IH. cbn [flat_map Nat.add]. rewrite app_nil_r.
  replace (S n * size) with (n * size + size) by lia.
  rewrite <- (firstn_skipn (n * size) rows) at 3.
  rewrite firstn_app.
  destruct (Nat.le_gt_cases (n * size) (List.length rows)) as [Hle|Hgt].
  - rewrite firstn_length_le by exact Hle.
    replace (n * size + size - n * size) with size by lia.
    rewrite (@firstn_all2 _ (n * size + size) (firstn (n * size) rows));
      [reflexivity|]. rewrite firstn_length_le by exact Hle. lia.
  - rewrite (@skipn_all2 _ (n * size) rows) by lia.
    rewrite !firstn_nil, !app_nil_r.
    rewrite (@firstn_all2 _ (n * size + size)); [reflexivity|].
    rewrite length_firstn. lia.
Qed.

(** X15. Paging through [listObjects]: on an unchanging store that
    answers, the pages of a positive size asked one after the other
    (offset 0, size, 2 size, ...) are consecutive stretches of the
    matching objects, with no gap and no repeat: the first [n] pages
    together are the first [n * size] matching objects. *)
Theorem listObjects_pages_tile :
  forall (filters : ObjectFilters.t) (size n : nat) (w : World),
    faults w = [] ->
    0 < size ->
    pages_read filters size n w = firstn (n * size) (objects_matching filters (tables w)).
Proof.
  intros filters size n w Hf Hs. unfold pages_read.
  rewrite <- firstn_pages. apply flat_map_ext. intros k.
  rewrite listObjects_answers by exact Hf.
  cbn [nth_page ObjectFilters.limit ObjectFilters.offset].
  rewrite page_of_nth_page by exact Hs. reflexivity.
Qed.

(* ================================================================== *)
(** ** The cache *)
(* ================================================================== *)

Lemma cache_get_set_same {A} (m : list (Id * A)) k v : cache_get (cache_set m k v) k = Some v.
Proof.
  induction m as [|[k' v'] m IH]; cbn.
  - now rewrite Pos.eqb_refl.
  - destruct (Pos.eqb k' k) eqn:E; cbn; rewrite E; [reflexivity | exact IH].
Qed.

Lemma cache_get_set_other {A} (m : list (Id * A)) k k' v :
  k <> k' -> cache_get (cache_set m k v) k' = cache_get m k'.
Proof.
  intros Hne. induction m as [|[k0 v0] m IH]; cbn.
  - apply Pos.eqb_neq in Hne. now rewrite Hne.
  - destruct (Pos.eqb k0 k) eqn:E; cbn.
    + apply Pos.eqb_eq in E. subst k0. apply Pos.eqb_neq in Hne. now rewrite Hne.
    + destruct (Pos.eqb k0 k'); [reflexivity | exact IH].
Qed.

(** A successful lookup leaves the row it answers in the cache. *)
Lemma getProject_caches checked stored projectId s :
  success (fst (getProject checked stored projectId s)) = true ->
  cache_get (cache_projects (cache (snd (getProject checked stored projectId s)))) projectId
  = Some (result_data (fst (getProject checked stored projectId s))).
Proof.
  unfold getProject.
  destruct (cache_get (cache_projects (cache s)) projectId) as [row|] eqn:Eg.
  - destruct (isCacheValid checked (stamp_projects (cache s))); cbn [fst snd].
    + intros _. exact Eg.
    + destruct (select _ _ (world s)) as [r w']. destruct (error r); cbn; [discriminate|].
      intros _. apply cache_get_set_same.
  - destruct (select _ _ (world s)) as [r w']. destruct (error r); cbn; [discriminate|].
    intros _. apply cache_get_set_same.
Qed.

Lemma getStage_caches checked stored stageId s :
  success (fst (getStage checked stored stageId s)) = true ->
  cache_get (cache_stages (cache (snd (getStage checked stored stageId s)))) stageId
  = Some (result_data (fst (getStage checked stored stageId s))).
Proof.
  unfold getStage.
  destruct (cache_get (cache_stages (cache s)) stageId) as [row|] eqn:Eg.
  - destruct (isCacheValid checked (stamp_stages (cache s))); cbn [fst snd].
    + intros _. exact Eg.
    + destruct (select _ _ (world s)) as [r w']. destruct (error r); cbn; [discriminate|].
      intros _. apply cache_get_set_same.
  - destruct (select _ _ (world s)) as [r w']. destruct (error r); cbn; [discriminate|].
    intros _. apply cache_get_set_same.
Qed.

Lemma getUser_caches checked stored userId s u :
  fst (getUser checked stored userId s) = Some u ->
  cache_get (cache_users (cache (snd (getUser checked stored userId s)))) userId = Some u.
Proof.
  unfold getUser.
  destruct (cache_get (cache_users (cache s)) userId) as [row|] eqn:Eg.
  - destruct (isCacheValid checked (stamp_users (cache s))); cbn [fst snd].
    + intros E. injection E as <-. exact Eg.
    + destruct (select _ _ (world s)) as [r w'].
      destruct (data_unless_error r); cbn; [|discriminate].
      intros E. injection E as <-. apply cache_get_set_same.
  - destruct (select _ _ (world s)) as [r w'].
    destruct (data_unless_error r); cbn; [|discriminate].
    intros E. injection E as <-. apply cache_get_set_same.
Qed.

(** X16. The cache outlives the store: once a project, a stage or a user
    has been looked up with success, every further lookup made within the
    hour of the cache answers the same row without a call to the store,
    whatever the store holds by then (the row may have been changed or
    deleted). *)
Theorem cached_rows_outlive_the_store :
  forall (s : Service) (checked stored : Z) (key : Id),
    (success (fst (getProject checked stored key s)) = true ->
     forall (w' : World) (checked' stored' : Z),
       let s1 := snd (getProject checked stored key s) in
       (checked' - stamp_projects (cache s1) < cacheTimeout)%Z ->
       getProject checked' stored' key (on_store w' s1)
       = (project_from_cache (result_data (fst (getProject checked stored key s))),
          on_store w' s1))
    /\ (success (fst (getStage checked stored key s)) = true ->
        forall (w' : World) (checked' stored' : Z),
          let s1 := snd (getStage checked stored key s) in
          (checked' - stamp_stages (cache s1) < cacheTimeout)%Z ->
          getStage checked' stored' key (on_store w' s1)
          = (stage_from_cache (result_data (fst (getStage checked stored key s))),
             on_store w' s1))
    /\ (forall u, fst (getUser checked stored key s) = Some u ->
        forall (w' : World) (checked' stored' : Z),
          let s1 := snd (getUser checked stored key s) in
          (checked' - stamp_users (cache s1) < cacheTimeout)%Z ->
          getUser checked' stored' key (on_store w' s1) = (Some u, on_store w' s1)).
Proof.
  intros s checked stored key. split; [|split].
  - intros Hok w' checked' stored' s1 Hfresh.
    pose proof (getProject_caches checked stored key s Hok) as Hc. fold s1 in Hc.
    unfold getProject at 1. cbn [on_store cache]. rewrite Hc.
    unfold isCacheValid. rewrite (proj2 (Z.ltb_lt _ _) Hfresh). reflexivity.
  - intros Hok w' checked' stored' s1 Hfresh.
    pose proof (getStage_caches checked stored key s Hok) as Hc. fold s1 in Hc.
    unfold getStage at 1. cbn [on_store cache]. rewrite Hc.
    unfold isCacheValid. rewrite (proj2 (Z.ltb_lt _ _) Hfresh). reflexivity.
  - intros u Hu w' checked' stored' s1 Hfresh.
    pose proof (getUser_caches checked stored key s u Hu) as Hc. fold s1 in Hc.
    unfold getUser at 1. cbn [on_store cache]. rewrite Hc.
    unfold isCacheValid. rewrite (proj2 (Z.ltb_lt _ _) Hfresh). reflexivity.
Qed.

(** X17. The hour of the cache is counted per kind of row, not per row:
    fetching any project from the store makes every cached project
    valid for another hour, however long ago it was cached. *)
Theorem fetching_a_project_renews_every_cached_project :
  forall (s : Service) (checked stored : Z) (a b : Id) (row : option Project),
    cache_get (cache_projects (cache s)) a = Some row ->
    cache_get (cache_projects (cache s)) b = None ->
    success (fst (getProject checked stored b s)) = true ->
    forall (w' : World) (checked' stored' : Z),
      (checked' - stored < cacheTimeout)%Z ->
      getProject checked' stored' a (on_store w' (snd (getProject checked stored b s)))
      = (project_from_cache row, on_store w' (snd (getProject checked stored b s))).
Proof.
  intros s checked stored a b row Ha Hb Hok w' checked' stored' Hfresh.
  assert (Hab : b <> a) by (intros ->; congruence).
  set (s1 := snd (getProject checked stored b s)).
  assert (Hc : cache_get (cache_projects (cache s1)) a = Some row
               /\ stamp_projects (cache s1) = stored).
  { revert Hok. unfold s1, getProject. rewrite Hb.
    destruct (select _ _ (world s)) as [r w1].
    destruct (error r); cbn [fst snd success]; [discriminate|]. intros _.
    cbn [cache set_cached_project cache_projects stamp_projects].
    rewrite (cache_get_set_other _ _ _ _ Hab). auto. }
  destruct Hc as [Hrow Hstamp].
  unfold getProject. cbn [on_store cache]. rewrite Hrow, Hstamp.
  unfold isCacheValid. rewrite (proj2 (Z.ltb_lt _ _) Hfresh). reflexivity.
Qed.

(* ================================================================== *)
(** ** Rate limiting *)
(* ================================================================== *)

Lemma str_eqb_neq : forall a b, a <> b -> str_eqb a b = false.
Proof.
  intros a b Hab. destruct (str_eqb a b) eqn:E; [|reflexivity].
  apply str_eqb_eq in E. contradiction.
Qed.

Lemma limiter_get_set_same : forall m s v, limiter_get (limiter_set m s v) s = Some v.
Proof.
  induction m as [|[k x] m IH]; intros s v; cbn.
  - now rewrite str_eqb_refl.
  - destruct (str_eqb k s) eqn:E; cbn; rewrite E; [reflexivity | apply IH].
Qed.

Lemma limiter_get_set_other : forall m s s' v,
  s <> s' -> limiter_get (limiter_set m s v) s' = limiter_get m s'.
Proof.
  induction m as [|[k x] m IH]; intros s s' v Hs; cbn.
  - now rewrite (str_eqb_neq _ _ Hs).
  - destruct (str_eqb k s) eqn:E; cbn.
    + apply str_eqb_eq in E. subst k. now rewrite (str_eqb_neq _ _ Hs).
    + destruct (str_eqb k s'); [reflexivity | now apply IH].
Qed.

Lemma filter_fresh_later : forall now now' l,
  (now <= now')%Z ->
  filter (still_counts now') (filter (still_counts now) l) = filter (still_counts now') l.
Proof.
  intros now now' l Hle. induction l as [|t l IH]; cbn [filter]; [reflexivity|].
  destruct (still_counts now t) eqn:E1; cbn [filter].
  - destruct (still_counts now' t); now rewrite IH.
  - destruct (still_counts now' t) eqn:E2; [|exact IH].
    unfold still_counts in E1, E2. apply Z.ltb_lt in E2. apply Z.ltb_ge in E1. lia.
Qed.

Lemma in_minute_app : forall s T a b,
  in_minute s T (a ++ b) = in_minute s T a ++ in_minute s T b.
Proof. intros. unfold in_minute. apply filter_app. Qed.

Lemma times_of_app : forall s a b, times_of s (a ++ b) = times_of s a ++ times_of s b.
Proof. intros. unfold times_of. now rewrite filter_app, map_app. Qed.

Lemma in_minute_length_le : forall s T now acc,
  (forall c, In c acc -> (fst c <= now)%Z) ->
  (now <= T)%Z ->
  List.length (in_minute s T acc) <= List.length (filter (still_counts now) (times_of s acc)).
Proof.
  intros s T now acc Hpast HT. unfold in_minute, times_of.
  induction acc as [|c acc IH]; cbn; [lia|].
  assert (Hc : (fst c <= now)%Z) by (apply Hpast; now left).
  assert (IH' := IH (fun c' H' => Hpast c' (or_intror H'))). clear IH.
  destruct (str_eqb (snd c) s); cbn; [|exact IH'].
  unfold still_counts at 1.
  destruct (T - fst c <? 60000)%Z eqn:E1; cbn.
  - assert (E2 : (now - fst c <? 60000)%Z = true) by (apply Z.ltb_lt; apply Z.ltb_lt in E1; lia).
    rewrite E2. destruct (fst c <=? T)%Z; cbn; lia.
  - destruct (now - fst c <? 60000)%Z; cbn; lia.
Qed.

Lemma in_minute_early : forall s T now acc,
  (forall c, In c acc -> (fst c <= now)%Z) ->
  (now + 60000 <= T)%Z ->
  in_minute s T acc = [].
Proof.
  intros s T now acc Hpast HT. unfold in_minute.
  induction acc as [|c acc IH]; cbn; [reflexivity|].
  assert (Hc : (fst c <= now)%Z) by (apply Hpast; now left).
  rewrite IH by (intros c' H'; apply Hpast; now right).
  replace (T - fst c <? 60000)%Z with false by (symmetry; apply Z.ltb_ge; lia).
  now rewrite andb_false_r.
Qed.

Lemma serve_inv_step : forall st last c,
  limiter_inv st last -> (last <= fst c)%Z -> limiter_inv (serve st c) (fst c).
Proof.
  intros [rl acc] last [now s0] [Hrem Hpast Hbound] Hle. cbn [fst snd] in *.
  unfold serve, checkRateLimit. cbn [fst snd].
  fold (remembered rl s0). fold (still_counts now).
  destruct (1000 <=? List.length (filter (still_counts now) (remembered rl s0))) eqn:Efull;
    cbn [fst snd].
  - split; cbn [fst snd].
    + intros s now' Hn. apply Hrem. lia.
    + intros c Hc. specialize (Hpast c Hc). lia.
    + exact Hbound.
  - apply Nat.leb_gt in Efull. split; cbn [fst snd].
    + intros s now' Hn. rewrite times_of_app, filter_app.
      destruct (str_eqb s0 s) eqn:Es.
      * apply str_eqb_eq in Es. subst s0. unfold remembered at 1.
        rewrite limiter_get_set_same. rewrite filter_app.
        rewrite (filter_fresh_later now now') by exact Hn.
        rewrite Hrem by lia. unfold times_of at 3. cbn. rewrite str_eqb_refl. reflexivity.
      * assert (Hne : s0 <> s).
        { intros ->. rewrite str_eqb_refl in Es. discriminate. }
        unfold remembered at 1. rewrite (limiter_get_set_other _ _ _ _ Hne).
        fold (remembered rl s). rewrite Hrem by lia.
        unfold times_of at 3. cbn. rewrite Es. cbn. now rewrite app_nil_r.
    + intros c Hc. apply in_app_or in Hc. destruct Hc as [Hc|[<-|[]]]; cbn.
      * specialize (Hpast c Hc). lia.
      * lia.
    + intros s T. rewrite in_minute_app.
      assert (Hpast' : forall c, In c acc -> (fst c <= now)%Z).
      { intros c Hc. specialize (Hpast c Hc). lia. }
      unfold in_minute at 2. cbn [filter fst snd].
      destruct (str_eqb s0 s) eqn:Es; cbn [andb];
        [|rewrite app_nil_r; apply Hbound].
      apply str_eqb_eq in Es. subst s0.
      destruct (T - now <? 60000)%Z eqn:E1; cbn [andb];
        [|rewrite app_nil_r; apply Hbound].
      destruct (now <=? T)%Z eqn:E2; [|rewrite app_nil_r; apply Hbound].
      apply Z.leb_le in E2. rewrite length_app. cbn [List.length].
      pose proof (in_minute_length_le s T now acc Hpast' E2) as Hlen.
      rewrite <- (Hrem s now) in Hlen by exact Hle. lia.
Qed.

Lemma limiter_inv_start : forall last, limiter_inv ([], []) last.
Proof.
  intros last. split; cbn; [reflexivity | tauto | intros; lia].
Qed.

Lemma serve_inv : forall calls st last,
  limiter_inv st last ->
  ascending last (map fst calls) ->
  exists last', limiter_inv (fold_left serve calls st) last'.
Proof.
  induction calls as [|c calls IH]; intros st last Hinv Hasc; cbn.
  - now exists last.
  - cbn in Hasc. destruct Hasc as [Hle Hasc].
    apply (IH (serve st c) (fst c)); [now apply (serve_inv_step st last) | exact Hasc].
Qed.

(** X18. Whatever requests reach a new limiter, as long as the clock
    never goes back: for every session and every instant [T], at most
    1000 of the session's requests that came in the minute ending at [T]
    were let through. *)
Theorem checkRateLimit_lets_through_at_most_1000_a_minute : forall calls first s T,
  ascending first (map fst calls) ->
  List.length (in_minute s T (let_through calls)) <= 1000.
Proof.
  intros calls first s T Hasc.
  destruct (serve_inv calls ([], []) first (limiter_inv_start first) Hasc) as [last Hinv].
  apply (inv_bound Hinv).
Qed.

Lemma burst_from : forall s first calls st,
  burst_of s first calls ->
  remembered (fst st) s = map fst (snd st) ->
  (forall c, In c (snd st) -> (first <= fst c)%Z) ->
  snd (fold_left serve calls st)
  = snd st ++ firstn (1000 - List.length (snd st)) calls.
Proof.
  intros s first calls. induction calls as [|[now s0] calls IH]; intros [rl acc] Hb Hrem Hlo;
    cbn [fst snd fold_left] in *.
  - now rewrite firstn_nil, app_nil_r.
  - destruct (Hb (now, s0) (or_introl eq_refl)) as [Hs Hnow]. cbn [fst snd] in Hs, Hnow.
    subst s0.
    assert (Hb' : burst_of s first calls) by (intros c Hc; apply Hb; now right).
    assert (Hall : filter (fun time => (now - time <? 60000)%Z) (remembered rl s)
                   = remembered rl s).
    { apply filter_all. intros t Ht. rewrite Hrem in Ht. apply in_map_iff in Ht.
      destruct Ht as [c [<- Hc]]. specialize (Hlo c Hc). apply Z.ltb_lt. lia. }
    assert (Hstep : serve (rl, acc) (now, s)
                    = if 1000 <=? List.length acc then (rl, acc)
                      else (limiter_set rl s (map fst acc ++ [now]), acc ++ [(now, s)])).
    { unfold serve, checkRateLimit. cbn [fst snd]. fold (remembered rl s).
      rewrite Hall, Hrem, length_map. now destruct (1000 <=? List.length acc). }
    rewrite Hstep. clear Hstep.
    destruct (1000 <=? List.length acc) eqn:Efull.
    + apply Nat.leb_le in Efull.
      rewrite (IH (rl, acc)); cbn [fst snd]; try assumption.
      replace (1000 - List.length acc) with 0 by lia. reflexivity.
    + apply Nat.leb_gt in Efull.
      rewrite (IH (limiter_set rl s (map fst acc ++ [now]), acc ++ [(now, s)]));
        cbn [fst snd]; try assumption.
      * rewrite length_app. cbn [List.length].
        replace (1000 - List.length acc) with (S (1000 - (List.length acc + 1))) by lia.
        cbn [firstn]. now rewrite <- app_assoc.
      * unfold remembered. rewrite limiter_get_set_same, map_app. reflexivity.
      * intros c Hc. apply in_app_or in Hc. destruct Hc as [Hc|[<-|[]]]; cbn; [now apply Hlo | lia].
Qed.

(** X19. A burst: of the requests one session sends within one minute,
    a new limiter lets through the first 1000 and refuses every later
    one. *)
Theorem checkRateLimit_lets_through_the_first_1000 : forall s first calls,
  burst_of s first calls ->
  let_through calls = firstn 1000 calls.
Proof.
  intros s first calls Hb. unfold let_through.
  exact (burst_from s first calls ([], []) Hb eq_refl (fun c (Hc : In c []) => match Hc with end)).
Qed.

(* ================================================================== *)
(** ** The further properties at concrete inputs *)
(* ================================================================== *)

Lemma underscore_query_witness :
  includes (trim underscore_query) 32 = true
  /\ searchTerms (escape_like (trim underscore_query))
     = single_field_clauses [97; 92; 95; 98; 32; 99]%N
       ++ name_pair_clauses [97; 92; 92; 92; 95; 98]%N [99]%N.
Proof.
  split; [reflexivity|].
  exact (proj1 (name_pair_words_are_escaped_twice underscore_query eq_refl)).
Defined.

Lemma tower_names_witness :
  project_names_distinct site_tables
  /\ project_names_distinct
       (tables (snd (createProject tower_b_input (world_of site_tables))))
  /\ project_names_distinct
       (tables (snd (updateProject rename_tower_a (world_of site_tables)))).
Proof.
  assert (H : project_names_distinct (tables (world_of site_tables))).
  { repeat constructor. intros []. }
  destruct (project_names_stay_distinct (world_of site_tables) H) as [Hc Hu].
  split; [exact H|]. split; [apply Hc | apply Hu; discriminate].
Defined.

Lemma cascade_witness :
  let (result, w') := deleteProject 1%positive true (world_of planned_tables) in
  success result = true
  /\ message result
     = lit "Проект и все связанные данные (" ++ of_nat 4 ++ lit " записей) успешно удалены"
  /\ tables w' = without_project 1%positive planned_tables
  /\ fst (validateProjectExists 1%positive w') = false
  /\ info_total (fst (getCascadeDeleteInfo 1%positive w')) = 0.
Proof.
  exact (deleteProject_cascade_removes_project_and_rows
           1%positive (world_of planned_tables) tower_a eq_refl eq_refl).
Defined.

Lemma blind_count_witness :
  let (result, w') := deleteProject 1%positive false (blind_count planned_tables) in
  success result = true
  /\ message result = lit "Проект успешно удален"
  /\ projects_with_id (tables w') 1%positive = []
  /\ stages (tables w') = [foundation; framing]
  /\ objects (tables w') = [block_1]
  /\ sections (tables w') = [rebar_plan].
Proof.
  exact (deleteProject_deletes_when_the_count_fails
           1%positive (blind_count planned_tables) tower_a
           (lit "timeout") (lit "timeout") (lit "timeout") eq_refl eq_refl).
Defined.

Lemma sections_locked_witness :
  let (result, w') := deleteProject 1%positive true (sections_locked planned_tables) in
  success result = true
  /\ message result
     = lit "Проект и все связанные данные (" ++ of_nat 4 ++ lit " записей) успешно удалены"
  /\ sections (tables w') = [rebar_plan]
  /\ projects_with_id (tables w') 1%positive = [].
Proof.
  exact (deleteProject_cascade_reports_success_with_sections_left
           1%positive (sections_locked planned_tables) tower_a (lit "locked")
           eq_refl eq_refl).
Defined.

Lemma deletions_witness :
  hierarchy_intact planned_tables = true
  /\ hierarchy_intact
       (tables (snd (deleteStage 1%positive true (world_of planned_tables)))) = true.
Proof.
  split; [reflexivity|].
  exact (proj1 (proj2 (deletions_keep_the_hierarchy_intact
                         (world_of planned_tables) eq_refl eq_refl))
               1%positive true).
Defined.

Lemma second_call_fails_witness :
  faults (second_call_fails planned_tables) = [None; Some (lit "timeout")]
  /\ (let (result, w') := deleteStage 1%positive false (second_call_fails planned_tables) in
      success result = true
      /\ message result = lit "Этап успешно удален"
      /\ filter (fun s => Pos.eqb (stage_id s) 1%positive) (stages (tables w')) = []
      /\ objects (tables w') = [block_1]).
Proof.
  split; [reflexivity|].
  exact (proj1 (child_counts_fail_open (second_call_fails planned_tables) (lit "timeout")
                  eq_refl)
               1%positive foundation eq_refl).
Defined.

Lemma store_consistent_witness :
  store_consistent planned_tables
  /\ store_consistent
       (tables (snd (handleCreateObject (P := example_platform) create_block_2
                       (world_of planned_tables)))).
Proof.
  assert (H : store_consistent (tables (world_of planned_tables))).
  { split; [|split; [|reflexivity]];
      repeat (constructor; [cbn; intuition discriminate|]); constructor. }
  split; [exact H|].
  exact (proj1 (writing_tools_keep_the_store_consistent example_platform
                  (world_of planned_tables) H create_block_2)).
Defined.

Lemma stage_writes_witness :
  store_consistent planned_tables
  /\ store_consistent (tables (snd (createStage finishing_input (world_of planned_tables))))
  /\ store_consistent (tables (snd (updateStage rename_foundation (world_of planned_tables)))).
Proof.
  assert (H : store_consistent (tables (world_of planned_tables))).
  { split; [|split; [|reflexivity]];
      repeat (constructor; [cbn; intuition discriminate|]); constructor. }
  destruct (stage_writes_keep_the_store_consistent (world_of planned_tables) H) as [Hc Hu].
  split; [exact H|]. split; [apply Hc | apply Hu; reflexivity].
Defined.

Lemma distinct_names_witness :
  object_names_distinct_in_stages site_tables
  /\ object_names_distinct_in_stages
       (tables (snd (handleCreateObject (P := example_platform) create_block_1_again
                       (world_of site_tables)))).
Proof.
  assert (H : object_names_distinct_in_stages (tables (world_of site_tables))).
  { repeat (constructor; [cbn; intuition discriminate|]); constructor. }
  split; [exact H|].
  exact (create_object_keeps_names_distinct_in_stages example_platform
           create_block_1_again (world_of site_tables) eq_refl H).
Defined.

Lemma third_call_fails_witness :
  let (result, w') :=
    handleCreateObject (P := example_platform) create_block_1_again
      (third_call_fails site_tables) in
  result = object_created (lit "Block 1") tower_a foundation
  /\ objects (tables w')
     = [block_1] ++ [insert_object (requested_object create_block_1_again tower_a foundation)
                       site_tables]
  /\ objects_named_in (tables w') (lit "Block 1") 1%positive
     = [block_1] ++ [insert_object (requested_object create_block_1_again tower_a foundation)
                       site_tables].
Proof.
  exact (create_object_name_check_fails_open example_platform create_block_1_again
           (third_call_fails site_tables) tower_a foundation (lit "timeout")
           eq_refl eq_refl eq_refl eq_refl eq_refl eq_refl eq_refl eq_refl).
Defined.

Lemma move_block_1_witness :
  let (result, w') :=
    handleUpdateObject (P := example_platform) move_block_1 (world_of twin_tables) in
  result = object_updated (lit "Block 1") (lit "Tower A") [lit "Стадия: изменена"]
  /\ objects (tables w') = [block_1_moved; block_1_framing]
  /\ List.length (objects_named_in (tables w') (lit "Block 1") 2%positive) = 2.
Proof.
  refine (update_object_moves_without_name_check example_platform move_block_1
            (world_of twin_tables) tower_a foundation framing block_1
            eq_refl eq_refl eq_refl eq_refl eq_refl eq_refl eq_refl _
            eq_refl eq_refl eq_refl eq_refl eq_refl eq_refl eq_refl).
  discriminate.
Defined.

Lemma rename_witness :
  faults (world_of planned_tables) = []
  /\ section_names_distinct_in_objects
       (tables (snd (handleUpdateSection (P := example_platform) rename_rebar_plan
                       (world_of planned_tables))))
  /\ object_names_distinct_in_stages
       (tables (snd (handleUpdateObject (P := example_platform) rename_block_1_to_block_2
                       (world_of planned_tables)))).
Proof.
  split; [reflexivity|].
  destruct (renames_keep_names_distinct example_platform rename_rebar_plan
              (world_of planned_tables) eq_refl) as [Hs _].
  destruct (renames_keep_names_distinct example_platform rename_block_1_to_block_2
              (world_of planned_tables) eq_refl) as [_ Ho].
  split.
  - apply Hs; repeat (constructor; [cbn; intuition discriminate|]); constructor.
  - apply Ho; [| | reflexivity];
      repeat (constructor; [cbn; intuition discriminate|]); constructor.
Defined.

Lemma pages_witness :
  pages_read in_foundation 1 2 (world_of twin_tables) = [block_1].
Proof.
  exact (listObjects_pages_tile in_foundation 1 2 (world_of twin_tables) eq_refl (le_n 1)).
Defined.

Lemma stale_project_witness :
  getProject (opening_hour + 60000) (opening_hour + 60000) 1%positive
    (on_store (world_of (without_project 1%positive two_projects)) service_with_tower_a)
  = (project_from_cache (Some tower_a),
     on_store (world_of (without_project 1%positive two_projects)) service_with_tower_a).
Proof.
  exact (proj1 (cached_rows_outlive_the_store (fresh_service two_projects)
                  opening_hour opening_hour 1%positive)
               eq_refl (world_of (without_project 1%positive two_projects))
               (opening_hour + 60000)%Z (opening_hour + 60000)%Z eq_refl).
Defined.

Lemma renewed_project_witness :
  isCacheValid (opening_hour + 2 * cacheTimeout + 60000)
    (stamp_projects (cache service_with_tower_a)) = false
  /\ getProject (opening_hour + 2 * cacheTimeout + 60000)
       (opening_hour + 2 * cacheTimeout + 60000) 1%positive
       (snd (getProject (opening_hour + 2 * cacheTimeout) (opening_hour + 2 * cacheTimeout)
               2%positive service_with_tower_a))
     = (project_from_cache (Some tower_a),
        snd (getProject (opening_hour + 2 * cacheTimeout) (opening_hour + 2 * cacheTimeout)
               2%positive service_with_tower_a)).
Proof.
  split; [reflexivity|].
  exact (fetching_a_project_renews_every_cached_project service_with_tower_a
           (opening_hour + 2 * cacheTimeout)%Z (opening_hour + 2 * cacheTimeout)%Z
           1%positive 2%positive (Some tower_a) eq_refl eq_refl eq_refl
           (world (snd (getProject (opening_hour + 2 * cacheTimeout)
                          (opening_hour + 2 * cacheTimeout) 2%positive
                          service_with_tower_a)))
           (opening_hour + 2 * cacheTimeout + 60000)%Z
           (opening_hour + 2 * cacheTimeout + 60000)%Z eq_refl).
Defined.

Lemma three_arrivals_witness :
  ascending 0 (map fst three_arrivals)
  /\ List.length (in_minute [115; 49]%N 20 (let_through three_arrivals)) <= 1000.
Proof.
  assert (H : ascending 0 (map fst three_arrivals)) by (cbn; lia).
  split; [exact H|].
  exact (checkRateLimit_lets_through_at_most_1000_a_minute three_arrivals 0 [115; 49]%N 20 H).
Defined.

Lemma busy_second_witness :
  burst_of [115; 49]%N 0 busy_second
  /\ let_through busy_second = firstn 1000 busy_second.
Proof.
  assert (H : burst_of [115; 49]%N 0 busy_second).
  { intros c Hc. unfold busy_second in Hc. apply in_map_iff in Hc.
    destruct Hc as [i [<- Hi]]. apply in_seq in Hi. cbn. split; [reflexivity | lia]. }
  split; [exact H|].
  exact (checkRateLimit_lets_through_the_first_1000 [115; 49]%N 0 busy_second H).
Defined.
